(** * PingPong match simulation engine: a shallow embedding of [useGameEngine]

    The engine lives in one React hook, [useGameEngine].  Its mutable match
    state is [stateRef.current] (interface [GameState]); the hook keeps a few
    more refs beside it that [update] reads and writes (previous paddle
    positions, the key set, mouse and touch flags).

    Number model.  JavaScript numbers are IEEE doubles.  Continuous quantities
    (positions, velocities, timers, factors) are embedded as real numbers [R]
    with exact arithmetic, [Math.cos], [Math.sin], [Math.sqrt], [Math.PI] as
    [cos], [sin], [sqrt], [PI]; counters that the code only ever sets to an
    integer literal or increments (scores, rally, combo, millisecond
    timestamps) are [Z].  Rounding is therefore not modelled: statements the
    source documentation makes "within floating-point tolerance" are exact
    here.

    Effects.  [stateRef.current] is mutated in place; the embedding passes the
    state explicitly.  [Math.random()] and [Date.now()] are inputs of the
    operation that calls them.  Drawing, audio and the purely cosmetic state
    ([particles], [trails], [screenShake], [theme], [reducedMotion],
    [serveCountdownLastInt], the HUD copy [effectTimersRef] and the mirrored
    React state) never feed back into the physics and are left out of
    [GameState]; the ball's trail is modelled on its own, after the engine. *)

From Stdlib Require Import Reals Lra Lia ZArith String List Bool.
Import ListNotations.

Open Scope R_scope.

(** ** Comparisons on numbers as booleans *)

Definition Rltb (a b : R) : bool := if Rlt_dec a b then true else false.
Definition Rleb (a b : R) : bool := if Rle_dec a b then true else false.
Definition Rgtb (a b : R) : bool := Rltb b a.
Definition Rgeb (a b : R) : bool := Rleb b a.
Definition Reqb (a b : R) : bool := if Req_dec_T a b then true else false.

Infix "<?" := Rltb (at level 70, no associativity) : R_scope.
Infix "<=?" := Rleb (at level 70, no associativity) : R_scope.
Infix ">?" := Rgtb (at level 70, no associativity) : R_scope.
Infix ">=?" := Rgeb (at level 70, no associativity) : R_scope.
Infix "=?" := Reqb (at level 70, no associativity) : R_scope.

(** [Math.sign] *)
Definition Math_sign (a : R) : R :=
  if a >? 0 then 1 else if a <? 0 then -1 else 0.

(** ** Enumerations of the source *)

Inductive Difficulty : Type := easy | medium | hard | impossible.
Inductive GameMode : Type := single | multi.
Inductive PowerUpType : Type := enlarge | shrink | slow | fast.
Inductive Status : Type := menu | playing | paused | gameOver.
(** [lastHitBy: 'player' | 'ai'] *)
Inductive Side : Type := sidePlayer | sideAi.
(** [serveDirection: 1 | -1] *)
Inductive Direction : Type := toRight | toLeft.
(** [powerUpSpawnRate: 'low' | 'normal' | 'high'] *)
Inductive SpawnRate : Type := rateLow | rateNormal | rateHigh.

Definition dirSign (d : Direction) : R :=
  match d with toRight => 1 | toLeft => -1 end.

Definition Status_eqb (a b : Status) : bool :=
  match a, b with
  | menu, menu | playing, playing | paused, paused | gameOver, gameOver => true
  | _, _ => false
  end.

(** ** Entity model *)

Module Ball.
Record t : Type := mk {
  x : R;
  y : R;
  vx : R;
  vy : R;
  speed : R;
  radius : R
}.

Definition set_x (v : R) (b : t) : t :=
  mk v (y b) (vx b) (vy b) (speed b) (radius b).

Definition set_y (v : R) (b : t) : t :=
  mk (x b) v (vx b) (vy b) (speed b) (radius b).

Definition set_vx (v : R) (b : t) : t :=
  mk (x b) (y b) v (vy b) (speed b) (radius b).

Definition set_vy (v : R) (b : t) : t :=
  mk (x b) (y b) (vx b) v (speed b) (radius b).

Definition set_speed (v : R) (b : t) : t :=
  mk (x b) (y b) (vx b) (vy b) v (radius b).

Definition set_radius (v : R) (b : t) : t :=
  mk (x b) (y b) (vx b) (vy b) (speed b) v.

End Ball.

Module Paddle.
Record t : Type := mk {
  x : R;
  y : R;
  width : R;
  height : R;
  speed : R;
  score : Z;
  dy : R
}.

Definition set_y (v : R) (p : t) : t :=
  mk (x p) v (width p) (height p) (speed p) (score p) (dy p).

Definition set_height (v : R) (p : t) : t :=
  mk (x p) (y p) (width p) v (speed p) (score p) (dy p).

Definition set_speed (v : R) (p : t) : t :=
  mk (x p) (y p) (width p) (height p) v (score p) (dy p).

Definition set_score (v : Z) (p : t) : t :=
  mk (x p) (y p) (width p) (height p) (speed p) v (dy p).

Definition set_dy (v : R) (p : t) : t :=
  mk (x p) (y p) (width p) (height p) (speed p) (score p) v.

End Paddle.

Module PowerUp.
Record t : Type := mk {
  x : R;
  y : R;
  radius : R;
  type : PowerUpType;
  ttl : R;
  maxTtl : R
}.

Definition set_ttl (v : R) (pu : t) : t :=
  mk (x pu) (y pu) (radius pu) (type pu) v (maxTtl pu).

End PowerUp.

(** [powerUpsCollected: { player: number; ai: number }] *)
Module Collected.
Record t : Type := mk {
  player : Z;
  ai : Z
}.
End Collected.

(** [stateRef.current], followed by the hook's refs that [update] and the
    input handlers share with it: [prevPlayerYRef], [prevAiYRef],
    [touchActiveRef], [useMouseRef], [mouseYRef], [keysRef]. *)
Record GameState : Type := mkGameState {
  ball : Ball.t;
  player : Paddle.t;
  ai : Paddle.t;
  gameStatus : Status;
  winner : string;
  rallyCount : Z;
  maxRally : Z;
  combo : Z;
  lastHitTime : Z;
  winScore : Z;
  difficulty : Difficulty;
  isPowerHit : bool;
  powerHitTimer : R;
  mode : GameMode;
  powerUps : list PowerUp.t;
  powerUpSpawnTimer : R;
  lastHitBy : Side;
  playerPowerUpTimer : R;
  aiPowerUpTimer : R;
  ballSlowTimer : R;
  ballSlowFactor : R;
  ballFastTimer : R;
  ballFastFactor : R;
  playerShrinkTimer : R;
  aiShrinkTimer : R;
  serveCountdown : R;
  serveDirection : Direction;
  adaptiveAI : bool;
  powerUpsEnabled : bool;
  powerUpSpawnRate : SpawnRate;
  matchStartMs : Z;
  matchEndMs : Z;
  powerUpsCollected : Collected.t;
  prevPlayerYRef : R;
  prevAiYRef : R;
  touchActiveRef : bool;
  useMouseRef : bool;
  mouseYRef : R;
  keysRef : list string
}.

Definition set_ball (v : Ball.t) (s : GameState) : GameState :=
  mkGameState v (player s) (ai s) (gameStatus s) (winner s) (rallyCount s) (maxRally s) (combo
  s) (lastHitTime s) (winScore s) (difficulty s) (isPowerHit s) (powerHitTimer s) (mode s)
  (powerUps s) (powerUpSpawnTimer s) (lastHitBy s) (playerPowerUpTimer s) (aiPowerUpTimer s)
  (ballSlowTimer s) (ballSlowFactor s) (ballFastTimer s) (ballFastFactor s) (playerShrinkTimer
  s) (aiShrinkTimer s) (serveCountdown s) (serveDirection s) (adaptiveAI s) (powerUpsEnabled
  s) (powerUpSpawnRate s) (matchStartMs s) (matchEndMs s) (powerUpsCollected s)
  (prevPlayerYRef s) (prevAiYRef s) (touchActiveRef s) (useMouseRef s) (mouseYRef s) (keysRef
  s).

Definition set_player (v : Paddle.t) (s : GameState) : GameState :=
  mkGameState (ball s) v (ai s) (gameStatus s) (winner s) (rallyCount s) (maxRally s) (combo
  s) (lastHitTime s) (winScore s) (difficulty s) (isPowerHit s) (powerHitTimer s) (mode s)
  (powerUps s) (powerUpSpawnTimer s) (lastHitBy s) (playerPowerUpTimer s) (aiPowerUpTimer s)
  (ballSlowTimer s) (ballSlowFactor s) (ballFastTimer s) (ballFastFactor s) (playerShrinkTimer
  s) (aiShrinkTimer s) (serveCountdown s) (serveDirection s) (adaptiveAI s) (powerUpsEnabled
  s) (powerUpSpawnRate s) (matchStartMs s) (matchEndMs s) (powerUpsCollected s)
  (prevPlayerYRef s) (prevAiYRef s) (touchActiveRef s) (useMouseRef s) (mouseYRef s) (keysRef
  s).

Definition set_ai (v : Paddle.t) (s : GameState) : GameState :=
  mkGameState (ball s) (player s) v (gameStatus s) (winner s) (rallyCount s) (maxRally s)
  (combo s) (lastHitTime s) (winScore s) (difficulty s) (isPowerHit s) (powerHitTimer s) (mode
  s) (powerUps s) (powerUpSpawnTimer s) (lastHitBy s) (playerPowerUpTimer s) (aiPowerUpTimer
  s) (ballSlowTimer s) (ballSlowFactor s) (ballFastTimer s) (ballFastFactor s)
  (playerShrinkTimer s) (aiShrinkTimer s) (serveCountdown s) (serveDirection s) (adaptiveAI s)
  (powerUpsEnabled s) (powerUpSpawnRate s) (matchStartMs s) (matchEndMs s) (powerUpsCollected
  s) (prevPlayerYRef s) (prevAiYRef s) (touchActiveRef s) (useMouseRef s) (mouseYRef s)
  (keysRef s).

Definition set_gameStatus (v : Status) (s : GameState) : GameState :=
  mkGameState (ball s) (player s) (ai s) v (winner s) (rallyCount s) (maxRally s) (combo s)
  (lastHitTime s) (winScore s) (difficulty s) (isPowerHit s) (powerHitTimer s) (mode s)
  (powerUps s) (powerUpSpawnTimer s) (lastHitBy s) (playerPowerUpTimer s) (aiPowerUpTimer s)
  (ballSlowTimer s) (ballSlowFactor s) (ballFastTimer s) (ballFastFactor s) (playerShrinkTimer
  s) (aiShrinkTimer s) (serveCountdown s) (serveDirection s) (adaptiveAI s) (powerUpsEnabled
  s) (powerUpSpawnRate s) (matchStartMs s) (matchEndMs s) (powerUpsCollected s)
  (prevPlayerYRef s) (prevAiYRef s) (touchActiveRef s) (useMouseRef s) (mouseYRef s) (keysRef
  s).

Definition set_winner (v : string) (s : GameState) : GameState :=
  mkGameState (ball s) (player s) (ai s) (gameStatus s) v (rallyCount s) (maxRally s) (combo
  s) (lastHitTime s) (winScore s) (difficulty s) (isPowerHit s) (powerHitTimer s) (mode s)
  (powerUps s) (powerUpSpawnTimer s) (lastHitBy s) (playerPowerUpTimer s) (aiPowerUpTimer s)
  (ballSlowTimer s) (ballSlowFactor s) (ballFastTimer s) (ballFastFactor s) (playerShrinkTimer
  s) (aiShrinkTimer s) (serveCountdown s) (serveDirection s) (adaptiveAI s) (powerUpsEnabled
  s) (powerUpSpawnRate s) (matchStartMs s) (matchEndMs s) (powerUpsCollected s)
  (prevPlayerYRef s) (prevAiYRef s) (touchActiveRef s) (useMouseRef s) (mouseYRef s) (keysRef
  s).

Definition set_rallyCount (v : Z) (s : GameState) : GameState :=
  mkGameState (ball s) (player s) (ai s) (gameStatus s) (winner s) v (maxRally s) (combo s)
  (lastHitTime s) (winScore s) (difficulty s) (isPowerHit s) (powerHitTimer s) (mode s)
  (powerUps s) (powerUpSpawnTimer s) (lastHitBy s) (playerPowerUpTimer s) (aiPowerUpTimer s)
  (ballSlowTimer s) (ballSlowFactor s) (ballFastTimer s) (ballFastFactor s) (playerShrinkTimer
  s) (aiShrinkTimer s) (serveCountdown s) (serveDirection s) (adaptiveAI s) (powerUpsEnabled
  s) (powerUpSpawnRate s) (matchStartMs s) (matchEndMs s) (powerUpsCollected s)
  (prevPlayerYRef s) (prevAiYRef s) (touchActiveRef s) (useMouseRef s) (mouseYRef s) (keysRef
  s).

Definition set_maxRally (v : Z) (s : GameState) : GameState :=
  mkGameState (ball s) (player s) (ai s) (gameStatus s) (winner s) (rallyCount s) v (combo s)
  (lastHitTime s) (winScore s) (difficulty s) (isPowerHit s) (powerHitTimer s) (mode s)
  (powerUps s) (powerUpSpawnTimer s) (lastHitBy s) (playerPowerUpTimer s) (aiPowerUpTimer s)
  (ballSlowTimer s) (ballSlowFactor s) (ballFastTimer s) (ballFastFactor s) (playerShrinkTimer
  s) (aiShrinkTimer s) (serveCountdown s) (serveDirection s) (adaptiveAI s) (powerUpsEnabled
  s) (powerUpSpawnRate s) (matchStartMs s) (matchEndMs s) (powerUpsCollected s)
  (prevPlayerYRef s) (prevAiYRef s) (touchActiveRef s) (useMouseRef s) (mouseYRef s) (keysRef
  s).

Definition set_combo (v : Z) (s : GameState) : GameState :=
  mkGameState (ball s) (player s) (ai s) (gameStatus s) (winner s) (rallyCount s) (maxRally s)
  v (lastHitTime s) (winScore s) (difficulty s) (isPowerHit s) (powerHitTimer s) (mode s)
  (powerUps s) (powerUpSpawnTimer s) (lastHitBy s) (playerPowerUpTimer s) (aiPowerUpTimer s)
  (ballSlowTimer s) (ballSlowFactor s) (ballFastTimer s) (ballFastFactor s) (playerShrinkTimer
  s) (aiShrinkTimer s) (serveCountdown s) (serveDirection s) (adaptiveAI s) (powerUpsEnabled
  s) (powerUpSpawnRate s) (matchStartMs s) (matchEndMs s) (powerUpsCollected s)
  (prevPlayerYRef s) (prevAiYRef s) (touchActiveRef s) (useMouseRef s) (mouseYRef s) (keysRef
  s).

Definition set_lastHitTime (v : Z) (s : GameState) : GameState :=
  mkGameState (ball s) (player s) (ai s) (gameStatus s) (winner s) (rallyCount s) (maxRally s)
  (combo s) v (winScore s) (difficulty s) (isPowerHit s) (powerHitTimer s) (mode s) (powerUps
  s) (powerUpSpawnTimer s) (lastHitBy s) (playerPowerUpTimer s) (aiPowerUpTimer s)
  (ballSlowTimer s) (ballSlowFactor s) (ballFastTimer s) (ballFastFactor s) (playerShrinkTimer
  s) (aiShrinkTimer s) (serveCountdown s) (serveDirection s) (adaptiveAI s) (powerUpsEnabled
  s) (powerUpSpawnRate s) (matchStartMs s) (matchEndMs s) (powerUpsCollected s)
  (prevPlayerYRef s) (prevAiYRef s) (touchActiveRef s) (useMouseRef s) (mouseYRef s) (keysRef
  s).

Definition set_winScore (v : Z) (s : GameState) : GameState :=
  mkGameState (ball s) (player s) (ai s) (gameStatus s) (winner s) (rallyCount s) (maxRally s)
  (combo s) (lastHitTime s) v (difficulty s) (isPowerHit s) (powerHitTimer s) (mode s)
  (powerUps s) (powerUpSpawnTimer s) (lastHitBy s) (playerPowerUpTimer s) (aiPowerUpTimer s)
  (ballSlowTimer s) (ballSlowFactor s) (ballFastTimer s) (ballFastFactor s) (playerShrinkTimer
  s) (aiShrinkTimer s) (serveCountdown s) (serveDirection s) (adaptiveAI s) (powerUpsEnabled
  s) (powerUpSpawnRate s) (matchStartMs s) (matchEndMs s) (powerUpsCollected s)
  (prevPlayerYRef s) (prevAiYRef s) (touchActiveRef s) (useMouseRef s) (mouseYRef s) (keysRef
  s).

Definition set_difficulty (v : Difficulty) (s : GameState) : GameState :=
  mkGameState (ball s) (player s) (ai s) (gameStatus s) (winner s) (rallyCount s) (maxRally s)
  (combo s) (lastHitTime s) (winScore s) v (isPowerHit s) (powerHitTimer s) (mode s) (powerUps
  s) (powerUpSpawnTimer s) (lastHitBy s) (playerPowerUpTimer s) (aiPowerUpTimer s)
  (ballSlowTimer s) (ballSlowFactor s) (ballFastTimer s) (ballFastFactor s) (playerShrinkTimer
  s) (aiShrinkTimer s) (serveCountdown s) (serveDirection s) (adaptiveAI s) (powerUpsEnabled
  s) (powerUpSpawnRate s) (matchStartMs s) (matchEndMs s) (powerUpsCollected s)
  (prevPlayerYRef s) (prevAiYRef s) (touchActiveRef s) (useMouseRef s) (mouseYRef s) (keysRef
  s).

Definition set_isPowerHit (v : bool) (s : GameState) : GameState :=
  mkGameState (ball s) (player s) (ai s) (gameStatus s) (winner s) (rallyCount s) (maxRally s)
  (combo s) (lastHitTime s) (winScore s) (difficulty s) v (powerHitTimer s) (mode s) (powerUps
  s) (powerUpSpawnTimer s) (lastHitBy s) (playerPowerUpTimer s) (aiPowerUpTimer s)
  (ballSlowTimer s) (ballSlowFactor s) (ballFastTimer s) (ballFastFactor s) (playerShrinkTimer
  s) (aiShrinkTimer s) (serveCountdown s) (serveDirection s) (adaptiveAI s) (powerUpsEnabled
  s) (powerUpSpawnRate s) (matchStartMs s) (matchEndMs s) (powerUpsCollected s)
  (prevPlayerYRef s) (prevAiYRef s) (touchActiveRef s) (useMouseRef s) (mouseYRef s) (keysRef
  s).

Definition set_powerHitTimer (v : R) (s : GameState) : GameState :=
  mkGameState (ball s) (player s) (ai s) (gameStatus s) (winner s) (rallyCount s) (maxRally s)
  (combo s) (lastHitTime s) (winScore s) (difficulty s) (isPowerHit s) v (mode s) (powerUps s)
  (powerUpSpawnTimer s) (lastHitBy s) (playerPowerUpTimer s) (aiPowerUpTimer s) (ballSlowTimer
  s) (ballSlowFactor s) (ballFastTimer s) (ballFastFactor s) (playerShrinkTimer s)
  (aiShrinkTimer s) (serveCountdown s) (serveDirection s) (adaptiveAI s) (powerUpsEnabled s)
  (powerUpSpawnRate s) (matchStartMs s) (matchEndMs s) (powerUpsCollected s) (prevPlayerYRef
  s) (prevAiYRef s) (touchActiveRef s) (useMouseRef s) (mouseYRef s) (keysRef s).

Definition set_mode (v : GameMode) (s : GameState) : GameState :=
  mkGameState (ball s) (player s) (ai s) (gameStatus s) (winner s) (rallyCount s) (maxRally s)
  (combo s) (lastHitTime s) (winScore s) (difficulty s) (isPowerHit s) (powerHitTimer s) v
  (powerUps s) (powerUpSpawnTimer s) (lastHitBy s) (playerPowerUpTimer s) (aiPowerUpTimer s)
  (ballSlowTimer s) (ballSlowFactor s) (ballFastTimer s) (ballFastFactor s) (playerShrinkTimer
  s) (aiShrinkTimer s) (serveCountdown s) (serveDirection s) (adaptiveAI s) (powerUpsEnabled
  s) (powerUpSpawnRate s) (matchStartMs s) (matchEndMs s) (powerUpsCollected s)
  (prevPlayerYRef s) (prevAiYRef s) (touchActiveRef s) (useMouseRef s) (mouseYRef s) (keysRef
  s).

Definition set_powerUps (v : list PowerUp.t) (s : GameState) : GameState :=
  mkGameState (ball s) (player s) (ai s) (gameStatus s) (winner s) (rallyCount s) (maxRally s)
  (combo s) (lastHitTime s) (winScore s) (difficulty s) (isPowerHit s) (powerHitTimer s) (mode
  s) v (powerUpSpawnTimer s) (lastHitBy s) (playerPowerUpTimer s) (aiPowerUpTimer s)
  (ballSlowTimer s) (ballSlowFactor s) (ballFastTimer s) (ballFastFactor s) (playerShrinkTimer
  s) (aiShrinkTimer s) (serveCountdown s) (serveDirection s) (adaptiveAI s) (powerUpsEnabled
  s) (powerUpSpawnRate s) (matchStartMs s) (matchEndMs s) (powerUpsCollected s)
  (prevPlayerYRef s) (prevAiYRef s) (touchActiveRef s) (useMouseRef s) (mouseYRef s) (keysRef
  s).

Definition set_powerUpSpawnTimer (v : R) (s : GameState) : GameState :=
  mkGameState (ball s) (player s) (ai s) (gameStatus s) (winner s) (rallyCount s) (maxRally s)
  (combo s) (lastHitTime s) (winScore s) (difficulty s) (isPowerHit s) (powerHitTimer s) (mode
  s) (powerUps s) v (lastHitBy s) (playerPowerUpTimer s) (aiPowerUpTimer s) (ballSlowTimer s)
  (ballSlowFactor s) (ballFastTimer s) (ballFastFactor s) (playerShrinkTimer s) (aiShrinkTimer
  s) (serveCountdown s) (serveDirection s) (adaptiveAI s) (powerUpsEnabled s)
  (powerUpSpawnRate s) (matchStartMs s) (matchEndMs s) (powerUpsCollected s) (prevPlayerYRef
  s) (prevAiYRef s) (touchActiveRef s) (useMouseRef s) (mouseYRef s) (keysRef s).

Definition set_lastHitBy (v : Side) (s : GameState) : GameState :=
  mkGameState (ball s) (player s) (ai s) (gameStatus s) (winner s) (rallyCount s) (maxRally s)
  (combo s) (lastHitTime s) (winScore s) (difficulty s) (isPowerHit s) (powerHitTimer s) (mode
  s) (powerUps s) (powerUpSpawnTimer s) v (playerPowerUpTimer s) (aiPowerUpTimer s)
  (ballSlowTimer s) (ballSlowFactor s) (ballFastTimer s) (ballFastFactor s) (playerShrinkTimer
  s) (aiShrinkTimer s) (serveCountdown s) (serveDirection s) (adaptiveAI s) (powerUpsEnabled
  s) (powerUpSpawnRate s) (matchStartMs s) (matchEndMs s) (powerUpsCollected s)
  (prevPlayerYRef s) (prevAiYRef s) (touchActiveRef s) (useMouseRef s) (mouseYRef s) (keysRef
  s).

Definition set_playerPowerUpTimer (v : R) (s : GameState) : GameState :=
  mkGameState (ball s) (player s) (ai s) (gameStatus s) (winner s) (rallyCount s) (maxRally s)
  (combo s) (lastHitTime s) (winScore s) (difficulty s) (isPowerHit s) (powerHitTimer s) (mode
  s) (powerUps s) (powerUpSpawnTimer s) (lastHitBy s) v (aiPowerUpTimer s) (ballSlowTimer s)
  (ballSlowFactor s) (ballFastTimer s) (ballFastFactor s) (playerShrinkTimer s) (aiShrinkTimer
  s) (serveCountdown s) (serveDirection s) (adaptiveAI s) (powerUpsEnabled s)
  (powerUpSpawnRate s) (matchStartMs s) (matchEndMs s) (powerUpsCollected s) (prevPlayerYRef
  s) (prevAiYRef s) (touchActiveRef s) (useMouseRef s) (mouseYRef s) (keysRef s).

Definition set_aiPowerUpTimer (v : R) (s : GameState) : GameState :=
  mkGameState (ball s) (player s) (ai s) (gameStatus s) (winner s) (rallyCount s) (maxRally s)
  (combo s) (lastHitTime s) (winScore s) (difficulty s) (isPowerHit s) (powerHitTimer s) (mode
  s) (powerUps s) (powerUpSpawnTimer s) (lastHitBy s) (playerPowerUpTimer s) v (ballSlowTimer
  s) (ballSlowFactor s) (ballFastTimer s) (ballFastFactor s) (playerShrinkTimer s)
  (aiShrinkTimer s) (serveCountdown s) (serveDirection s) (adaptiveAI s) (powerUpsEnabled s)
  (powerUpSpawnRate s) (matchStartMs s) (matchEndMs s) (powerUpsCollected s) (prevPlayerYRef
  s) (prevAiYRef s) (touchActiveRef s) (useMouseRef s) (mouseYRef s) (keysRef s).

Definition set_ballSlowTimer (v : R) (s : GameState) : GameState :=
  mkGameState (ball s) (player s) (ai s) (gameStatus s) (winner s) (rallyCount s) (maxRally s)
  (combo s) (lastHitTime s) (winScore s) (difficulty s) (isPowerHit s) (powerHitTimer s) (mode
  s) (powerUps s) (powerUpSpawnTimer s) (lastHitBy s) (playerPowerUpTimer s) (aiPowerUpTimer
  s) v (ballSlowFactor s) (ballFastTimer s) (ballFastFactor s) (playerShrinkTimer s)
  (aiShrinkTimer s) (serveCountdown s) (serveDirection s) (adaptiveAI s) (powerUpsEnabled s)
  (powerUpSpawnRate s) (matchStartMs s) (matchEndMs s) (powerUpsCollected s) (prevPlayerYRef
  s) (prevAiYRef s) (touchActiveRef s) (useMouseRef s) (mouseYRef s) (keysRef s).

Definition set_ballSlowFactor (v : R) (s : GameState) : GameState :=
  mkGameState (ball s) (player s) (ai s) (gameStatus s) (winner s) (rallyCount s) (maxRally s)
  (combo s) (lastHitTime s) (winScore s) (difficulty s) (isPowerHit s) (powerHitTimer s) (mode
  s) (powerUps s) (powerUpSpawnTimer s) (lastHitBy s) (playerPowerUpTimer s) (aiPowerUpTimer
  s) (ballSlowTimer s) v (ballFastTimer s) (ballFastFactor s) (playerShrinkTimer s)
  (aiShrinkTimer s) (serveCountdown s) (serveDirection s) (adaptiveAI s) (powerUpsEnabled s)
  (powerUpSpawnRate s) (matchStartMs s) (matchEndMs s) (powerUpsCollected s) (prevPlayerYRef
  s) (prevAiYRef s) (touchActiveRef s) (useMouseRef s) (mouseYRef s) (keysRef s).

Definition set_ballFastTimer (v : R) (s : GameState) : GameState :=
  mkGameState (ball s) (player s) (ai s) (gameStatus s) (winner s) (rallyCount s) (maxRally s)
  (combo s) (lastHitTime s) (winScore s) (difficulty s) (isPowerHit s) (powerHitTimer s) (mode
  s) (powerUps s) (powerUpSpawnTimer s) (lastHitBy s) (playerPowerUpTimer s) (aiPowerUpTimer
  s) (ballSlowTimer s) (ballSlowFactor s) v (ballFastFactor s) (playerShrinkTimer s)
  (aiShrinkTimer s) (serveCountdown s) (serveDirection s) (adaptiveAI s) (powerUpsEnabled s)
  (powerUpSpawnRate s) (matchStartMs s) (matchEndMs s) (powerUpsCollected s) (prevPlayerYRef
  s) (prevAiYRef s) (touchActiveRef s) (useMouseRef s) (mouseYRef s) (keysRef s).

Definition set_ballFastFactor (v : R) (s : GameState) : GameState :=
  mkGameState (ball s) (player s) (ai s) (gameStatus s) (winner s) (rallyCount s) (maxRally s)
  (combo s) (lastHitTime s) (winScore s) (difficulty s) (isPowerHit s) (powerHitTimer s) (mode
  s) (powerUps s) (powerUpSpawnTimer s) (lastHitBy s) (playerPowerUpTimer s) (aiPowerUpTimer
  s) (ballSlowTimer s) (ballSlowFactor s) (ballFastTimer s) v (playerShrinkTimer s)
  (aiShrinkTimer s) (serveCountdown s) (serveDirection s) (adaptiveAI s) (powerUpsEnabled s)
  (powerUpSpawnRate s) (matchStartMs s) (matchEndMs s) (powerUpsCollected s) (prevPlayerYRef
  s) (prevAiYRef s) (touchActiveRef s) (useMouseRef s) (mouseYRef s) (keysRef s).

Definition set_playerShrinkTimer (v : R) (s : GameState) : GameState :=
  mkGameState (ball s) (player s) (ai s) (gameStatus s) (winner s) (rallyCount s) (maxRally s)
  (combo s) (lastHitTime s) (winScore s) (difficulty s) (isPowerHit s) (powerHitTimer s) (mode
  s) (powerUps s) (powerUpSpawnTimer s) (lastHitBy s) (playerPowerUpTimer s) (aiPowerUpTimer
  s) (ballSlowTimer s) (ballSlowFactor s) (ballFastTimer s) (ballFastFactor s) v
  (aiShrinkTimer s) (serveCountdown s) (serveDirection s) (adaptiveAI s) (powerUpsEnabled s)
  (powerUpSpawnRate s) (matchStartMs s) (matchEndMs s) (powerUpsCollected s) (prevPlayerYRef
  s) (prevAiYRef s) (touchActiveRef s) (useMouseRef s) (mouseYRef s) (keysRef s).

Definition set_aiShrinkTimer (v : R) (s : GameState) : GameState :=
  mkGameState (ball s) (player s) (ai s) (gameStatus s) (winner s) (rallyCount s) (maxRally s)
  (combo s) (lastHitTime s) (winScore s) (difficulty s) (isPowerHit s) (powerHitTimer s) (mode
  s) (powerUps s) (powerUpSpawnTimer s) (lastHitBy s) (playerPowerUpTimer s) (aiPowerUpTimer
  s) (ballSlowTimer s) (ballSlowFactor s) (ballFastTimer s) (ballFastFactor s)
  (playerShrinkTimer s) v (serveCountdown s) (serveDirection s) (adaptiveAI s)
  (powerUpsEnabled s) (powerUpSpawnRate s) (matchStartMs s) (matchEndMs s) (powerUpsCollected
  s) (prevPlayerYRef s) (prevAiYRef s) (touchActiveRef s) (useMouseRef s) (mouseYRef s)
  (keysRef s).

Definition set_serveCountdown (v : R) (s : GameState) : GameState :=
  mkGameState (ball s) (player s) (ai s) (gameStatus s) (winner s) (rallyCount s) (maxRally s)
  (combo s) (lastHitTime s) (winScore s) (difficulty s) (isPowerHit s) (powerHitTimer s) (mode
  s) (powerUps s) (powerUpSpawnTimer s) (lastHitBy s) (playerPowerUpTimer s) (aiPowerUpTimer
  s) (ballSlowTimer s) (ballSlowFactor s) (ballFastTimer s) (ballFastFactor s)
  (playerShrinkTimer s) (aiShrinkTimer s) v (serveDirection s) (adaptiveAI s) (powerUpsEnabled
  s) (powerUpSpawnRate s) (matchStartMs s) (matchEndMs s) (powerUpsCollected s)
  (prevPlayerYRef s) (prevAiYRef s) (touchActiveRef s) (useMouseRef s) (mouseYRef s) (keysRef
  s).

Definition set_serveDirection (v : Direction) (s : GameState) : GameState :=
  mkGameState (ball s) (player s) (ai s) (gameStatus s) (winner s) (rallyCount s) (maxRally s)
  (combo s) (lastHitTime s) (winScore s) (difficulty s) (isPowerHit s) (powerHitTimer s) (mode
  s) (powerUps s) (powerUpSpawnTimer s) (lastHitBy s) (playerPowerUpTimer s) (aiPowerUpTimer
  s) (ballSlowTimer s) (ballSlowFactor s) (ballFastTimer s) (ballFastFactor s)
  (playerShrinkTimer s) (aiShrinkTimer s) (serveCountdown s) v (adaptiveAI s) (powerUpsEnabled
  s) (powerUpSpawnRate s) (matchStartMs s) (matchEndMs s) (powerUpsCollected s)
  (prevPlayerYRef s) (prevAiYRef s) (touchActiveRef s) (useMouseRef s) (mouseYRef s) (keysRef
  s).

Definition set_adaptiveAI (v : bool) (s : GameState) : GameState :=
  mkGameState (ball s) (player s) (ai s) (gameStatus s) (winner s) (rallyCount s) (maxRally s)
  (combo s) (lastHitTime s) (winScore s) (difficulty s) (isPowerHit s) (powerHitTimer s) (mode
  s) (powerUps s) (powerUpSpawnTimer s) (lastHitBy s) (playerPowerUpTimer s) (aiPowerUpTimer
  s) (ballSlowTimer s) (ballSlowFactor s) (ballFastTimer s) (ballFastFactor s)
  (playerShrinkTimer s) (aiShrinkTimer s) (serveCountdown s) (serveDirection s) v
  (powerUpsEnabled s) (powerUpSpawnRate s) (matchStartMs s) (matchEndMs s) (powerUpsCollected
  s) (prevPlayerYRef s) (prevAiYRef s) (touchActiveRef s) (useMouseRef s) (mouseYRef s)
  (keysRef s).

Definition set_powerUpsEnabled (v : bool) (s : GameState) : GameState :=
  mkGameState (ball s) (player s) (ai s) (gameStatus s) (winner s) (rallyCount s) (maxRally s)
  (combo s) (lastHitTime s) (winScore s) (difficulty s) (isPowerHit s) (powerHitTimer s) (mode
  s) (powerUps s) (powerUpSpawnTimer s) (lastHitBy s) (playerPowerUpTimer s) (aiPowerUpTimer
  s) (ballSlowTimer s) (ballSlowFactor s) (ballFastTimer s) (ballFastFactor s)
  (playerShrinkTimer s) (aiShrinkTimer s) (serveCountdown s) (serveDirection s) (adaptiveAI s)
  v (powerUpSpawnRate s) (matchStartMs s) (matchEndMs s) (powerUpsCollected s) (prevPlayerYRef
  s) (prevAiYRef s) (touchActiveRef s) (useMouseRef s) (mouseYRef s) (keysRef s).

Definition set_powerUpSpawnRate (v : SpawnRate) (s : GameState) : GameState :=
  mkGameState (ball s) (player s) (ai s) (gameStatus s) (winner s) (rallyCount s) (maxRally s)
  (combo s) (lastHitTime s) (winScore s) (difficulty s) (isPowerHit s) (powerHitTimer s) (mode
  s) (powerUps s) (powerUpSpawnTimer s) (lastHitBy s) (playerPowerUpTimer s) (aiPowerUpTimer
  s) (ballSlowTimer s) (ballSlowFactor s) (ballFastTimer s) (ballFastFactor s)
  (playerShrinkTimer s) (aiShrinkTimer s) (serveCountdown s) (serveDirection s) (adaptiveAI s)
  (powerUpsEnabled s) v (matchStartMs s) (matchEndMs s) (powerUpsCollected s) (prevPlayerYRef
  s) (prevAiYRef s) (touchActiveRef s) (useMouseRef s) (mouseYRef s) (keysRef s).

Definition set_matchStartMs (v : Z) (s : GameState) : GameState :=
  mkGameState (ball s) (player s) (ai s) (gameStatus s) (winner s) (rallyCount s) (maxRally s)
  (combo s) (lastHitTime s) (winScore s) (difficulty s) (isPowerHit s) (powerHitTimer s) (mode
  s) (powerUps s) (powerUpSpawnTimer s) (lastHitBy s) (playerPowerUpTimer s) (aiPowerUpTimer
  s) (ballSlowTimer s) (ballSlowFactor s) (ballFastTimer s) (ballFastFactor s)
  (playerShrinkTimer s) (aiShrinkTimer s) (serveCountdown s) (serveDirection s) (adaptiveAI s)
  (powerUpsEnabled s) (powerUpSpawnRate s) v (matchEndMs s) (powerUpsCollected s)
  (prevPlayerYRef s) (prevAiYRef s) (touchActiveRef s) (useMouseRef s) (mouseYRef s) (keysRef
  s).

Definition set_matchEndMs (v : Z) (s : GameState) : GameState :=
  mkGameState (ball s) (player s) (ai s) (gameStatus s) (winner s) (rallyCount s) (maxRally s)
  (combo s) (lastHitTime s) (winScore s) (difficulty s) (isPowerHit s) (powerHitTimer s) (mode
  s) (powerUps s) (powerUpSpawnTimer s) (lastHitBy s) (playerPowerUpTimer s) (aiPowerUpTimer
  s) (ballSlowTimer s) (ballSlowFactor s) (ballFastTimer s) (ballFastFactor s)
  (playerShrinkTimer s) (aiShrinkTimer s) (serveCountdown s) (serveDirection s) (adaptiveAI s)
  (powerUpsEnabled s) (powerUpSpawnRate s) (matchStartMs s) v (powerUpsCollected s)
  (prevPlayerYRef s) (prevAiYRef s) (touchActiveRef s) (useMouseRef s) (mouseYRef s) (keysRef
  s).

Definition set_powerUpsCollected (v : Collected.t) (s : GameState) : GameState :=
  mkGameState (ball s) (player s) (ai s) (gameStatus s) (winner s) (rallyCount s) (maxRally s)
  (combo s) (lastHitTime s) (winScore s) (difficulty s) (isPowerHit s) (powerHitTimer s) (mode
  s) (powerUps s) (powerUpSpawnTimer s) (lastHitBy s) (playerPowerUpTimer s) (aiPowerUpTimer
  s) (ballSlowTimer s) (ballSlowFactor s) (ballFastTimer s) (ballFastFactor s)
  (playerShrinkTimer s) (aiShrinkTimer s) (serveCountdown s) (serveDirection s) (adaptiveAI s)
  (powerUpsEnabled s) (powerUpSpawnRate s) (matchStartMs s) (matchEndMs s) v (prevPlayerYRef
  s) (prevAiYRef s) (touchActiveRef s) (useMouseRef s) (mouseYRef s) (keysRef s).

Definition set_prevPlayerYRef (v : R) (s : GameState) : GameState :=
  mkGameState (ball s) (player s) (ai s) (gameStatus s) (winner s) (rallyCount s) (maxRally s)
  (combo s) (lastHitTime s) (winScore s) (difficulty s) (isPowerHit s) (powerHitTimer s) (mode
  s) (powerUps s) (powerUpSpawnTimer s) (lastHitBy s) (playerPowerUpTimer s) (aiPowerUpTimer
  s) (ballSlowTimer s) (ballSlowFactor s) (ballFastTimer s) (ballFastFactor s)
  (playerShrinkTimer s) (aiShrinkTimer s) (serveCountdown s) (serveDirection s) (adaptiveAI s)
  (powerUpsEnabled s) (powerUpSpawnRate s) (matchStartMs s) (matchEndMs s) (powerUpsCollected
  s) v (prevAiYRef s) (touchActiveRef s) (useMouseRef s) (mouseYRef s) (keysRef s).

Definition set_prevAiYRef (v : R) (s : GameState) : GameState :=
  mkGameState (ball s) (player s) (ai s) (gameStatus s) (winner s) (rallyCount s) (maxRally s)
  (combo s) (lastHitTime s) (winScore s) (difficulty s) (isPowerHit s) (powerHitTimer s) (mode
  s) (powerUps s) (powerUpSpawnTimer s) (lastHitBy s) (playerPowerUpTimer s) (aiPowerUpTimer
  s) (ballSlowTimer s) (ballSlowFactor s) (ballFastTimer s) (ballFastFactor s)
  (playerShrinkTimer s) (aiShrinkTimer s) (serveCountdown s) (serveDirection s) (adaptiveAI s)
  (powerUpsEnabled s) (powerUpSpawnRate s) (matchStartMs s) (matchEndMs s) (powerUpsCollected
  s) (prevPlayerYRef s) v (touchActiveRef s) (useMouseRef s) (mouseYRef s) (keysRef s).

Definition set_touchActiveRef (v : bool) (s : GameState) : GameState :=
  mkGameState (ball s) (player s) (ai s) (gameStatus s) (winner s) (rallyCount s) (maxRally s)
  (combo s) (lastHitTime s) (winScore s) (difficulty s) (isPowerHit s) (powerHitTimer s) (mode
  s) (powerUps s) (powerUpSpawnTimer s) (lastHitBy s) (playerPowerUpTimer s) (aiPowerUpTimer
  s) (ballSlowTimer s) (ballSlowFactor s) (ballFastTimer s) (ballFastFactor s)
  (playerShrinkTimer s) (aiShrinkTimer s) (serveCountdown s) (serveDirection s) (adaptiveAI s)
  (powerUpsEnabled s) (powerUpSpawnRate s) (matchStartMs s) (matchEndMs s) (powerUpsCollected
  s) (prevPlayerYRef s) (prevAiYRef s) v (useMouseRef s) (mouseYRef s) (keysRef s).

Definition set_useMouseRef (v : bool) (s : GameState) : GameState :=
  mkGameState (ball s) (player s) (ai s) (gameStatus s) (winner s) (rallyCount s) (maxRally s)
  (combo s) (lastHitTime s) (winScore s) (difficulty s) (isPowerHit s) (powerHitTimer s) (mode
  s) (powerUps s) (powerUpSpawnTimer s) (lastHitBy s) (playerPowerUpTimer s) (aiPowerUpTimer
  s) (ballSlowTimer s) (ballSlowFactor s) (ballFastTimer s) (ballFastFactor s)
  (playerShrinkTimer s) (aiShrinkTimer s) (serveCountdown s) (serveDirection s) (adaptiveAI s)
  (powerUpsEnabled s) (powerUpSpawnRate s) (matchStartMs s) (matchEndMs s) (powerUpsCollected
  s) (prevPlayerYRef s) (prevAiYRef s) (touchActiveRef s) v (mouseYRef s) (keysRef s).

Definition set_mouseYRef (v : R) (s : GameState) : GameState :=
  mkGameState (ball s) (player s) (ai s) (gameStatus s) (winner s) (rallyCount s) (maxRally s)
  (combo s) (lastHitTime s) (winScore s) (difficulty s) (isPowerHit s) (powerHitTimer s) (mode
  s) (powerUps s) (powerUpSpawnTimer s) (lastHitBy s) (playerPowerUpTimer s) (aiPowerUpTimer
  s) (ballSlowTimer s) (ballSlowFactor s) (ballFastTimer s) (ballFastFactor s)
  (playerShrinkTimer s) (aiShrinkTimer s) (serveCountdown s) (serveDirection s) (adaptiveAI s)
  (powerUpsEnabled s) (powerUpSpawnRate s) (matchStartMs s) (matchEndMs s) (powerUpsCollected
  s) (prevPlayerYRef s) (prevAiYRef s) (touchActiveRef s) (useMouseRef s) v (keysRef s).

Definition set_keysRef (v : list string) (s : GameState) : GameState :=
  mkGameState (ball s) (player s) (ai s) (gameStatus s) (winner s) (rallyCount s) (maxRally s)
  (combo s) (lastHitTime s) (winScore s) (difficulty s) (isPowerHit s) (powerHitTimer s) (mode
  s) (powerUps s) (powerUpSpawnTimer s) (lastHitBy s) (playerPowerUpTimer s) (aiPowerUpTimer
  s) (ballSlowTimer s) (ballSlowFactor s) (ballFastTimer s) (ballFastFactor s)
  (playerShrinkTimer s) (aiShrinkTimer s) (serveCountdown s) (serveDirection s) (adaptiveAI s)
  (powerUpsEnabled s) (powerUpSpawnRate s) (matchStartMs s) (matchEndMs s) (powerUpsCollected
  s) (prevPlayerYRef s) (prevAiYRef s) (touchActiveRef s) (useMouseRef s) (mouseYRef s) v.

Definition upd_ball (f : Ball.t -> Ball.t) (s : GameState) : GameState :=
  set_ball (f (ball s)) s.

Definition upd_player (f : Paddle.t -> Paddle.t) (s : GameState) : GameState :=
  set_player (f (player s)) s.

Definition upd_ai (f : Paddle.t -> Paddle.t) (s : GameState) : GameState :=
  set_ai (f (ai s)) s.

(** ** Constants and the difficulty table *)

Definition CANVAS_WIDTH : R := 800.
Definition CANVAS_HEIGHT : R := 500.
Definition PADDLE_WIDTH : R := 14.
Definition PADDLE_HEIGHT : R := 90.
Definition BALL_RADIUS : R := 8.
Definition PADDLE_MARGIN : R := 30.
Definition BALL_INITIAL_SPEED : R := 5.

Record Settings : Type := mkSettings {
  aiSpeed : R;
  aiReaction : R;
  aiError : R;
  ballSpeedMul : R
}.

Definition DIFFICULTY_SETTINGS (d : Difficulty) : Settings :=
  match d with
  | easy => mkSettings 3 0.03 60 0.85
  | medium => mkSettings 4.5 0.06 30 1
  | hard => mkSettings 6 0.1 10 1.15
  | impossible => mkSettings 8 0.18 2 1.3
  end.

(** The fixed logical step, [dt = 1 / 60]. *)
Definition dt : R := 1 / 60.

(** ** Inputs of one call *)

(** What one [update] call reads from outside the state: the wall clock and
    the [Math.random()] draws of the physics, one field per call site. *)
Record Env : Type := mkEnv {
  now : Z;            (* Date.now(), read by the collision handler and by scoring *)
  rndAiError : R;     (* AI aiming error *)
  rndType : R;        (* power-up type draw *)
  rndPx : R;          (* power-up x *)
  rndPy : R;          (* power-up y *)
  rndInterval : R;    (* nextSpawnInterval *)
  rndServeVy : R      (* resetBall's vertical component *)
}.

(** The runtime options [startGame] copies from the hook's React state. *)
Record Options : Type := mkOptions {
  optAdaptiveAI : bool;
  optPowerUpsEnabled : bool;
  optPowerUpSpawnRate : SpawnRate
}.

(** ** The initial value of [stateRef] and of the refs *)

Definition initialState : GameState :=
  {| ball := Ball.mk (CANVAS_WIDTH / 2) (CANVAS_HEIGHT / 2) BALL_INITIAL_SPEED 0
               BALL_INITIAL_SPEED BALL_RADIUS;
     player := Paddle.mk PADDLE_MARGIN (CANVAS_HEIGHT / 2 - PADDLE_HEIGHT / 2)
                 PADDLE_WIDTH PADDLE_HEIGHT 7 0 0;
     ai := Paddle.mk (CANVAS_WIDTH - PADDLE_MARGIN - PADDLE_WIDTH)
             (CANVAS_HEIGHT / 2 - PADDLE_HEIGHT / 2) PADDLE_WIDTH PADDLE_HEIGHT 4.5 0 0;
     gameStatus := menu;
     winner := EmptyString;
     rallyCount := 0;
     maxRally := 0;
     combo := 0;
     lastHitTime := 0;
     winScore := 7;
     difficulty := medium;
     isPowerHit := false;
     powerHitTimer := 0;
     mode := single;
     powerUps := [];
     powerUpSpawnTimer := 5;
     lastHitBy := sidePlayer;
     playerPowerUpTimer := 0;
     aiPowerUpTimer := 0;
     ballSlowTimer := 0;
     ballSlowFactor := 1;
     ballFastTimer := 0;
     ballFastFactor := 1;
     playerShrinkTimer := 0;
     aiShrinkTimer := 0;
     serveCountdown := 0;
     serveDirection := toRight;
     adaptiveAI := false;
     powerUpsEnabled := true;
     powerUpSpawnRate := rateNormal;
     matchStartMs := 0;
     matchEndMs := 0;
     powerUpsCollected := Collected.mk 0 0;
     prevPlayerYRef := CANVAS_HEIGHT / 2 - PADDLE_HEIGHT / 2;
     prevAiYRef := CANVAS_HEIGHT / 2 - PADDLE_HEIGHT / 2;
     touchActiveRef := false;
     useMouseRef := false;
     mouseYRef := CANVAS_HEIGHT / 2;
     keysRef := [] |}.

(** ** State-machine entry points *)

(** [resetBall(direction)]; [rnd] is its [Math.random()] draw. *)
Definition resetBall (direction : R) (rnd : R) (s : GameState) : GameState :=
  let settings := DIFFICULTY_SETTINGS (difficulty s) in
  let speed := BALL_INITIAL_SPEED * ballSpeedMul settings in
  let s := set_ball (Ball.mk (CANVAS_WIDTH / 2) (CANVAS_HEIGHT / 2) (speed * direction)
                       ((rnd - 0.5) * 3) speed BALL_RADIUS) s in
  let s := set_rallyCount 0%Z s in
  let s := set_combo 0%Z s in
  let s := set_isPowerHit false s in
  set_powerHitTimer 0 s.

(** [prepareServe(direction)] *)
Definition prepareServe (direction : Direction) (s : GameState) : GameState :=
  let settings := DIFFICULTY_SETTINGS (difficulty s) in
  let speed := BALL_INITIAL_SPEED * ballSpeedMul settings in
  let s := set_powerUps [] s in
  let s := set_powerUpSpawnTimer 4 s in
  let s := upd_player (Paddle.set_height PADDLE_HEIGHT) s in
  let s := upd_ai (Paddle.set_height PADDLE_HEIGHT) s in
  let s := set_playerPowerUpTimer 0 s in
  let s := set_aiPowerUpTimer 0 s in
  let s := set_playerShrinkTimer 0 s in
  let s := set_aiShrinkTimer 0 s in
  let s := set_ballSlowTimer 0 s in
  let s := set_ballSlowFactor 1 s in
  let s := set_ballFastTimer 0 s in
  let s := set_ballFastFactor 1 s in
  let s := set_rallyCount 0%Z s in
  let s := set_combo 0%Z s in
  let s := set_serveDirection direction s in
  let s := set_serveCountdown 3 s in
  set_ball (Ball.mk (CANVAS_WIDTH / 2) (CANVAS_HEIGHT / 2) 0 0 speed BALL_RADIUS) s.

(** [startGame(diff, winAt, gameMode)]; [opts] are the React-state options it
    copies, [t] is [Date.now()] and [rnd] the draw that picks the first serve
    direction. *)
Definition startGame (diff : Difficulty) (winAt : Z) (gameMode : GameMode)
    (opts : Options) (t : Z) (rnd : R) (s : GameState) : GameState :=
  let settings := DIFFICULTY_SETTINGS diff in
  let s := set_difficulty diff s in
  let s := set_winScore winAt s in
  let s := set_mode gameMode s in
  let s := set_adaptiveAI (optAdaptiveAI opts) s in
  let s := set_powerUpsEnabled (optPowerUpsEnabled opts) s in
  let s := set_powerUpSpawnRate (optPowerUpSpawnRate opts) s in
  let s := set_player (Paddle.mk PADDLE_MARGIN (CANVAS_HEIGHT / 2 - PADDLE_HEIGHT / 2)
                         PADDLE_WIDTH PADDLE_HEIGHT 7 0 0) s in
  let aiSpeed' := match gameMode with multi => 7 | single => aiSpeed settings end in
  let s := set_ai (Paddle.mk (CANVAS_WIDTH - PADDLE_MARGIN - PADDLE_WIDTH)
                     (CANVAS_HEIGHT / 2 - PADDLE_HEIGHT / 2) PADDLE_WIDTH PADDLE_HEIGHT
                     aiSpeed' 0 0) s in
  let s := set_prevPlayerYRef (Paddle.y (player s)) s in
  let s := set_prevAiYRef (Paddle.y (ai s)) s in
  let s := set_touchActiveRef false s in
  let s := set_gameStatus playing s in
  let s := set_winner EmptyString s in
  let s := set_rallyCount 0%Z s in
  let s := set_maxRally 0%Z s in
  let s := set_combo 0%Z s in
  let s := set_lastHitTime 0%Z s in
  let s := set_isPowerHit false s in
  let s := set_powerHitTimer 0 s in
  let s := set_powerUps [] s in
  let s := set_powerUpSpawnTimer 5 s in
  let s := set_lastHitBy sidePlayer s in
  let s := set_playerPowerUpTimer 0 s in
  let s := set_aiPowerUpTimer 0 s in
  let s := set_ballSlowTimer 0 s in
  let s := set_ballSlowFactor 1 s in
  let s := set_ballFastTimer 0 s in
  let s := set_ballFastFactor 1 s in
  let s := set_playerShrinkTimer 0 s in
  let s := set_aiShrinkTimer 0 s in
  let s := set_serveCountdown 0 s in
  let s := set_serveDirection toRight s in
  let s := set_matchStartMs t s in
  let s := set_matchEndMs 0%Z s in
  let s := set_powerUpsCollected (Collected.mk 0 0) s in
  prepareServe (if rnd >? 0.5 then toRight else toLeft) s.

(** [togglePause()] *)
Definition togglePause (s : GameState) : GameState :=
  match gameStatus s with
  | playing => set_gameStatus paused s
  | paused => set_gameStatus playing s
  | _ => s
  end.

(** [returnToMenu()] *)
Definition returnToMenu (s : GameState) : GameState :=
  set_gameStatus menu s.

(** [pauseIfPlaying()], run when the tab loses visibility or focus. *)
Definition pauseIfPlaying (s : GameState) : GameState :=
  match gameStatus s with
  | playing => set_gameStatus paused s
  | _ => s
  end.

(** ** Input handlers and configuration setters *)

Definition keys_has (k : string) (keys : list string) : bool :=
  existsb (String.eqb k) keys.

Definition keys_add (k : string) (keys : list string) : list string :=
  if keys_has k keys then keys else keys ++ [k].

Definition keys_delete (k : string) (keys : list string) : list string :=
  filter (fun k' => negb (String.eqb k k')) keys.

(** [Math.max(0, Math.min(CANVAS_HEIGHT - height, y))] *)
Definition clampPaddleY (height y : R) : R :=
  Rmax 0 (Rmin (CANVAS_HEIGHT - height) y).

(** [handleKeyDown]; [opts], [t], [rnd] are what a rematch hands to
    [startGame]. *)
Definition handleKeyDown (k : string) (opts : Options) (t : Z) (rnd : R)
    (s : GameState) : GameState :=
  let s := set_keysRef (keys_add k (keysRef s)) s in
  let s := set_useMouseRef false s in
  let s :=
    if (String.eqb k " " || String.eqb k "Escape" || String.eqb k "p" || String.eqb k "P")%bool
    then
      if (Status_eqb (gameStatus s) playing || Status_eqb (gameStatus s) paused)%bool
      then togglePause s else s
    else s in
  let s :=
    if ((String.eqb k "r" || String.eqb k "R") && Status_eqb (gameStatus s) gameOver)%bool
    then startGame (difficulty s) (winScore s) (mode s) opts t rnd s
    else s in
  if (String.eqb k "m" || String.eqb k "M")%bool
  then
    if (Status_eqb (gameStatus s) playing || Status_eqb (gameStatus s) paused
        || Status_eqb (gameStatus s) gameOver)%bool
    then returnToMenu s else s
  else s.

(** [handleKeyUp] *)
Definition handleKeyUp (k : string) (s : GameState) : GameState :=
  set_keysRef (keys_delete k (keysRef s)) s.

(** [handleMouseMove]; [my] is the pointer's y in court coordinates. *)
Definition handleMouseMove (my : R) (s : GameState) : GameState :=
  set_useMouseRef true (set_mouseYRef my s).

(** One touch point of [handleTouch] in multi-player mode, already scaled to
    court coordinates. *)
Definition touchPaddle (s : GameState) (touch : R * R) : GameState :=
  let (tx, ty) := touch in
  if tx <? CANVAS_WIDTH / 2
  then
    let newY := ty - Paddle.height (player s) / 2 in
    upd_player (Paddle.set_y (clampPaddleY (Paddle.height (player s)) newY)) s
  else
    let newY := ty - Paddle.height (ai s) / 2 in
    upd_ai (Paddle.set_y (clampPaddleY (Paddle.height (ai s)) newY)) s.

(** [handleTouch] on [touchstart] and [touchmove]. *)
Definition handleTouch (touches : list (R * R)) (s : GameState) : GameState :=
  match mode s with
  | multi => set_touchActiveRef true (fold_left touchPaddle touches s)
  | single =>
      match touches with
      | (_, ty) :: _ => set_useMouseRef true (set_mouseYRef ty s)
      | [] => s
      end
  end.

(** [handleTouchEnd]; [remaining] is [e.touches.length]. *)
Definition handleTouchEnd (remaining : nat) (s : GameState) : GameState :=
  match remaining with
  | O => set_touchActiveRef false s
  | _ => s
  end.

(** The effects that sync the option toggles into the state. *)
Definition syncAdaptiveAI (v : bool) (s : GameState) : GameState :=
  set_adaptiveAI v s.

Definition syncPowerUpsEnabled (v : bool) (s : GameState) : GameState :=
  let s := set_powerUpsEnabled v s in
  if v then s else set_powerUps [] s.

Definition syncPowerUpSpawnRate (v : SpawnRate) (s : GameState) : GameState :=
  set_powerUpSpawnRate v s.

(** ** [update]: one logical tick, phase by phase *)

(** Adaptive AI (single player only). *)
Definition adaptiveAIStep (settings : Settings) (s : GameState) : GameState :=
  match mode s with
  | single =>
      let base := aiSpeed settings in
      if adaptiveAI s then
        let diff := IZR (Paddle.score (player s) - Paddle.score (ai s)) in
        let target := base + diff * 0.45 in
        let min := base * 0.6 in
        let max := base * 2.0 in
        let target := if target <? min then min else target in
        let target := if target >? max then max else target in
        upd_ai (Paddle.set_speed target) s
      else upd_ai (Paddle.set_speed base) s
  | multi => s
  end.

(** The AI's bounce prediction:
    [while (predictedY < 0 || predictedY > CANVAS_HEIGHT) { ... }].
    [None] stands for a loop that has not left after [fuel] rounds.  The
    reflections are exact here; on doubles [2 * CANVAS_HEIGHT - predictedY] is
    absorbed for magnitudes beyond about 1e19, where the source loop does not
    leave. *)
Fixpoint bounceLoop (fuel : nat) (predictedY : R) : option R :=
  if ((predictedY <? 0) || (predictedY >? CANVAS_HEIGHT))%bool then
    match fuel with
    | O => None
    | S fuel' =>
        let predictedY := if predictedY <? 0 then - predictedY else predictedY in
        let predictedY :=
          if predictedY >? CANVAS_HEIGHT then 2 * CANVAS_HEIGHT - predictedY
          else predictedY in
        bounceLoop fuel' predictedY
    end
  else Some predictedY.

(** Rounds that are always enough for the loop to leave in exact arithmetic
    (see [bounceLoop_terminates]). *)
Definition bounceFuel (predictedY : R) : nat :=
  S (Z.to_nat (up (Rabs predictedY / (2 * CANVAS_HEIGHT)))).

Definition bouncePrediction (predictedY : R) : R :=
  match bounceLoop (bounceFuel predictedY) predictedY with
  | Some r => r
  | None => predictedY
  end.

(** Keyboard movement of one paddle: [keyUp] and [keyDown] are the two key
    tests. *)
Definition keyboardMove (keyUp keyDown : bool) (p : Paddle.t) : Paddle.t :=
  let p := Paddle.set_dy 0 p in
  let p :=
    if keyUp then Paddle.set_dy (- Paddle.speed p) (Paddle.set_y (Paddle.y p - Paddle.speed p) p)
    else p in
  if keyDown then Paddle.set_dy (Paddle.speed p) (Paddle.set_y (Paddle.y p + Paddle.speed p) p)
  else p.

Definition clampPaddle (p : Paddle.t) : Paddle.t :=
  Paddle.set_y (clampPaddleY (Paddle.height p) (Paddle.y p)) p.

(** Player and opponent movement based on mode. *)
Definition movePaddles (settings : Settings) (env : Env) (s : GameState) : GameState :=
  let keys := keysRef s in
  match mode s with
  | multi =>
      let s := set_useMouseRef false s in
      if touchActiveRef s then
        let s := upd_player clampPaddle s in
        upd_ai clampPaddle s
      else
        let s := upd_player (keyboardMove (keys_has "w" keys || keys_has "W" keys)
                                          (keys_has "s" keys || keys_has "S" keys)) s in
        let s := upd_ai (keyboardMove (keys_has "ArrowUp" keys)
                                      (keys_has "ArrowDown" keys)) s in
        let s := upd_player clampPaddle s in
        upd_ai clampPaddle s
  | single =>
      let s :=
        if useMouseRef s then
          let targetY := mouseYRef s - Paddle.height (player s) / 2 in
          let diff := targetY - Paddle.y (player s) in
          let s := upd_player (Paddle.set_dy (diff * 0.15)) s in
          upd_player (fun p => Paddle.set_y (Paddle.y p + Paddle.dy p) p) s
        else
          upd_player
            (keyboardMove
               (keys_has "ArrowUp" keys || keys_has "w" keys || keys_has "W" keys)
               (keys_has "ArrowDown" keys || keys_has "s" keys || keys_has "S" keys)) s in
      let s := upd_player clampPaddle s in
      let aiCenter := Paddle.y (ai s) + Paddle.height (ai s) / 2 in
      let aiError' := (rndAiError env - 0.5) * aiError settings in
      let targetY := Ball.y (ball s) + aiError' in
      let targetY :=
        if Ball.vx (ball s) >? 0 then
          let timeToReach := (Paddle.x (ai s) - Ball.x (ball s)) / Ball.vx (ball s) in
          let predictedY := Ball.y (ball s) + Ball.vy (ball s) * timeToReach in
          bouncePrediction predictedY + aiError'
        else targetY in
      let aiDiff := targetY - aiCenter in
      let s := upd_ai (Paddle.set_dy
                 (Math_sign aiDiff
                  * Rmin (Rabs aiDiff * aiReaction settings + 0.5) (Paddle.speed (ai s)))) s in
      let s := upd_ai (fun p => Paddle.set_y (Paddle.y p + Paddle.dy p) p) s in
      upd_ai clampPaddle s
  end.

(** Paddle [dy] from the actual movement between frames. *)
Definition computeDy (s : GameState) : GameState :=
  let s := upd_player (Paddle.set_dy (Paddle.y (player s) - prevPlayerYRef s)) s in
  let s := upd_ai (Paddle.set_dy (Paddle.y (ai s) - prevAiYRef s)) s in
  let s := set_prevPlayerYRef (Paddle.y (player s)) s in
  set_prevAiYRef (Paddle.y (ai s)) s.

(** Power hit timer. *)
Definition powerHitTimerStep (s : GameState) : GameState :=
  if powerHitTimer s >? 0 then
    let s := set_powerHitTimer (powerHitTimer s - 1 / 60) s in
    if powerHitTimer s <=? 0 then set_powerHitTimer 0 (set_isPowerHit false s) else s
  else s.

(** [nextSpawnInterval()] *)
Definition nextSpawnInterval (rate : SpawnRate) (rnd : R) : R :=
  match rate with
  | rateLow => 12 + rnd * 8
  | rateHigh => 4 + rnd * 4
  | rateNormal => 8 + rnd * 6
  end.

Definition maxPowerUps : nat := 3.

(** Spawn power-ups only during active play (not during serve countdown). *)
Definition spawnStep (env : Env) (s : GameState) : GameState :=
  if (powerUpsEnabled s && (serveCountdown s <=? 0))%bool then
    let s := set_powerUpSpawnTimer (powerUpSpawnTimer s - dt) s in
    if powerUpSpawnTimer s <=? 0 then
      let r := rndType env in
      let type :=
        if r <? 0.3 then enlarge
        else if r <? 0.55 then slow
        else if r <? 0.8 then fast
        else shrink in
      let px := 90 + rndPx env * (CANVAS_WIDTH - 180) in
      let py := 55 + rndPy env * (CANVAS_HEIGHT - 110) in
      let s :=
        if (maxPowerUps <=? length (powerUps s))%nat then set_powerUps (tl (powerUps s)) s
        else s in
      let ttl := 10 in
      let s := set_powerUps (powerUps s ++ [PowerUp.mk px py 12 type ttl ttl]) s in
      set_powerUpSpawnTimer (nextSpawnInterval (powerUpSpawnRate s) (rndInterval env)) s
    else s
  else s.

(** Decrease TTL for existing power-ups and remove expired ones. *)
Definition ttlStep (s : GameState) : GameState :=
  match powerUps s with
  | [] => s
  | _ =>
      let aged := map (fun pu => PowerUp.set_ttl (PowerUp.ttl pu - dt) pu) (powerUps s) in
      set_powerUps (filter (fun pu => PowerUp.ttl pu >? 0) aged) s
  end.

(** Enlarge timers. *)
Definition enlargeTimersStep (s : GameState) : GameState :=
  let s :=
    if playerPowerUpTimer s >? 0 then
      let s := set_playerPowerUpTimer (playerPowerUpTimer s - dt) s in
      if playerPowerUpTimer s <=? 0
      then set_playerPowerUpTimer 0 (upd_player (Paddle.set_height PADDLE_HEIGHT) s)
      else s
    else s in
  if aiPowerUpTimer s >? 0 then
    let s := set_aiPowerUpTimer (aiPowerUpTimer s - dt) s in
    if aiPowerUpTimer s <=? 0
    then set_aiPowerUpTimer 0 (upd_ai (Paddle.set_height PADDLE_HEIGHT) s)
    else s
  else s.

(** Shrink timers. *)
Definition shrinkTimersStep (s : GameState) : GameState :=
  let s :=
    if playerShrinkTimer s >? 0 then
      let s := set_playerShrinkTimer (playerShrinkTimer s - dt) s in
      if playerShrinkTimer s <=? 0
      then set_playerShrinkTimer 0 (upd_player (Paddle.set_height PADDLE_HEIGHT) s)
      else s
    else s in
  if aiShrinkTimer s >? 0 then
    let s := set_aiShrinkTimer (aiShrinkTimer s - dt) s in
    if aiShrinkTimer s <=? 0
    then set_aiShrinkTimer 0 (upd_ai (Paddle.set_height PADDLE_HEIGHT) s)
    else s
  else s.

(** Slow ball timer. *)
Definition slowTimerStep (s : GameState) : GameState :=
  if ballSlowTimer s >? 0 then
    let s := set_ballSlowTimer (ballSlowTimer s - dt) s in
    if ballSlowTimer s <=? 0 then
      let s :=
        if negb (ballSlowFactor s =? 1) then
          let s := upd_ball (fun b => Ball.set_vx (Ball.vx b / ballSlowFactor s) b) s in
          let s := upd_ball (fun b => Ball.set_vy (Ball.vy b / ballSlowFactor s) b) s in
          set_ballSlowFactor 1 s
        else s in
      set_ballSlowTimer 0 s
    else s
  else s.

(** Fast ball timer. *)
Definition fastTimerStep (s : GameState) : GameState :=
  if ballFastTimer s >? 0 then
    let s := set_ballFastTimer (ballFastTimer s - dt) s in
    if ballFastTimer s <=? 0 then
      let s :=
        if negb (ballFastFactor s =? 1) then
          let s := upd_ball (fun b => Ball.set_vx (Ball.vx b / ballFastFactor s) b) s in
          let s := upd_ball (fun b => Ball.set_vy (Ball.vy b / ballFastFactor s) b) s in
          set_ballFastFactor 1 s
        else s in
      set_ballFastTimer 0 s
    else s
  else s.

(** Power-ups: spawn, TTL, and active effect timers. *)
Definition powerUpStep (env : Env) (s : GameState) : GameState :=
  fastTimerStep (slowTimerStep (shrinkTimersStep (enlargeTimersStep (ttlStep (spawnStep env s))))).

(** Serve countdown: the ball stays put until the countdown completes, then
    [resetBall] launches it in the stored direction. *)
Definition serveStep (env : Env) (s : GameState) : GameState :=
  let s := set_serveCountdown (serveCountdown s - dt) s in
  if serveCountdown s <=? 0 then
    let s := set_serveCountdown 0 s in
    resetBall (dirSign (serveDirection s)) (rndServeVy env) s
  else s.

(** Ball movement and top/bottom wall collision. *)
Definition ballStep (s : GameState) : GameState :=
  let s := upd_ball (fun b => Ball.set_x (Ball.x b + Ball.vx b) b) s in
  let s := upd_ball (fun b => Ball.set_y (Ball.y b + Ball.vy b) b) s in
  let s :=
    if Ball.y (ball s) - Ball.radius (ball s) <=? 0 then
      let s := upd_ball (fun b => Ball.set_y (Ball.radius b) b) s in
      upd_ball (fun b => Ball.set_vy (Rabs (Ball.vy b)) b) s
    else s in
  if Ball.y (ball s) + Ball.radius (ball s) >=? CANVAS_HEIGHT then
    let s := upd_ball (fun b => Ball.set_y (CANVAS_HEIGHT - Ball.radius b) b) s in
    upd_ball (fun b => Ball.set_vy (- Rabs (Ball.vy b)) b) s
  else s.

(** The overlap test of [checkPaddleCollision]. *)
Definition overlaps (b : Ball.t) (paddle : Paddle.t) : bool :=
  ((Ball.x b - Ball.radius b <? Paddle.x paddle + Paddle.width paddle)
   && (Ball.x b + Ball.radius b >? Paddle.x paddle)
   && (Ball.y b + Ball.radius b >? Paddle.y paddle)
   && (Ball.y b - Ball.radius b <? Paddle.y paddle + Paddle.height paddle))%bool.

(** [checkPaddleCollision(paddle, isPlayer)]; [settings] is the constant
    [update] captured at its start and [t] is the handler's [Date.now()]. *)
Definition checkPaddleCollision (settings : Settings) (t : Z)
    (paddle : Paddle.t) (isPlayer : bool) (s : GameState) : GameState :=
  if overlaps (ball s) paddle then
    let hitPos :=
      (Ball.y (ball s) - (Paddle.y paddle + Paddle.height paddle / 2))
      / (Paddle.height paddle / 2) in
    let angle := hitPos * (PI / 3) in
    let s := upd_ball (fun b =>
               Ball.set_speed (Rmin (Ball.speed b * 1.05) (14 * ballSpeedMul settings)) b) s in
    let speed := Ball.speed (ball s) in
    let paddleSpeed := Rabs (Paddle.dy paddle) in
    let s :=
      if paddleSpeed >? 4 then
        let s := set_isPowerHit true s in
        let s := set_powerHitTimer 0.5 s in
        upd_ball (fun b =>
          Ball.set_speed (Rmin (Ball.speed b * 1.2) (16 * ballSpeedMul settings)) b) s
      else s in
    let velMul := ballSlowFactor s * ballFastFactor s in
    let s := upd_ball (Ball.set_vx
               (cos angle * speed * (if isPlayer then 1 else -1) * velMul)) s in
    let s := upd_ball (Ball.set_vy (sin angle * speed * velMul)) s in
    let s :=
      if isPlayer
      then upd_ball (fun b =>
             Ball.set_x (Paddle.x paddle + Paddle.width paddle + Ball.radius b) b) s
      else upd_ball (fun b => Ball.set_x (Paddle.x paddle - Ball.radius b) b) s in
    let s := set_rallyCount (rallyCount s + 1)%Z s in
    let s := if (rallyCount s >? maxRally s)%Z then set_maxRally (rallyCount s) s else s in
    let s :=
      if ((t - lastHitTime s <? 2000)%Z && isPlayer)%bool then set_combo (combo s + 1)%Z s
      else if isPlayer then set_combo 1%Z s
      else s in
    let s := set_lastHitTime t s in
    set_lastHitBy (if isPlayer then sidePlayer else sideAi) s
  else s.

(** Check paddle collisions: one paddle, chosen by the sign of [vx]. *)
Definition paddleCollisions (settings : Settings) (env : Env) (s : GameState) : GameState :=
  if Ball.vx (ball s) <? 0
  then checkPaddleCollision settings (now env) (player s) true s
  else checkPaddleCollision settings (now env) (ai s) false s.

(** Scoring: the ball has left the court on the left ... *)
Definition scoreLeftExit (t : Z) (s : GameState) : GameState :=
  if Ball.x (ball s) <? -20 then
    let s := upd_ai (fun p => Paddle.set_score (Paddle.score p + 1)%Z p) s in
    if (Paddle.score (ai s) >=? winScore s)%Z then
      let s := set_gameStatus gameOver s in
      let s := set_winner (match mode s with multi => "P2" | single => "AI" end)%string s in
      set_matchEndMs t s
    else prepareServe toLeft s
  else s.

(** ... or on the right. *)
Definition scoreRightExit (t : Z) (s : GameState) : GameState :=
  if Ball.x (ball s) >? CANVAS_WIDTH + 20 then
    let s := upd_player (fun p => Paddle.set_score (Paddle.score p + 1)%Z p) s in
    if (Paddle.score (player s) >=? winScore s)%Z then
      let s := set_gameStatus gameOver s in
      let s := set_winner (match mode s with multi => "P1" | single => "Player" end)%string s in
      set_matchEndMs t s
    else prepareServe toRight s
  else s.

Definition scoring (env : Env) (s : GameState) : GameState :=
  scoreRightExit (now env) (scoreLeftExit (now env) s).

(** The effect of a collected power-up, by type and by which side last hit
    the ball. *)
Definition applyPowerUp (pu : PowerUp.t) (s : GameState) : GameState :=
  let beneficiary := lastHitBy s in
  let s :=
    match beneficiary with
    | sidePlayer =>
        set_powerUpsCollected
          (Collected.mk (Collected.player (powerUpsCollected s) + 1)%Z
                        (Collected.ai (powerUpsCollected s))) s
    | sideAi =>
        set_powerUpsCollected
          (Collected.mk (Collected.player (powerUpsCollected s))
                        (Collected.ai (powerUpsCollected s) + 1)%Z) s
    end in
  match PowerUp.type pu with
  | enlarge =>
      match beneficiary with
      | sidePlayer =>
          let s := upd_player
                     (Paddle.set_height (Rmin (PADDLE_HEIGHT * 1.6) (CANVAS_HEIGHT - 20))) s in
          let s := set_playerPowerUpTimer 6 s in
          set_playerShrinkTimer 0 s
      | sideAi =>
          let s := upd_ai
                     (Paddle.set_height (Rmin (PADDLE_HEIGHT * 1.6) (CANVAS_HEIGHT - 20))) s in
          let s := set_aiPowerUpTimer 6 s in
          set_aiShrinkTimer 0 s
      end
  | shrink =>
      match beneficiary with
      | sidePlayer =>
          let s := upd_ai (Paddle.set_height (Rmax (PADDLE_HEIGHT * 0.6) 22)) s in
          let s := set_aiShrinkTimer 6 s in
          set_aiPowerUpTimer 0 s
      | sideAi =>
          let s := upd_player (Paddle.set_height (Rmax (PADDLE_HEIGHT * 0.6) 22)) s in
          let s := set_playerShrinkTimer 6 s in
          set_playerPowerUpTimer 0 s
      end
  | slow =>
      let factor := 0.6 in
      if ballSlowFactor s =? 1 then
        let s := upd_ball (fun b => Ball.set_vx (Ball.vx b * factor) b) s in
        let s := upd_ball (fun b => Ball.set_vy (Ball.vy b * factor) b) s in
        let s := set_ballSlowFactor factor s in
        set_ballSlowTimer 6 s
      else set_ballSlowTimer 6 s
  | fast =>
      let factor := 1.6 in
      if ballFastFactor s =? 1 then
        let s := upd_ball (fun b => Ball.set_vx (Ball.vx b * factor) b) s in
        let s := upd_ball (fun b => Ball.set_vy (Ball.vy b * factor) b) s in
        let s := set_ballFastFactor factor s in
        set_ballFastTimer 6 s
      else set_ballFastTimer 6 s
  end.

(** The pickup test of the [filter] callback. *)
Definition collected (b : Ball.t) (pu : PowerUp.t) : bool :=
  let dx := Ball.x b - PowerUp.x pu in
  let dy := Ball.y b - PowerUp.y pu in
  let distSq := dx * dx + dy * dy in
  let rad := Ball.radius b + PowerUp.radius pu in
  distSq <=? rad * rad.

(** [state.powerUps.filter(pu => ...)]: the callback runs over the array in
    order and mutates the state as it goes; the result is the kept elements
    and the state after the last callback. *)
Fixpoint pickupFilter (pus : list PowerUp.t) (s : GameState) : list PowerUp.t * GameState :=
  match pus with
  | [] => ([], s)
  | pu :: rest =>
      if collected (ball s) pu then pickupFilter rest (applyPowerUp pu s)
      else let (kept, s') := pickupFilter rest s in (pu :: kept, s')
  end.

(** Collision detection with power-ups. *)
Definition pickupStep (s : GameState) : GameState :=
  let (kept, s') := pickupFilter (powerUps s) s in
  set_powerUps kept s'.

(** The part of a tick that runs whether or not a serve is pending. *)
Definition tickPrelude (settings : Settings) (env : Env) (s : GameState) : GameState :=
  powerUpStep env
    (powerHitTimerStep (computeDy (movePaddles settings env (adaptiveAIStep settings s)))).

(** The rally up to the point where the scoring checks start. *)
Definition rallyUntilScoring (settings : Settings) (env : Env) (s : GameState) : GameState :=
  paddleCollisions settings env (ballStep s).

(** [update()] *)
Definition update (env : Env) (s : GameState) : GameState :=
  if negb (Status_eqb (gameStatus s) playing) then s
  else
    let settings := DIFFICULTY_SETTINGS (difficulty s) in
    let s := tickPrelude settings env s in
    if serveCountdown s >? 0 then serveStep env s
    else pickupStep (scoring env (rallyUntilScoring settings env s)).

(** ** Reachable states *)

(** One call of an entry point of the hook: the host loop's [update], the
    state-machine entry points, the input handlers and the option effects. *)
Inductive step : GameState -> GameState -> Prop :=
| step_update env s : step s (update env s)
| step_startGame diff winAt gameMode opts t rnd s :
    step s (startGame diff winAt gameMode opts t rnd s)
| step_togglePause s : step s (togglePause s)
| step_returnToMenu s : step s (returnToMenu s)
| step_pauseIfPlaying s : step s (pauseIfPlaying s)
| step_keyDown k opts t rnd s : step s (handleKeyDown k opts t rnd s)
| step_keyUp k s : step s (handleKeyUp k s)
| step_mouseMove my s : step s (handleMouseMove my s)
| step_touch touches s : step s (handleTouch touches s)
| step_touchEnd remaining s : step s (handleTouchEnd remaining s)
| step_syncAdaptiveAI v s : step s (syncAdaptiveAI v s)
| step_syncPowerUpsEnabled v s : step s (syncPowerUpsEnabled v s)
| step_syncPowerUpSpawnRate v s : step s (syncPowerUpSpawnRate v s).

Inductive reachable : GameState -> Prop :=
| reachable_init : reachable initialState
| reachable_step s s' : reachable s -> step s s' -> reachable s'.

(** ** Vocabulary of the statements *)

(** Clamping [v] to the interval [[lo, hi]]. *)
Definition clamp (lo hi v : R) : R := Rmax lo (Rmin hi v).

(** Adaptive AI on, power-ups on at the normal rate. *)
Definition defaultOptions : Options := mkOptions true true rateNormal.

(** A match right after [startGame]: medium difficulty, first to seven,
    against the AI; the first serve goes right. *)
Definition freshMatch : GameState :=
  startGame medium 7 single defaultOptions 1000 0.75 initialState.

(** An environment whose draws are all one half. *)
Definition calmEnv (t : Z) : Env := mkEnv t 0.5 0.5 0.5 0.5 0.5 0.5.

(** A rally in progress in two-player mode under touch control (the paddles
    stay where the touch handler put them), power-ups off, nothing pending:
    the ball is [b], and the left paddle was at [prevY] one frame earlier. *)
Definition rallyState (b : Ball.t) (prevY : R) : GameState :=
  {| ball := b;
     player := Paddle.mk PADDLE_MARGIN 205 PADDLE_WIDTH PADDLE_HEIGHT 7 0 0;
     ai := Paddle.mk (CANVAS_WIDTH - PADDLE_MARGIN - PADDLE_WIDTH) 205
             PADDLE_WIDTH PADDLE_HEIGHT 7 0 0;
     gameStatus := playing;
     winner := EmptyString;
     rallyCount := 0;
     maxRally := 0;
     combo := 0;
     lastHitTime := 0;
     winScore := 7;
     difficulty := medium;
     isPowerHit := false;
     powerHitTimer := 0;
     mode := multi;
     powerUps := [];
     powerUpSpawnTimer := 4;
     lastHitBy := sidePlayer;
     playerPowerUpTimer := 0;
     aiPowerUpTimer := 0;
     ballSlowTimer := 0;
     ballSlowFactor := 1;
     ballFastTimer := 0;
     ballFastFactor := 1;
     playerShrinkTimer := 0;
     aiShrinkTimer := 0;
     serveCountdown := 0;
     serveDirection := toRight;
     adaptiveAI := false;
     powerUpsEnabled := false;
     powerUpSpawnRate := rateNormal;
     matchStartMs := 0;
     matchEndMs := 0;
     powerUpsCollected := Collected.mk 0 0;
     prevPlayerYRef := prevY;
     prevAiYRef := 205;
     touchActiveRef := true;
     useMouseRef := false;
     mouseYRef := CANVAS_HEIGHT / 2;
     keysRef := [] |}.

(** The ball level with the left paddle's centre and one step away from
    it, flying left at [vel] units per tick, with logical speed [v]. *)
Definition incomingBall (vel v : R) : Ball.t := Ball.mk 50 250 (- vel) 0 v BALL_RADIUS.

(** What [update] hands to the collision handler on such a state: the
    displacement is recorded and the ball has moved one step. *)
Definition atLeftPaddle (vel v prevY : R) : GameState :=
  ballStep (computeDy (rallyState (incomingBall vel v) prevY)).

(** The state after a tick in which the left paddle, having moved 5 units
    since the last frame, meets a ball of speed 5 (velocity [(-5, 0)]) at its
    centre. *)
Definition powerHitTick : GameState :=
  update (calmEnv 5000) (rallyState (incomingBall 5 5) 200).

(** Magnitude of the ball's velocity, [sqrt(vx^2 + vy^2)]. *)
Definition velocityMagnitude (b : Ball.t) : R :=
  sqrt (Ball.vx b * Ball.vx b + Ball.vy b * Ball.vy b).

(** A rally of three hits at medium difficulty, paddles at rest, every hit
    at the paddle's centre.  The flights between the hits are not stepped
    through: [set_ball] puts the ball where its velocity first brings it onto
    the next paddle (67 ticks at 10.5 per tick from x = 52, then 64 ticks at
    11.025 per tick from x = 748), and the clock advances by the flight time
    at 60 ticks per second.  The player hits at 10000 ms, the AI side at
    11117 ms, the player again at 12184 ms. *)
Definition firstPlayerHit : GameState :=
  update (calmEnv 10000) (rallyState (incomingBall 10 10) 205).

Definition aiReturn : GameState :=
  let s := set_ball (Ball.mk 755.5 250 10.5 0 10.5 BALL_RADIUS) firstPlayerHit in
  checkPaddleCollision (DIFFICULTY_SETTINGS medium) 11117 (ai s) false s.

Definition secondPlayerHit : GameState :=
  let s := set_ball (Ball.mk 42.4 250 (-11.025) 0 11.025 BALL_RADIUS) aiReturn in
  checkPaddleCollision (DIFFICULTY_SETTINGS medium) 12184 (player s) true s.

(** A rally with a slow effect (factor 0.6) about to run out and a fast
    effect (factor 1.6) with two seconds left; the ball's velocity is
    [(-5, 2)] scaled by both factors. *)
Definition slowExpiring : GameState :=
  set_ballFastTimer 2
    (set_ballFastFactor 1.6
       (set_ballSlowTimer (1 / 120)
          (set_ballSlowFactor 0.6
             (rallyState (Ball.mk 400 250 (-5 * 0.6 * 1.6) (2 * 0.6 * 1.6) 5 BALL_RADIUS) 205)))).

(** A rally whose ball is about to leave the court on the left. *)
Definition leavingLeft : GameState :=
  rallyState (Ball.mk (-18) 250 (-5) 0 5 BALL_RADIUS) 205.

(** The ball as [prepareServe] places it: centred, at rest. *)
Definition servedBall (d : Difficulty) : Ball.t :=
  Ball.mk (CANVAS_WIDTH / 2) (CANVAS_HEIGHT / 2) 0 0
    (BALL_INITIAL_SPEED * ballSpeedMul (DIFFICULTY_SETTINGS d)) BALL_RADIUS.

(** ** Invariants of the reachable states *)

(** On each paddle the enlarge timer and the shrink timer are not both
    running. *)
Definition TimersExclusive (s : GameState) : Prop :=
  (playerPowerUpTimer s = 0 \/ playerShrinkTimer s = 0)
  /\ (aiPowerUpTimer s = 0 \/ aiShrinkTimer s = 0).

(** The ball's centre is at least one radius away from the top and bottom
    walls. *)
Definition BallInCourt (s : GameState) : Prop :=
  Ball.radius (ball s) = BALL_RADIUS
  /\ Ball.radius (ball s) <= Ball.y (ball s) <= CANVAS_HEIGHT - Ball.radius (ball s).

(** What keeps the ball moving sideways once it is in play: positive speed
    and factors, paddles tall enough that a hit deflects by less than a right
    angle, and a non-zero [vx] whenever no serve is pending. *)
Definition BallMoving (s : GameState) : Prop :=
  Ball.radius (ball s) = BALL_RADIUS
  /\ 0 < Ball.speed (ball s)
  /\ 0 < ballSlowFactor s
  /\ 0 < ballFastFactor s
  /\ 4 * BALL_RADIUS < Paddle.height (player s)
  /\ 4 * BALL_RADIUS < Paddle.height (ai s)
  /\ (serveCountdown s <= 0 -> Ball.vx (ball s) <> 0).

(** [freshMatch] after 180 ticks.  In exact arithmetic these are the ticks
    of its three-second serve countdown and the ball has just been launched;
    on doubles the countdown still has about 5.7e-15 left and the launch is
    one tick later (see [afterLaunch]). *)
Definition inRally : GameState := Nat.iter 180 (update (calmEnv 2000)) freshMatch.

(** ** Further invariants of the reachable states *)

(** The constants of the court never change: ball radius, paddle columns and
    widths. *)
Definition CourtGeometry (s : GameState) : Prop :=
  Ball.radius (ball s) = BALL_RADIUS
  /\ Paddle.x (player s) = PADDLE_MARGIN
  /\ Paddle.width (player s) = PADDLE_WIDTH
  /\ Paddle.x (ai s) = CANVAS_WIDTH - PADDLE_MARGIN - PADDLE_WIDTH
  /\ Paddle.width (ai s) = PADDLE_WIDTH.

(** A paddle's height is tied to its two size timers: neutral with both at
    zero, enlarged while the enlarge timer runs, shrunk while the shrink
    timer runs. *)
Definition sizeCoupled (enlargeTimer shrinkTimer height : R) : Prop :=
  (enlargeTimer = 0 /\ shrinkTimer = 0 /\ height = PADDLE_HEIGHT)
  \/ (0 < enlargeTimer <= 6 /\ shrinkTimer = 0 /\ height = PADDLE_HEIGHT * 1.6)
  \/ (enlargeTimer = 0 /\ 0 < shrinkTimer <= 6 /\ height = PADDLE_HEIGHT * 0.6).

Definition PaddleSizes (s : GameState) : Prop :=
  sizeCoupled (playerPowerUpTimer s) (playerShrinkTimer s) (Paddle.height (player s))
  /\ sizeCoupled (aiPowerUpTimer s) (aiShrinkTimer s) (Paddle.height (ai s)).

(** A ball-speed factor and its timer are set and cleared together. *)
Definition factorCoupled (timer factor active : R) : Prop :=
  (timer = 0 /\ factor = 1) \/ (0 < timer <= 6 /\ factor = active).

Definition BallEffects (s : GameState) : Prop :=
  factorCoupled (ballSlowTimer s) (ballSlowFactor s) 0.6
  /\ factorCoupled (ballFastTimer s) (ballFastFactor s) 1.6.

(** The power-hit flag is up exactly while its timer runs. *)
Definition PowerHitFlag (s : GameState) : Prop :=
  (isPowerHit s = false /\ powerHitTimer s = 0)
  \/ (isPowerHit s = true /\ 0 < powerHitTimer s <= 0.5).

(** Combo, rally and longest rally are ordered. *)
Definition RallyCounters (s : GameState) : Prop :=
  (0 <= combo s <= rallyCount s)%Z /\ (rallyCount s <= maxRally s)%Z.

(** Scores are non-negative, and a finished match names a winner whose score
    has reached the threshold. *)
Definition MatchResult (s : GameState) : Prop :=
  (0 <= Paddle.score (player s))%Z
  /\ (0 <= Paddle.score (ai s))%Z
  /\ (gameStatus s = gameOver ->
      ((winner s = "P2"%string \/ winner s = "AI"%string)
       /\ (winScore s <= Paddle.score (ai s))%Z)
      \/ ((winner s = "P1"%string \/ winner s = "Player"%string)
          /\ (winScore s <= Paddle.score (player s))%Z)).

(** While a match is in progress neither side has reached the winning
    score (for a positive winning score). *)
Definition MatchOpen (s : GameState) : Prop :=
  (0 < winScore s)%Z ->
  gameStatus s = playing \/ gameStatus s = paused ->
  (Paddle.score (player s) < winScore s)%Z /\ (Paddle.score (ai s) < winScore s)%Z.

(** ** More states and runs for the statements *)

(** A rally whose ball is about to leave the court on the right. *)
Definition leavingRight : GameState :=
  rallyState (Ball.mk 818 250 5 0 5 BALL_RADIUS) 205.

(** A run of ticks, each with its own clock reading and random draws. *)
Definition ticks (envs : list Env) (s : GameState) : GameState :=
  fold_left (fun s env => update env s) envs s.

(** ** The court during a serve countdown *)

(** While a serve is pending the court is clean: nothing to collect, no
    effect running, both paddles at their normal height, the ball at rest in
    the centre with the difficulty's base speed, and the rally counters at
    zero. *)
Definition CleanCourt (s : GameState) : Prop :=
  powerUps s = []
  /\ playerPowerUpTimer s = 0 /\ aiPowerUpTimer s = 0
  /\ playerShrinkTimer s = 0 /\ aiShrinkTimer s = 0
  /\ ballSlowTimer s = 0 /\ ballSlowFactor s = 1
  /\ ballFastTimer s = 0 /\ ballFastFactor s = 1
  /\ Paddle.height (player s) = PADDLE_HEIGHT /\ Paddle.height (ai s) = PADDLE_HEIGHT
  /\ Ball.x (ball s) = CANVAS_WIDTH / 2 /\ Ball.y (ball s) = CANVAS_HEIGHT / 2
  /\ Ball.vx (ball s) = 0 /\ Ball.vy (ball s) = 0
  /\ Ball.speed (ball s)
     = BALL_INITIAL_SPEED * ballSpeedMul (DIFFICULTY_SETTINGS (difficulty s))
  /\ rallyCount s = 0%Z /\ combo s = 0%Z.

Definition FairServe (s : GameState) : Prop :=
  CourtGeometry s /\ serveCountdown s <= 3 /\ (0 < serveCountdown s -> CleanCourt s).

(** The ball as [resetBall] launches it in direction [dir] at difficulty [d],
    with [rnd] the draw for the vertical component. *)
Definition launchedBall (d : Difficulty) (dir : Direction) (rnd : R) : Ball.t :=
  Ball.mk (CANVAS_WIDTH / 2) (CANVAS_HEIGHT / 2)
    (BALL_INITIAL_SPEED * ballSpeedMul (DIFFICULTY_SETTINGS d) * dirSign dir)
    ((rnd - 0.5) * 3)
    (BALL_INITIAL_SPEED * ballSpeedMul (DIFFICULTY_SETTINGS d)) BALL_RADIUS.

(** [freshMatch] with the last tick of its countdown left. *)
Definition lastServeTick : GameState := set_serveCountdown dt freshMatch.

(** [freshMatch] after 181 ticks: the serve countdown has run out and the
    ball is in play.  In exact arithmetic the countdown reaches 0 on the 180th
    tick and the 181st is the first tick of the rally; on doubles 180
    subtractions of [1 / 60] from 3 leave a small positive remainder and the
    181st tick is the one that launches the ball.  Either way the state is
    past the launch. *)
Definition afterLaunch : GameState := update (calmEnv 2000) inRally.

(** ** Paddles between the walls, and the ball's horizontal speed *)

(** Both paddles have one of the three heights, so between the shrunk and
    the enlarged one. *)
Definition HeightsBounded (s : GameState) : Prop :=
  PADDLE_HEIGHT * 0.6 <= Paddle.height (player s) <= PADDLE_HEIGHT * 1.6
  /\ PADDLE_HEIGHT * 0.6 <= Paddle.height (ai s) <= PADDLE_HEIGHT * 1.6.

(** The top edge of each paddle is inside the court and leaves room for at
    least the shrunk paddle below it. *)
Definition PaddlesInCourt (s : GameState) : Prop :=
  0 <= Paddle.y (player s) <= CANVAS_HEIGHT - PADDLE_HEIGHT * 0.6
  /\ 0 <= Paddle.y (ai s) <= CANVAS_HEIGHT - PADDLE_HEIGHT * 0.6.

(** A paddle lies entirely between the top and the bottom wall. *)
Definition insideCourt (p : Paddle.t) : Prop :=
  0 <= Paddle.y p /\ Paddle.y p + Paddle.height p <= CANVAS_HEIGHT.

(** The ball's logical speed is positive and its horizontal velocity is at
    most the normal-hit cap scaled by the active slow and fast factors. *)
Definition SpeedBounded (s : GameState) : Prop :=
  0 < Ball.speed (ball s)
  /\ Rabs (Ball.vx (ball s))
     <= 14 * ballSpeedMul (DIFFICULTY_SETTINGS (difficulty s))
        * (ballSlowFactor s * ballFastFactor s).

(** ** Power-ups on the court and collected *)

(** A power-up on the court as [spawnStep] makes it and [ttlStep] ages it:
    radius 12, a lifetime of 10 seconds, and some of it left. *)
Definition livePowerUp (pu : PowerUp.t) : Prop :=
  0 < PowerUp.ttl pu <= 10 /\ PowerUp.maxTtl pu = 10 /\ PowerUp.radius pu = 12.

Definition PowerUpsBounded (s : GameState) : Prop :=
  (length (powerUps s) <= maxPowerUps)%nat /\ Forall livePowerUp (powerUps s).

(** Power-ups collected so far in the match, by both sides. *)
Definition collectedTotal (s : GameState) : Z :=
  (Collected.player (powerUpsCollected s) + Collected.ai (powerUpsCollected s))%Z.

(** A rally in which the ball, last hit by the right side, lies on a slow
    power-up while a second power-up waits elsewhere. *)
Definition overPowerUp : GameState :=
  set_lastHitBy sideAi
    (set_powerUps [PowerUp.mk 400 250 12 slow 7 10; PowerUp.mk 200 100 12 enlarge 9 10]
       (rallyState (Ball.mk 400 250 5 0 5 BALL_RADIUS) 205)).

(** A ball flying up into the top wall. *)
Definition towardsTopWall : GameState :=
  rallyState (Ball.mk 400 10 5 (-6) 5 BALL_RADIUS) 205.

(** A single-player rally in which the AI paddle, two thirds down the court,
    has to come back up for a ball in the upper half. *)
Definition aiChasing : GameState :=
  set_mode single
    (set_touchActiveRef false
       (set_ai (Paddle.mk (CANVAS_WIDTH - PADDLE_MARGIN - PADDLE_WIDTH) 300
                  PADDLE_WIDTH PADDLE_HEIGHT 4.5 0 0)
          (rallyState (Ball.mk 400 100 5 0 5 BALL_RADIUS) 205))).

(** The quiet two-player rally with the ball arriving at the left paddle,
    which was at 200 one frame earlier and is at 205 now. *)
Definition powerHitTickStart : GameState := rallyState (incomingBall 5 5) 200.

(** ** The ball's trail

    The trail is cosmetic state of [stateRef.current] that the physics never
    reads; it is modelled on its own, beside [GameState]. *)

Module Trail.
Record t : Type := mk {
  x : R;
  y : R;
  alpha : R
}.
End Trail.




(** ** Controls *)

(** The net step a pair of keys asks for: down minus up, each worth the
    paddle's speed. *)
Definition keyStep (keyUp keyDown : bool) (speed : R) : R :=
  (if keyDown then speed else 0) - (if keyUp then speed else 0).

(** The two-player rally under keyboard control, with [keys] held. *)
Definition keyboardRally (keys : list string) : GameState :=
  set_keysRef keys
    (set_touchActiveRef false (rallyState (Ball.mk 400 250 5 0 5 BALL_RADIUS) 205)).

(** * Properties *)

(** ** Boolean comparisons reflect the order on [R] *)

Lemma Rltb_spec (a b : R) : reflect (a < b) (a <? b).
Proof. unfold Rltb. destruct (Rlt_dec a b); constructor; assumption. Qed.

Lemma Rleb_spec (a b : R) : reflect (a <= b) (a <=? b).
Proof. unfold Rleb. destruct (Rle_dec a b); constructor; assumption. Qed.

Lemma Rgtb_spec (a b : R) : reflect (a > b) (a >? b).
Proof. unfold Rgtb. destruct (Rltb_spec b a); constructor; lra. Qed.

Lemma Rgeb_spec (a b : R) : reflect (a >= b) (a >=? b).
Proof. unfold Rgeb. destruct (Rleb_spec b a); constructor; lra. Qed.

Lemma Reqb_spec (a b : R) : reflect (a = b) (a =? b).
Proof. unfold Reqb. destruct (Req_dec_T a b); constructor; assumption. Qed.

Lemma Status_eqb_spec (a b : Status) : reflect (a = b) (Status_eqb a b).
Proof. destruct a, b; constructor; congruence. Qed.

Ltac no_if c :=
  lazymatch c with
  | context [if _ then _ else _] => fail
  | _ => idtac
  end.

(** Case analysis on the next comparison of the goal whose arguments are
    free of pending tests. *)
Ltac rcase :=
  match goal with
  | |- context [Rltb ?a ?b] => no_if a; no_if b; destruct (Rltb_spec a b)
  | |- context [Rleb ?a ?b] => no_if a; no_if b; destruct (Rleb_spec a b)
  | |- context [Rgtb ?a ?b] => no_if a; no_if b; destruct (Rgtb_spec a b)
  | |- context [Rgeb ?a ?b] => no_if a; no_if b; destruct (Rgeb_spec a b)
  | |- context [Reqb ?a ?b] => no_if a; no_if b; destruct (Reqb_spec a b)
  end.

Lemma Rmin_cases (a b : R) : (a <= b /\ Rmin a b = a) \/ (b < a /\ Rmin a b = b).
Proof.
  destruct (Rle_dec a b) as [H | H].
  - left. split; [assumption | apply Rmin_left; assumption].
  - right. split; [lra | apply Rmin_right; lra].
Qed.

Lemma Rmax_cases (a b : R) : (a <= b /\ Rmax a b = b) \/ (b < a /\ Rmax a b = a).
Proof.
  destruct (Rle_dec a b) as [H | H].
  - left. split; [assumption | apply Rmax_right; assumption].
  - right. split; [lra | apply Rmax_left; lra].
Qed.

Lemma Rabs_cases (a : R) : (0 <= a /\ Rabs a = a) \/ (a < 0 /\ Rabs a = - a).
Proof.
  destruct (Rle_dec 0 a) as [H | H].
  - left. split; [assumption | apply Rabs_right; lra].
  - right. split; [lra | apply Rabs_left; lra].
Qed.

(** Bring the defining cases of every [Rmin], [Rmax] and [Rabs] of the goal
    into the context, then split on them. *)
Ltac note_minmax :=
  repeat match goal with
  | |- context [Rmin ?a ?b] =>
      lazymatch goal with
      | _ : (a <= b /\ Rmin a b = a) \/ _ |- _ => fail
      | _ => pose proof (Rmin_cases a b)
      end
  | |- context [Rmax ?a ?b] =>
      lazymatch goal with
      | _ : (a <= b /\ Rmax a b = b) \/ _ |- _ => fail
      | _ => pose proof (Rmax_cases a b)
      end
  | |- context [Rabs ?a] =>
      lazymatch goal with
      | _ : (0 <= a /\ Rabs a = a) \/ _ |- _ => fail
      | _ => pose proof (Rabs_cases a)
      end
  end.

Ltac split_cases :=
  repeat match goal with
  | H : _ \/ _ |- _ => destruct H as [H | H]
  | H : _ /\ _ |- _ => destruct H
  end.

Ltac rminmax := note_minmax; split_cases.

(** Decide the comparisons of the goal whose outcome linear arithmetic
    settles from the context; used to run the code on concrete states. *)
Ltac rdecide :=
  repeat match goal with
  | |- context [Rltb ?a ?b] =>
      first [ replace (Rltb a b) with true by (destruct (Rltb_spec a b); [reflexivity | lra])
            | replace (Rltb a b) with false by (destruct (Rltb_spec a b); [lra | reflexivity]) ]
  | |- context [Rleb ?a ?b] =>
      first [ replace (Rleb a b) with true by (destruct (Rleb_spec a b); [reflexivity | lra])
            | replace (Rleb a b) with false by (destruct (Rleb_spec a b); [lra | reflexivity]) ]
  | |- context [Rgtb ?a ?b] =>
      first [ replace (Rgtb a b) with true by (destruct (Rgtb_spec a b); [reflexivity | lra])
            | replace (Rgtb a b) with false by (destruct (Rgtb_spec a b); [lra | reflexivity]) ]
  | |- context [Rgeb ?a ?b] =>
      first [ replace (Rgeb a b) with true by (destruct (Rgeb_spec a b); [reflexivity | lra])
            | replace (Rgeb a b) with false by (destruct (Rgeb_spec a b); [lra | reflexivity]) ]
  | |- context [Reqb ?a ?b] =>
      first [ replace (Reqb a b) with true by (destruct (Reqb_spec a b); [reflexivity | lra])
            | replace (Reqb a b) with false by (destruct (Reqb_spec a b); [lra | reflexivity]) ]
  end.

(** ** A tick outside [playing] *)

Lemma update_not_playing (env : Env) (s : GameState) :
  gameStatus s <> playing -> update env s = s.
Proof.
  intros H. unfold update.
  destruct (Status_eqb_spec (gameStatus s) playing) as [E | _]; [contradiction | reflexivity].
Qed.

(** ** Properties that every phase of a tick preserves *)

(** Split on every test the goal still branches on. *)
(** Simplify projections of updated records; integer operations stay folded. *)
Ltac simp := cbn -[Z.ltb Z.gtb Z.geb Z.leb Z.eqb Z.add Z.sub IZR].
Ltac simp_all := cbn -[Z.ltb Z.gtb Z.geb Z.leb Z.eqb Z.add Z.sub IZR] in *.

Ltac break_ifs :=
  repeat (match goal with
          | |- context [if ?c then _ else _] => no_if c; destruct c eqn:?
          | |- context [match ?x with _ => _ end] => no_if x; destruct x eqn:?
          end; simp).

Lemma pickupFilter_preserves (P : GameState -> Prop) :
  (forall pu s, P s -> P (applyPowerUp pu s)) ->
  forall pus s, P s -> P (snd (pickupFilter pus s)).
Proof.
  intros Happly pus. induction pus as [| pu rest IH]; intros s Hs; cbn.
  - exact Hs.
  - destruct (collected (ball s) pu).
    + apply IH, Happly, Hs.
    + specialize (IH s Hs). destruct (pickupFilter rest s). exact IH.
Qed.

Section TickPreservation.
Variable P : GameState -> Prop.
Variable env : Env.

Hypothesis P_adaptiveAIStep :
  forall d s, P s -> P (adaptiveAIStep (DIFFICULTY_SETTINGS d) s).
Hypothesis P_movePaddles :
  forall d s, P s -> P (movePaddles (DIFFICULTY_SETTINGS d) env s).
Hypothesis P_computeDy : forall s, P s -> P (computeDy s).
Hypothesis P_powerHitTimerStep : forall s, P s -> P (powerHitTimerStep s).
Hypothesis P_spawnStep : forall s, P s -> P (spawnStep env s).
Hypothesis P_ttlStep : forall s, P s -> P (ttlStep s).
Hypothesis P_enlargeTimersStep : forall s, P s -> P (enlargeTimersStep s).
Hypothesis P_shrinkTimersStep : forall s, P s -> P (shrinkTimersStep s).
Hypothesis P_slowTimerStep : forall s, P s -> P (slowTimerStep s).
Hypothesis P_fastTimerStep : forall s, P s -> P (fastTimerStep s).
Hypothesis P_serveStep : forall s, P s -> P (serveStep env s).
Hypothesis P_ballStep : forall s, P s -> P (ballStep s).
Hypothesis P_paddleCollisions :
  forall d s, P s -> P (paddleCollisions (DIFFICULTY_SETTINGS d) env s).
Hypothesis P_scoreLeftExit : forall t s, P s -> P (scoreLeftExit t s).
Hypothesis P_scoreRightExit : forall t s, P s -> P (scoreRightExit t s).
Hypothesis P_applyPowerUp : forall pu s, P s -> P (applyPowerUp pu s).
Hypothesis P_set_powerUps : forall l s, P s -> P (set_powerUps l s).

Lemma powerUpStep_preserves s : P s -> P (powerUpStep env s).
Proof.
  intros Hs. unfold powerUpStep.
  auto 10.
Qed.

Lemma pickupStep_preserves s : P s -> P (pickupStep s).
Proof.
  intros Hs. unfold pickupStep.
  pose proof (pickupFilter_preserves P P_applyPowerUp (powerUps s) s Hs) as H.
  destruct (pickupFilter (powerUps s) s) as [kept s']. apply P_set_powerUps, H.
Qed.

Lemma tickPrelude_preserves d s : P s -> P (tickPrelude (DIFFICULTY_SETTINGS d) env s).
Proof.
  intros Hs. unfold tickPrelude. apply powerUpStep_preserves. auto 10.
Qed.

Lemma rallyUntilScoring_preserves d s :
  P s -> P (rallyUntilScoring (DIFFICULTY_SETTINGS d) env s).
Proof. intros Hs. unfold rallyUntilScoring. auto. Qed.

(** The tick from the paddle movement on: whatever holds once the AI
    speed is set and survives each later phase holds after [update]. *)
Lemma update_playing_preserves s :
  gameStatus s = playing ->
  P (adaptiveAIStep (DIFFICULTY_SETTINGS (difficulty s)) s) ->
  P (update env s).
Proof.
  intros Hplay Hs. unfold update. rewrite Hplay. cbn.
  assert (Hpre : P (tickPrelude (DIFFICULTY_SETTINGS (difficulty s)) env s)).
  { unfold tickPrelude. apply powerUpStep_preserves; auto. }
  destruct (serveCountdown (tickPrelude (DIFFICULTY_SETTINGS (difficulty s)) env s) >? 0).
  - auto.
  - apply pickupStep_preserves. unfold scoring, rallyUntilScoring. auto 10.
Qed.
End TickPreservation.

(** Proves that a basic phase preserves a property of fields it does not
    touch. *)
Ltac frame :=
  intros; simp_all; break_ifs; simp_all; try assumption; try reflexivity;
  try (intuition congruence).

Ltac unfold_phases :=
  unfold movePaddles, keyboardMove, clampPaddle, computeDy, powerHitTimerStep, spawnStep,
    ttlStep, enlargeTimersStep, shrinkTimersStep, slowTimerStep, fastTimerStep, serveStep,
    resetBall, ballStep, paddleCollisions, checkPaddleCollision, scoreLeftExit,
    scoreRightExit, prepareServe, applyPowerUp.

(** ** The AI paddle's speed *)

Lemma update_ai_speed env s :
  gameStatus s = playing ->
  Paddle.speed (ai (update env s))
  = Paddle.speed (ai (adaptiveAIStep (DIFFICULTY_SETTINGS (difficulty s)) s)).
Proof.
  intros Hplay.
  apply (update_playing_preserves
           (fun s' => Paddle.speed (ai s')
                      = Paddle.speed (ai (adaptiveAIStep (DIFFICULTY_SETTINGS (difficulty s)) s))));
    try assumption; try reflexivity; unfold_phases; frame.
Qed.

(** C8.  In single-player mode a playing tick sets the AI paddle's speed from
    the scores the tick starts with: with the adaptive flag on it is
    [base + 0.45 * (playerScore - aiScore)] clamped to
    [[0.6 * base, 2.0 * base]], with the flag off it is [base], where [base]
    is the difficulty table's [aiSpeed]. *)
Theorem update_adaptive_ai_speed (env : Env) (s : GameState) :
  gameStatus s = playing ->
  mode s = single ->
  let base := aiSpeed (DIFFICULTY_SETTINGS (difficulty s)) in
  Paddle.speed (ai (update env s))
  = if adaptiveAI s
    then clamp (0.6 * base) (2.0 * base)
           (base + 0.45 * IZR (Paddle.score (player s) - Paddle.score (ai s)))
    else base.
Proof.
  intros Hplay Hmode base. rewrite update_ai_speed by assumption.
  unfold adaptiveAIStep. rewrite Hmode. fold base.
  assert (Hbase : 0 < base) by (unfold base; destruct (difficulty s); cbn; lra).
  destruct (adaptiveAI s); [| reflexivity].
  cbn. unfold clamp.
  set (d := IZR (Paddle.score (player s) - Paddle.score (ai s))).
  repeat rcase; rminmax; lra.
Qed.

Lemma update_adaptive_ai_speed_witness :
  Paddle.speed (ai (update (calmEnv 1016) freshMatch))
  = clamp (0.6 * 4.5) (2.0 * 4.5) (4.5 + 0.45 * IZR (0 - 0)).
Proof.
  apply (update_adaptive_ai_speed (calmEnv 1016) freshMatch); reflexivity.
Defined.

(** C3.  A tick in any status other than [playing] ([menu], [paused],
    [gameOver]) returns at once: the whole state, and with it the ball
    position, both paddle positions and both scores, is what it was. *)
Theorem update_noop_unless_playing (env : Env) (s : GameState) :
  gameStatus s <> playing ->
  update env s = s
  /\ Ball.x (ball (update env s)) = Ball.x (ball s)
  /\ Ball.y (ball (update env s)) = Ball.y (ball s)
  /\ Paddle.y (player (update env s)) = Paddle.y (player s)
  /\ Paddle.y (ai (update env s)) = Paddle.y (ai s)
  /\ Paddle.score (player (update env s)) = Paddle.score (player s)
  /\ Paddle.score (ai (update env s)) = Paddle.score (ai s).
Proof.
  intros H. rewrite (update_not_playing env s H). repeat split.
Qed.

Lemma update_noop_unless_playing_witness :
  update (calmEnv 0) initialState = initialState
  /\ update (calmEnv 2000) (togglePause freshMatch) = togglePause freshMatch.
Proof.
  split.
  - apply (update_noop_unless_playing (calmEnv 0) initialState). cbn. discriminate.
  - apply (update_noop_unless_playing (calmEnv 2000) (togglePause freshMatch)).
    cbn. discriminate.
Defined.

(** ** Running the code on a concrete state *)

Ltac unfold_consts :=
  unfold CANVAS_WIDTH, CANVAS_HEIGHT, PADDLE_WIDTH, PADDLE_HEIGHT, BALL_RADIUS,
    PADDLE_MARGIN, BALL_INITIAL_SPEED, dt in *.

(** Replace each [Rmin], [Rmax], [Rabs] whose case linear arithmetic decides. *)
Ltac mdecide :=
  repeat match goal with
  | |- context [Rmin ?a ?b] =>
      first [ rewrite (Rmin_left a b) by lra | rewrite (Rmin_right a b) by lra ]
  | |- context [Rmax ?a ?b] =>
      first [ rewrite (Rmax_left a b) by lra | rewrite (Rmax_right a b) by lra ]
  | |- context [Rabs ?a] =>
      first [ rewrite (Rabs_right a) by lra | rewrite (Rabs_left a) by lra ]
  end.

Ltac rcompute := cbn; unfold_consts; mdecide; rdecide; cbn.

(** ** The paddle-collision handler, field by field *)

Lemma checkPaddleCollision_miss st t p isPlayer s :
  overlaps (ball s) p = false -> checkPaddleCollision st t p isPlayer s = s.
Proof. intros H. unfold checkPaddleCollision. rewrite H. reflexivity. Qed.

Lemma checkPaddleCollision_speed st t p isPlayer s :
  overlaps (ball s) p = true ->
  Ball.speed (ball (checkPaddleCollision st t p isPlayer s))
  = let v := Rmin (Ball.speed (ball s) * 1.05) (14 * ballSpeedMul st) in
    if Rabs (Paddle.dy p) >? 4 then Rmin (v * 1.2) (16 * ballSpeedMul st) else v.
Proof.
  intros H. unfold checkPaddleCollision. rewrite H. simp. break_ifs; reflexivity.
Qed.

Lemma checkPaddleCollision_velocity st t p isPlayer s :
  overlaps (ball s) p = true ->
  let angle :=
    (Ball.y (ball s) - (Paddle.y p + Paddle.height p / 2)) / (Paddle.height p / 2) * (PI / 3) in
  let v := Rmin (Ball.speed (ball s) * 1.05) (14 * ballSpeedMul st) in
  let velMul := ballSlowFactor s * ballFastFactor s in
  Ball.vx (ball (checkPaddleCollision st t p isPlayer s))
  = cos angle * v * (if isPlayer then 1 else -1) * velMul
  /\ Ball.vy (ball (checkPaddleCollision st t p isPlayer s)) = sin angle * v * velMul.
Proof.
  intros H. unfold checkPaddleCollision. rewrite H. simp. break_ifs; split; reflexivity.
Qed.

Lemma checkPaddleCollision_factors st t p isPlayer s :
  ballSlowFactor (checkPaddleCollision st t p isPlayer s) = ballSlowFactor s
  /\ ballFastFactor (checkPaddleCollision st t p isPlayer s) = ballFastFactor s.
Proof. unfold checkPaddleCollision. simp. break_ifs; split; reflexivity. Qed.

Lemma checkPaddleCollision_combo st t p isPlayer s :
  overlaps (ball s) p = true ->
  combo (checkPaddleCollision st t p isPlayer s)
  = (if isPlayer then if (t - lastHitTime s <? 2000)%Z then combo s + 1 else 1 else combo s)%Z
  /\ lastHitTime (checkPaddleCollision st t p isPlayer s) = t.
Proof.
  intros H. unfold checkPaddleCollision. rewrite H.
  destruct isPlayer; rewrite ?andb_true_r, ?andb_false_r; simp; break_ifs; split; reflexivity.
Qed.

Lemma checkPaddleCollision_x st t p s :
  overlaps (ball s) p = true ->
  Ball.x (ball (checkPaddleCollision st t p true s))
  = Paddle.x p + Paddle.width p + Ball.radius (ball s)
  /\ Ball.x (ball (checkPaddleCollision st t p false s)) = Paddle.x p - Ball.radius (ball s).
Proof.
  intros H. unfold checkPaddleCollision. rewrite H. simp. break_ifs; split; reflexivity.
Qed.

Lemma checkPaddleCollision_powerUps st t p isPlayer s :
  powerUps (checkPaddleCollision st t p isPlayer s) = powerUps s.
Proof. unfold checkPaddleCollision. simp. break_ifs; reflexivity. Qed.

(** ** Ticks with nothing to score and nothing to collect *)

Lemma scoring_in_court env s :
  -20 <= Ball.x (ball s) <= CANVAS_WIDTH + 20 -> scoring env s = s.
Proof.
  intros [Hlo Hhi]. unfold scoring, scoreLeftExit.
  destruct (Rltb_spec (Ball.x (ball s)) (-20)) as [H | _]; [lra |].
  unfold scoreRightExit.
  destruct (Rgtb_spec (Ball.x (ball s)) (CANVAS_WIDTH + 20)) as [H | _]; [lra | reflexivity].
Qed.

Lemma set_powerUps_same s : set_powerUps (powerUps s) s = s.
Proof. destruct s. reflexivity. Qed.

Lemma pickupStep_no_powerUps s : powerUps s = [] -> pickupStep s = s.
Proof.
  intros H. unfold pickupStep. rewrite H. cbn. rewrite <- H. apply set_powerUps_same.
Qed.

(** A rally tick in which the ball reaches the left paddle: the tick is the
    prelude, the ball movement and the collision handler on the left paddle. *)
Lemma update_left_hit env s :
  let st := DIFFICULTY_SETTINGS (difficulty s) in
  let s1 := ballStep (tickPrelude st env s) in
  gameStatus s = playing ->
  serveCountdown (tickPrelude st env s) <= 0 ->
  Ball.vx (ball s1) < 0 ->
  overlaps (ball s1) (player s1) = true ->
  powerUps s1 = [] ->
  -20 <= Paddle.x (player s1) + Paddle.width (player s1) + Ball.radius (ball s1)
      <= CANVAS_WIDTH + 20 ->
  update env s = checkPaddleCollision st (now env) (player s1) true s1.
Proof.
  intros st s1 Hplay Hserve Hvx Hov Hpu Hx.
  unfold update. rewrite Hplay. cbn. fold st.
  destruct (Rgtb_spec (serveCountdown (tickPrelude st env s)) 0) as [H | _]; [lra |].
  unfold rallyUntilScoring, paddleCollisions. fold s1.
  destruct (Rltb_spec (Ball.vx (ball s1)) 0) as [_ | H]; [| lra].
  rewrite scoring_in_court.
  - apply pickupStep_no_powerUps. rewrite checkPaddleCollision_powerUps. exact Hpu.
  - rewrite (proj1 (checkPaddleCollision_x st (now env) (player s1) s1 Hov)). exact Hx.
Qed.

(** Record projections, setters and list plumbing, but no arithmetic on [R]. *)
Ltac norm_state :=
  cbv beta iota zeta delta
    [Ball.x Ball.y Ball.vx Ball.vy Ball.speed Ball.radius Ball.set_x Ball.set_y Ball.set_vx
     Ball.set_vy Ball.set_speed Ball.set_radius Paddle.x Paddle.y Paddle.width Paddle.height
     Paddle.speed Paddle.score Paddle.dy Paddle.set_y Paddle.set_height Paddle.set_speed
     Paddle.set_score Paddle.set_dy PowerUp.x PowerUp.y PowerUp.radius PowerUp.type PowerUp.ttl
     PowerUp.maxTtl PowerUp.set_ttl Collected.player Collected.ai ball player ai gameStatus
     winner rallyCount maxRally combo lastHitTime winScore difficulty isPowerHit powerHitTimer
     mode powerUps powerUpSpawnTimer lastHitBy playerPowerUpTimer aiPowerUpTimer ballSlowTimer
     ballSlowFactor ballFastTimer ballFastFactor playerShrinkTimer aiShrinkTimer serveCountdown
     serveDirection adaptiveAI powerUpsEnabled powerUpSpawnRate matchStartMs matchEndMs
     powerUpsCollected prevPlayerYRef prevAiYRef touchActiveRef useMouseRef mouseYRef keysRef
     set_ball set_player set_ai set_gameStatus set_winner set_rallyCount set_maxRally set_combo
     set_lastHitTime set_winScore set_difficulty set_isPowerHit set_powerHitTimer set_mode
     set_powerUps set_powerUpSpawnTimer set_lastHitBy set_playerPowerUpTimer set_aiPowerUpTimer
     set_ballSlowTimer set_ballSlowFactor set_ballFastTimer set_ballFastFactor
     set_playerShrinkTimer set_aiShrinkTimer set_serveCountdown set_serveDirection
     set_adaptiveAI set_powerUpsEnabled set_powerUpSpawnRate set_matchStartMs set_matchEndMs
     set_powerUpsCollected set_prevPlayerYRef set_prevAiYRef set_touchActiveRef set_useMouseRef
     set_mouseYRef set_keysRef upd_ball upd_player upd_ai aiSpeed aiReaction aiError
     ballSpeedMul DIFFICULTY_SETTINGS now rndAiError rndType rndPx rndPy rndInterval rndServeVy
     optAdaptiveAI optPowerUpsEnabled optPowerUpSpawnRate negb andb orb Status_eqb fst snd
     length app map filter tl existsb Nat.leb maxPowerUps dirSign keys_has keys_add keys_delete
     String.eqb Ascii.eqb Bool.eqb].

(** Run one phase on a concrete record: normalise, decide, repeat. *)
Ltac settle := repeat (progress (norm_state; unfold_consts; mdecide; rdecide)).

(** The prelude of a tick on the quiet two-player rally states only records
    the paddles' displacement. *)
Lemma tickPrelude_rallyState st env b prevY :
  tickPrelude st env (rallyState b prevY) = computeDy (rallyState b prevY).
Proof.
  unfold tickPrelude, powerUpStep, rallyState.
  unfold adaptiveAIStep; settle.
  unfold movePaddles, clampPaddle, clampPaddleY; settle.
  unfold computeDy; settle.
  unfold powerHitTimerStep; settle.
  unfold spawnStep; settle.
  unfold ttlStep; settle.
  unfold enlargeTimersStep; settle.
  unfold shrinkTimersStep; settle.
  unfold slowTimerStep; settle.
  unfold fastTimerStep; settle.
  reflexivity.
Qed.

Lemma atLeftPaddle_facts vel v prevY :
  0 < vel < 28 ->
  let s1 := atLeftPaddle vel v prevY in
  overlaps (ball s1) (player s1) = true
  /\ ball s1 = Ball.mk (50 + - vel) (250 + 0) (- vel) 0 v 8
  /\ player s1 = Paddle.mk 30 205 14 90 7 0 (205 - prevY)
  /\ powerUps s1 = []
  /\ ai s1 = Paddle.mk (800 - 30 - 14) 205 14 90 7 0 (205 - 205)
  /\ difficulty s1 = medium
  /\ ballSlowFactor s1 = 1 /\ ballFastFactor s1 = 1
  /\ combo s1 = 0%Z /\ lastHitTime s1 = 0%Z /\ rallyCount s1 = 0%Z.
Proof.
  intros Hvel. unfold atLeftPaddle, rallyState, incomingBall.
  unfold computeDy; settle. unfold ballStep; settle.
  unfold overlaps; settle. repeat split.
Qed.

Lemma checkPaddleCollision_paddles st t p isPlayer s :
  player (checkPaddleCollision st t p isPlayer s) = player s
  /\ ai (checkPaddleCollision st t p isPlayer s) = ai s.
Proof. unfold checkPaddleCollision. simp. break_ifs; split; reflexivity. Qed.

Lemma checkPaddleCollision_isPowerHit st t p isPlayer s :
  overlaps (ball s) p = true ->
  Rabs (Paddle.dy p) > 4 ->
  isPowerHit (checkPaddleCollision st t p isPlayer s) = true.
Proof.
  intros H Hdy. unfold checkPaddleCollision. rewrite H.
  destruct (Rgtb_spec (Rabs (Paddle.dy p)) 4) as [_ | Hn]; [| lra].
  simp. break_ifs; reflexivity.
Qed.

(** The velocity the handler assigns has magnitude [|v * velMul|], where [v]
    is the speed after the 1.05 escalation and before any power-hit boost. *)
Lemma velocity_magnitude (angle v side velMul : R) :
  side * side = 1 ->
  sqrt ((cos angle * v * side * velMul) * (cos angle * v * side * velMul)
        + (sin angle * v * velMul) * (sin angle * v * velMul))
  = Rabs (v * velMul).
Proof.
  intros Hside.
  replace ((cos angle * v * side * velMul) * (cos angle * v * side * velMul)
           + (sin angle * v * velMul) * (sin angle * v * velMul))
    with (Rsqr (v * velMul)).
  - apply sqrt_Rsqr_abs.
  - pose proof (sin2_cos2 angle) as Hsc. unfold Rsqr in *.
    transitivity ((v * velMul) * (v * velMul)
                  * (sin angle * sin angle + cos angle * cos angle)).
    + rewrite Hsc. ring.
    + transitivity ((v * velMul) * (v * velMul)
                    * (sin angle * sin angle + cos angle * cos angle * (side * side))).
      * rewrite Hside. ring.
      * ring.
Qed.

(** A tick of the quiet rally with the ball arriving at the left paddle is
    one call of the collision handler. *)
Lemma update_rallyState_hit t vel v prevY :
  0 < vel < 28 ->
  update (calmEnv t) (rallyState (incomingBall vel v) prevY)
  = checkPaddleCollision (DIFFICULTY_SETTINGS medium) t
      (player (atLeftPaddle vel v prevY)) true (atLeftPaddle vel v prevY).
Proof.
  intros Hvel.
  pose proof (atLeftPaddle_facts vel v prevY Hvel) as (Hov & Hball & Hpl & Hpu & _).
  pose proof (update_left_hit (calmEnv t) (rallyState (incomingBall vel v) prevY)) as H.
  cbn zeta in H. rewrite tickPrelude_rallyState in H.
  change (ballStep (computeDy (rallyState (incomingBall vel v) prevY)))
    with (atLeftPaddle vel v prevY) in H.
  apply H; clear H; try assumption; try reflexivity.
  - rewrite Hball. cbn. lra.
  - rewrite Hball, Hpl. cbn. unfold_consts. lra.
Qed.

Lemma ballSpeedMul_pos d : 0 < ballSpeedMul (DIFFICULTY_SETTINGS d).
Proof. destruct d; cbn; lra. Qed.

(** ** Speed escalation on a paddle hit *)

(** C1 (as amended).  On every paddle collision the ball's [speed] becomes
    [min(speed * 1.05, 14 * ballSpeedMul)], and on a power hit (the paddle's
    absolute per-tick displacement exceeds 4) it is then raised to
    [min(speed * 1.2, 16 * ballSpeedMul)].  The result never exceeds
    [16 * ballSpeedMul].  It is at least the speed before the collision when
    that speed lies in [[0, 14 * ballSpeedMul]], and on a power hit when it
    lies in [[0, 16 * ballSpeedMul]]; a hit that is not a power hit brings a
    speed above [14 * ballSpeedMul] down to [14 * ballSpeedMul]. *)
Theorem collision_speed_escalation (t : Z) (p : Paddle.t) (isPlayer : bool) (s : GameState) :
  overlaps (ball s) p = true ->
  let st := DIFFICULTY_SETTINGS (difficulty s) in
  let m := ballSpeedMul st in
  let v := Ball.speed (ball s) in
  let v' := Ball.speed (ball (checkPaddleCollision st t p isPlayer s)) in
  v' = (if Rabs (Paddle.dy p) >? 4
        then Rmin (Rmin (v * 1.05) (14 * m) * 1.2) (16 * m)
        else Rmin (v * 1.05) (14 * m))
  /\ v' <= 16 * m
  /\ (0 <= v <= 14 * m -> v <= v')
  /\ (Rabs (Paddle.dy p) > 4 -> 0 <= v <= 16 * m -> v <= v')
  /\ (Rabs (Paddle.dy p) <= 4 -> 14 * m < v -> v' = 14 * m).
Proof.
  intros Hov st m v v'.
  assert (Hm : 0 < m) by apply ballSpeedMul_pos.
  assert (Hv' : v' = (if Rabs (Paddle.dy p) >? 4
                      then Rmin (Rmin (v * 1.05) (14 * m) * 1.2) (16 * m)
                      else Rmin (v * 1.05) (14 * m))).
  { unfold v'. rewrite checkPaddleCollision_speed by assumption. reflexivity. }
  split; [exact Hv' |].
  rewrite Hv'. clear Hv'.
  destruct (Rgtb_spec (Rabs (Paddle.dy p)) 4) as [Hp | Hp].
  - repeat split; intros; rminmax; lra.
  - repeat split; intros; rminmax; lra.
Qed.

Lemma collision_speed_escalation_witness :
  let s1 := atLeftPaddle 5 5 205 in
  let v' := Ball.speed (ball (checkPaddleCollision (DIFFICULTY_SETTINGS medium) 5000
                                (player s1) true s1)) in
  v' <= 16 * 1 /\ 5 <= v'.
Proof.
  intros s1 v'.
  assert (Hvel : 0 < 5 < 28) by lra.
  pose proof (atLeftPaddle_facts 5 5 205 Hvel)
    as (Hov & Hball & Hpl & Hpu & Hai & Hdiff & _).
  pose proof (collision_speed_escalation 5000 (player s1) true s1 Hov) as H.
  fold s1 in Hball, Hdiff. cbn zeta in H. rewrite Hdiff, Hball in H. cbn in H.
  destruct H as (_ & Hbound & Hmono & _ & _).
  split; [exact Hbound | apply Hmono; lra].
Defined.

(** A power hit on a ball at the 14 cap (medium difficulty) raises [speed] to
    16, while the velocity it assigns has magnitude 14. *)
Lemma power_hit_at_cap_reaches_16 :
  Ball.speed (ball (update (calmEnv 4000) (rallyState (incomingBall 14 14) 200))) = 16
  /\ Ball.vx (ball (update (calmEnv 4000) (rallyState (incomingBall 14 14) 200))) = 14.
Proof.
  assert (Hvel : 0 < 14 < 28) by lra.
  pose proof (atLeftPaddle_facts 14 14 200 Hvel)
    as (Hov & Hball & Hpl & _ & _ & _ & Hslow & Hfast & _).
  rewrite (update_rallyState_hit 4000 14 14 200 Hvel). split.
  - rewrite checkPaddleCollision_speed by assumption.
    rewrite Hball, Hpl. cbn.
    replace (Rabs (205 - 200)) with 5 by (rewrite Rabs_right; lra).
    rdecide. rewrite (Rmin_right (14 * 1.05)) by lra. rewrite Rmin_right by lra. lra.
  - rewrite (proj1 (checkPaddleCollision_velocity _ _ _ _ _ Hov)).
    rewrite Hball, Hpl, Hslow, Hfast. cbn.
    replace ((250 + 0 - (205 + 90 / 2)) / (90 / 2) * (PI / 3)) with 0
      by (replace (250 + 0 - (205 + 90 / 2)) with 0 by lra; unfold Rdiv; ring).
    rewrite cos_0. rewrite (Rmin_right (14 * 1.05)) by lra. lra.
Qed.

(** C1, counterexample to the claim as stated.  A ball in the state a power
    hit at the cap leaves it in (speed field 16, velocity of magnitude 14,
    medium difficulty) meets the left paddle again, this time at rest: the
    tick is a paddle collision, and the speed falls from 16 to 14. *)
Lemma normal_hit_lowers_boosted_speed :
  gameStatus (rallyState (incomingBall 14 16) 205) = playing
  /\ rallyCount (update (calmEnv 5000) (rallyState (incomingBall 14 16) 205))
     = (rallyCount (rallyState (incomingBall 14 16) 205) + 1)%Z
  /\ Ball.speed (ball (rallyState (incomingBall 14 16) 205)) = 16
  /\ Ball.speed (ball (update (calmEnv 5000) (rallyState (incomingBall 14 16) 205))) = 14
  /\ ~ (Ball.speed (ball (rallyState (incomingBall 14 16) 205))
        <= Ball.speed (ball (update (calmEnv 5000) (rallyState (incomingBall 14 16) 205)))).
Proof.
  assert (Hvel : 0 < 14 < 28) by lra.
  pose proof (atLeftPaddle_facts 14 16 205 Hvel)
    as (Hov & Hball & Hpl & Hpu & Hai & Hdiff & _ & _ & _ & _ & Hr).
  assert (Hs' : Ball.speed (ball (update (calmEnv 5000) (rallyState (incomingBall 14 16) 205)))
                = 14).
  { rewrite (update_rallyState_hit 5000 14 16 205 Hvel).
    rewrite checkPaddleCollision_speed by assumption.
    rewrite Hball, Hpl. cbn.
    replace (Rabs (205 - 205)) with 0 by (rewrite Rabs_right; lra).
    rdecide. rewrite Rmin_right by lra. lra. }
  rewrite Hs'. repeat split.
  - rewrite (update_rallyState_hit 5000 14 16 205 Hvel).
    unfold checkPaddleCollision. rewrite Hov. simp. break_ifs; rewrite Hr; reflexivity.
  - cbn. lra.
Qed.

(** ** Velocity against the speed field after a collision *)

(** After any collision the velocity has magnitude [|v * velMul|], where [v]
    is the speed after the 1.05 escalation alone. *)
Lemma collision_velocity_magnitude st t p isPlayer s :
  overlaps (ball s) p = true ->
  velocityMagnitude (ball (checkPaddleCollision st t p isPlayer s))
  = Rabs (Rmin (Ball.speed (ball s) * 1.05) (14 * ballSpeedMul st)
          * (ballSlowFactor s * ballFastFactor s)).
Proof.
  intros Hov. unfold velocityMagnitude.
  destruct (checkPaddleCollision_velocity st t p isPlayer s Hov) as [Hvx Hvy].
  rewrite Hvx, Hvy. apply velocity_magnitude. destruct isPlayer; lra.
Qed.

(** On a hit that is not a power hit the velocity magnitude is the speed
    field times the two factors (all non-negative). *)
Lemma normal_hit_velocity_matches_speed st t p isPlayer s :
  overlaps (ball s) p = true ->
  Rabs (Paddle.dy p) <= 4 ->
  0 <= Ball.speed (ball s) -> 0 <= ballSpeedMul st ->
  0 <= ballSlowFactor s -> 0 <= ballFastFactor s ->
  let s' := checkPaddleCollision st t p isPlayer s in
  velocityMagnitude (ball s') = Ball.speed (ball s') * ballSlowFactor s' * ballFastFactor s'.
Proof.
  intros Hov Hdy Hv Hm Hslow Hfast s'. unfold s'.
  rewrite collision_velocity_magnitude by assumption.
  rewrite checkPaddleCollision_speed by assumption.
  destruct (checkPaddleCollision_factors st t p isPlayer s) as [-> ->].
  cbn zeta. destruct (Rgtb_spec (Rabs (Paddle.dy p)) 4) as [H | _]; [lra |].
  set (v := Rmin (Ball.speed (ball s) * 1.05) (14 * ballSpeedMul st)).
  assert (0 <= v) by (unfold v; rminmax; lra).
  rewrite Rabs_right; [ring |].
  apply Rle_ge. apply Rmult_le_pos; [assumption | apply Rmult_le_pos; assumption].
Qed.

(** C2, the code at the failing input.  The left paddle has moved 5 units
    in the frame (a power hit) and meets a ball of speed 5 at its centre,
    medium difficulty, no slow or fast effect.  The handler raises [speed] to
    5.25 and then to 6.3, but the velocity it assigns is built from the 5.25
    it read before the boost: the magnitude is 5.25, not
    [speed * ballSlowFactor * ballFastFactor = 6.3]. *)
Theorem power_hit_velocity_lags_speed :
  isPowerHit powerHitTick = true
  /\ Ball.speed (ball powerHitTick) = 6.3
  /\ Ball.vx (ball powerHitTick) = 5.25
  /\ Ball.vy (ball powerHitTick) = 0
  /\ ballSlowFactor powerHitTick = 1
  /\ ballFastFactor powerHitTick = 1
  /\ velocityMagnitude (ball powerHitTick) = 5.25
  /\ velocityMagnitude (ball powerHitTick)
     <> Ball.speed (ball powerHitTick) * ballSlowFactor powerHitTick
        * ballFastFactor powerHitTick.
Proof.
  assert (Hvel : 0 < 5 < 28) by lra.
  pose proof (atLeftPaddle_facts 5 5 200 Hvel)
    as (Hov & Hball & Hpl & Hpu & Hai & Hdiff & Hslow & Hfast & _).
  unfold powerHitTick. rewrite (update_rallyState_hit 5000 5 5 200 Hvel).
  set (s1 := atLeftPaddle 5 5 200) in *.
  set (st := DIFFICULTY_SETTINGS medium).
  assert (Hdy : Rabs (Paddle.dy (player s1)) = 5).
  { rewrite Hpl. cbn. rewrite Rabs_right; lra. }
  assert (Hspeed : Ball.speed (ball (checkPaddleCollision st 5000 (player s1) true s1)) = 6.3).
  { rewrite checkPaddleCollision_speed by assumption. rewrite Hdy, Hball. cbn.
    rdecide. rewrite (Rmin_left (5 * 1.05)) by lra. rewrite Rmin_left by lra. lra. }
  destruct (checkPaddleCollision_factors st 5000 (player s1) true s1) as [Hsf Hff].
  rewrite Hslow in Hsf. rewrite Hfast in Hff.
  assert (Hangle : (250 + 0 - (205 + 90 / 2)) / (90 / 2) * (PI / 3) = 0).
  { replace (250 + 0 - (205 + 90 / 2)) with 0 by lra. unfold Rdiv. ring. }
  assert (Hvx : Ball.vx (ball (checkPaddleCollision st 5000 (player s1) true s1)) = 5.25).
  { rewrite (proj1 (checkPaddleCollision_velocity st 5000 (player s1) true s1 Hov)).
    rewrite Hball, Hpl, Hslow, Hfast. cbn. rewrite Hangle, cos_0.
    rewrite (Rmin_left (5 * 1.05)) by lra. lra. }
  assert (Hvy : Ball.vy (ball (checkPaddleCollision st 5000 (player s1) true s1)) = 0).
  { rewrite (proj2 (checkPaddleCollision_velocity st 5000 (player s1) true s1 Hov)).
    rewrite Hball, Hpl, Hslow, Hfast. cbn. rewrite Hangle, sin_0. lra. }
  assert (Hmag : velocityMagnitude (ball (checkPaddleCollision st 5000 (player s1) true s1))
                 = 5.25).
  { rewrite collision_velocity_magnitude by assumption.
    rewrite Hball, Hslow, Hfast. cbn.
    rewrite (Rmin_left (5 * 1.05)) by lra. rewrite Rabs_right; lra. }
  rewrite Hspeed, Hsf, Hff, Hmag, Hvx, Hvy.
  repeat split; try lra.
  apply checkPaddleCollision_isPowerHit; [assumption | lra].
Qed.

(** ** Combo bookkeeping *)

(** C7 (as amended).  In the collision handler the combo counter changes
    only on a left-paddle (player-side) hit: it grows by 1 when the previous
    paddle hit, by either side, was less than 2000 ms before ([lastHitTime],
    which every hit overwrites), and is set to 1 otherwise.  A right-paddle
    hit leaves the counter alone, and a call without overlap changes
    nothing. *)
Theorem collision_combo (st : Settings) (t : Z) (p : Paddle.t) (isPlayer : bool)
    (s : GameState) :
  (overlaps (ball s) p = true ->
   combo (checkPaddleCollision st t p isPlayer s)
   = (if isPlayer
      then if (t - lastHitTime s <? 2000)%Z then (combo s + 1)%Z else 1%Z
      else combo s)
   /\ lastHitTime (checkPaddleCollision st t p isPlayer s) = t)
  /\ (overlaps (ball s) p = false ->
      combo (checkPaddleCollision st t p isPlayer s) = combo s
      /\ lastHitTime (checkPaddleCollision st t p isPlayer s) = lastHitTime s).
Proof.
  split; intros H.
  - apply checkPaddleCollision_combo. exact H.
  - rewrite checkPaddleCollision_miss by exact H. split; reflexivity.
Qed.

Lemma firstPlayerHit_facts :
  combo firstPlayerHit = 1%Z
  /\ lastHitTime firstPlayerHit = 10000%Z
  /\ lastHitBy firstPlayerHit = sidePlayer
  /\ player firstPlayerHit = Paddle.mk 30 205 14 90 7 0 (205 - 205)
  /\ ai firstPlayerHit = Paddle.mk (800 - 30 - 14) 205 14 90 7 0 (205 - 205).
Proof.
  assert (Hvel : 0 < 10 < 28) by lra.
  pose proof (atLeftPaddle_facts 10 10 205 Hvel)
    as (Hov & _ & Hpl & _ & Hai & _ & _ & _ & Hcombo & Hlast & _).
  unfold firstPlayerHit. rewrite (update_rallyState_hit 10000 10 10 205 Hvel).
  set (s1 := atLeftPaddle 10 10 205) in *.
  destruct (checkPaddleCollision_combo (DIFFICULTY_SETTINGS medium) 10000
              (player s1) true s1 Hov) as [Hc Ht].
  destruct (checkPaddleCollision_paddles (DIFFICULTY_SETTINGS medium) 10000
              (player s1) true s1) as [Hp Ha].
  assert (Hby : lastHitBy (checkPaddleCollision (DIFFICULTY_SETTINGS medium) 10000
                             (player s1) true s1) = sidePlayer).
  { unfold checkPaddleCollision. rewrite Hov. simp. break_ifs; reflexivity. }
  rewrite Hby, Hc, Ht, Hp, Ha, Hlast, Hcombo, Hpl, Hai. repeat split.
Qed.

Lemma aiReturn_overlaps :
  overlaps (ball (set_ball (Ball.mk 755.5 250 10.5 0 10.5 BALL_RADIUS) firstPlayerHit))
           (ai (set_ball (Ball.mk 755.5 250 10.5 0 10.5 BALL_RADIUS) firstPlayerHit))
  = true.
Proof.
  destruct firstPlayerHit_facts as (_ & _ & _ & _ & Ha1).
  cbn [ball ai set_ball]. rewrite Ha1. unfold overlaps. rcompute. reflexivity.
Qed.

Lemma aiReturn_facts :
  combo aiReturn = 1%Z
  /\ lastHitTime aiReturn = 11117%Z
  /\ lastHitBy aiReturn = sideAi
  /\ player aiReturn = Paddle.mk 30 205 14 90 7 0 (205 - 205).
Proof.
  destruct firstPlayerHit_facts as (Hc1 & Ht1 & _ & Hp1 & Ha1).
  pose proof aiReturn_overlaps as Hov.
  unfold aiReturn. cbn zeta.
  set (s := set_ball (Ball.mk 755.5 250 10.5 0 10.5 BALL_RADIUS) firstPlayerHit) in *.
  destruct (checkPaddleCollision_combo (DIFFICULTY_SETTINGS medium) 11117 (ai s) false s Hov)
    as [Hc Ht].
  destruct (checkPaddleCollision_paddles (DIFFICULTY_SETTINGS medium) 11117 (ai s) false s)
    as [Hp _].
  assert (Hby : lastHitBy (checkPaddleCollision (DIFFICULTY_SETTINGS medium) 11117
                             (ai s) false s) = sideAi).
  { unfold checkPaddleCollision. rewrite Hov. simp. break_ifs; reflexivity. }
  rewrite Hby, Hc, Ht, Hp. unfold s. cbn [combo player set_ball]. rewrite Hc1, Hp1.
  repeat split.
Qed.

Lemma collision_combo_witness :
  combo aiReturn
  = combo (set_ball (Ball.mk 755.5 250 10.5 0 10.5 BALL_RADIUS) firstPlayerHit).
Proof.
  exact (proj1 (proj1 (collision_combo (DIFFICULTY_SETTINGS medium) 11117
                         (ai (set_ball (Ball.mk 755.5 250 10.5 0 10.5 BALL_RADIUS)
                                firstPlayerHit))
                         false
                         (set_ball (Ball.mk 755.5 250 10.5 0 10.5 BALL_RADIUS)
                            firstPlayerHit))
                       aiReturn_overlaps)).
Defined.

(** C7, counterexample to the claim as stated.  The player hits at 10000 ms,
    the AI side returns at 11117 ms, the player hits again at 12184 ms.  The
    previous player-side hit is 2184 ms old, so the claim has the combo reset
    to 1; the code, which measures from the AI's return 1067 ms earlier,
    raises it from 1 to 2. *)
Lemma combo_grows_after_stale_player_hit :
  combo firstPlayerHit = 1%Z
  /\ lastHitBy firstPlayerHit = sidePlayer
  /\ combo aiReturn = 1%Z
  /\ lastHitBy aiReturn = sideAi
  /\ combo secondPlayerHit = 2%Z
  /\ lastHitBy secondPlayerHit = sidePlayer
  /\ ~ (12184 - 10000 < 2000)%Z.
Proof.
  destruct firstPlayerHit_facts as (Hc1 & Ht1 & Hb1 & Hp1 & Ha1).
  destruct aiReturn_facts as (Hc2 & Ht2 & Hb2 & Hp2).
  unfold secondPlayerHit. cbn zeta.
  set (s := set_ball (Ball.mk 42.4 250 (-11.025) 0 11.025 BALL_RADIUS) aiReturn).
  assert (Hov : overlaps (ball s) (player s) = true).
  { unfold s. cbn [ball player set_ball]. rewrite Hp2. unfold overlaps. rcompute.
    reflexivity. }
  rewrite (proj1 (checkPaddleCollision_combo (DIFFICULTY_SETTINGS medium) 12184
                    (player s) true s Hov)).
  repeat split; try assumption; try lia.
  - unfold s. cbn [combo lastHitTime set_ball]. rewrite Hc2, Ht2. reflexivity.
  - unfold checkPaddleCollision. rewrite Hov. simp. break_ifs; reflexivity.
Qed.

(** ** Expiry of the slow and fast effects *)

Lemma sqrt_scaled (a ux uy : R) :
  sqrt ((ux * a) * (ux * a) + (uy * a) * (uy * a)) = Rabs a * sqrt (ux * ux + uy * uy).
Proof.
  replace ((ux * a) * (ux * a) + (uy * a) * (uy * a))
    with (Rsqr a * (ux * ux + uy * uy)) by (unfold Rsqr; ring).
  rewrite sqrt_mult.
  - rewrite sqrt_Rsqr_abs. reflexivity.
  - apply Rle_0_sqr.
  - nra.
Qed.

(** The two ball-timer steps, on a ball whose velocity is [(ux, uy)] scaled
    by the two recorded factors. *)
Lemma ball_timer_steps s ux uy :
  ballSlowFactor s <> 0 -> ballFastFactor s <> 0 ->
  Ball.vx (ball s) = ux * ballSlowFactor s * ballFastFactor s ->
  Ball.vy (ball s) = uy * ballSlowFactor s * ballFastFactor s ->
  let s' := fastTimerStep (slowTimerStep s) in
  Ball.vx (ball s') = ux * ballSlowFactor s' * ballFastFactor s'
  /\ Ball.vy (ball s') = uy * ballSlowFactor s' * ballFastFactor s'
  /\ (0 < ballSlowTimer s <= dt -> ballSlowFactor s' = 1 /\ ballSlowTimer s' = 0)
  /\ (~ 0 < ballSlowTimer s <= dt -> ballSlowFactor s' = ballSlowFactor s)
  /\ (0 < ballFastTimer s <= dt -> ballFastFactor s' = 1 /\ ballFastTimer s' = 0)
  /\ (~ 0 < ballFastTimer s <= dt -> ballFastFactor s' = ballFastFactor s).
Proof.
  intros Hsf Hff Hvx Hvy. unfold fastTimerStep, slowTimerStep. simp.
  repeat (rcase; simp_all); rewrite ?Hvx, ?Hvy; unfold dt in *;
    repeat split; intros; try lra; try (field; repeat split; assumption);
    try match goal with e : ?f = 1 |- _ => rewrite e; lra end.
Qed.

Lemma powerUpStep_ball_effects env s :
  let s0 := shrinkTimersStep (enlargeTimersStep (ttlStep (spawnStep env s))) in
  ball s0 = ball s
  /\ ballSlowTimer s0 = ballSlowTimer s /\ ballSlowFactor s0 = ballSlowFactor s
  /\ ballFastTimer s0 = ballFastTimer s /\ ballFastFactor s0 = ballFastFactor s.
Proof.
  set (P := fun s' : GameState =>
    ball s' = ball s
    /\ ballSlowTimer s' = ballSlowTimer s /\ ballSlowFactor s' = ballSlowFactor s
    /\ ballFastTimer s' = ballFastTimer s /\ ballFastFactor s' = ballFastFactor s).
  assert (H0 : P s) by (unfold P; repeat split).
  assert (H1 : P (spawnStep env s)) by (revert H0; unfold P, spawnStep; frame).
  assert (H2 : P (ttlStep (spawnStep env s))) by (revert H1; unfold P, ttlStep; frame).
  assert (H3 : P (enlargeTimersStep (ttlStep (spawnStep env s))))
    by (revert H2; unfold P, enlargeTimersStep; frame).
  revert H3. unfold P, shrinkTimersStep. frame.
Qed.

(** C6.  In the tick's power-up phase the ball's velocity stays the
    unscaled velocity [(ux, uy)] times the two recorded factors.  When the
    slow timer reaches zero in this tick its factor is divided out of [vx]
    and [vy] and reset to 1 (timer 0), and the fast factor is untouched unless
    its own timer also reaches zero in this tick; the same holds with slow
    and fast exchanged.  The velocity magnitude is accordingly the unscaled
    magnitude times the factors still recorded. *)
Theorem effect_expiry_divides_factor_out (env : Env) (s : GameState) (ux uy : R) :
  ballSlowFactor s <> 0 -> ballFastFactor s <> 0 ->
  Ball.vx (ball s) = ux * ballSlowFactor s * ballFastFactor s ->
  Ball.vy (ball s) = uy * ballSlowFactor s * ballFastFactor s ->
  let s' := powerUpStep env s in
  Ball.vx (ball s') = ux * ballSlowFactor s' * ballFastFactor s'
  /\ Ball.vy (ball s') = uy * ballSlowFactor s' * ballFastFactor s'
  /\ velocityMagnitude (ball s')
     = Rabs (ballSlowFactor s' * ballFastFactor s') * sqrt (ux * ux + uy * uy)
  /\ (0 < ballSlowTimer s <= dt -> ballSlowFactor s' = 1 /\ ballSlowTimer s' = 0)
  /\ (~ 0 < ballSlowTimer s <= dt -> ballSlowFactor s' = ballSlowFactor s)
  /\ (0 < ballFastTimer s <= dt -> ballFastFactor s' = 1 /\ ballFastTimer s' = 0)
  /\ (~ 0 < ballFastTimer s <= dt -> ballFastFactor s' = ballFastFactor s).
Proof.
  intros Hsf Hff Hvx Hvy s'. unfold s', powerUpStep.
  destruct (powerUpStep_ball_effects env s) as (Hb & Hst & Hsfac & Hft & Hffac).
  cbn zeta in *.
  set (s0 := shrinkTimersStep (enlargeTimersStep (ttlStep (spawnStep env s)))) in *.
  pose proof (ball_timer_steps s0 ux uy) as H. cbn zeta in H.
  rewrite Hb, Hst, Hsfac, Hft, Hffac in H.
  specialize (H Hsf Hff Hvx Hvy).
  destruct H as (H1 & H2 & H3 & H4 & H5 & H6).
  repeat split; try assumption; try (apply H3; assumption); try (apply H5; assumption);
    try (apply H4; assumption); try (apply H6; assumption).
  unfold velocityMagnitude. rewrite H1, H2.
  replace (ux * ballSlowFactor (fastTimerStep (slowTimerStep s0))
           * ballFastFactor (fastTimerStep (slowTimerStep s0)))
    with (ux * (ballSlowFactor (fastTimerStep (slowTimerStep s0))
                * ballFastFactor (fastTimerStep (slowTimerStep s0)))) by ring.
  replace (uy * ballSlowFactor (fastTimerStep (slowTimerStep s0))
           * ballFastFactor (fastTimerStep (slowTimerStep s0)))
    with (uy * (ballSlowFactor (fastTimerStep (slowTimerStep s0))
                * ballFastFactor (fastTimerStep (slowTimerStep s0)))) by ring.
  apply sqrt_scaled.
Qed.

Lemma effect_expiry_divides_factor_out_witness :
  Ball.vx (ball (powerUpStep (calmEnv 0) slowExpiring)) = -5 * 1 * 1.6
  /\ Ball.vy (ball (powerUpStep (calmEnv 0) slowExpiring)) = 2 * 1 * 1.6
  /\ ballSlowFactor (powerUpStep (calmEnv 0) slowExpiring) = 1
  /\ ballFastFactor (powerUpStep (calmEnv 0) slowExpiring) = 1.6.
Proof.
  pose proof (effect_expiry_divides_factor_out (calmEnv 0) slowExpiring (-5) 2) as H.
  cbn zeta in H.
  assert (Hsf : ballSlowFactor slowExpiring <> 0) by (cbn; lra).
  assert (Hff : ballFastFactor slowExpiring <> 0) by (cbn; lra).
  assert (Hvx : Ball.vx (ball slowExpiring)
                = -5 * ballSlowFactor slowExpiring * ballFastFactor slowExpiring)
    by (cbn; lra).
  assert (Hvy : Ball.vy (ball slowExpiring)
                = 2 * ballSlowFactor slowExpiring * ballFastFactor slowExpiring)
    by (cbn; lra).
  destruct (H Hsf Hff Hvx Hvy) as (H1 & H2 & _ & H4 & _ & _ & H7).
  assert (Hslow : ballSlowFactor (powerUpStep (calmEnv 0) slowExpiring) = 1).
  { apply H4. cbn. unfold dt. lra. }
  assert (Hfast : ballFastFactor (powerUpStep (calmEnv 0) slowExpiring) = 1.6).
  { rewrite H7; [reflexivity |]. cbn. unfold dt. lra. }
  rewrite H1, H2, Hslow, Hfast. repeat split.
Defined.

(** ** Scoring on the left edge *)

(** Scores, threshold, mode, difficulty and status as the tick found them. *)
Lemma before_scoring_frame env s :
  let st := DIFFICULTY_SETTINGS (difficulty s) in
  let s2 := rallyUntilScoring st env (tickPrelude st env s) in
  Paddle.score (ai s2) = Paddle.score (ai s)
  /\ Paddle.score (player s2) = Paddle.score (player s)
  /\ winScore s2 = winScore s /\ mode s2 = mode s
  /\ difficulty s2 = difficulty s /\ gameStatus s2 = gameStatus s.
Proof.
  intros st s2.
  set (P := fun s' : GameState =>
    Paddle.score (ai s') = Paddle.score (ai s)
    /\ Paddle.score (player s') = Paddle.score (player s)
    /\ winScore s' = winScore s /\ mode s' = mode s
    /\ difficulty s' = difficulty s /\ gameStatus s' = gameStatus s).
  change (P s2). unfold s2.
  apply rallyUntilScoring_preserves.
  3: apply tickPrelude_preserves.
  all: try (unfold P; repeat split; fail).
  all: unfold P; unfold_phases; unfold adaptiveAIStep; frame.
Qed.

Lemma pickupStep_frame s :
  Paddle.score (ai (pickupStep s)) = Paddle.score (ai s)
  /\ Paddle.score (player (pickupStep s)) = Paddle.score (player s)
  /\ gameStatus (pickupStep s) = gameStatus s
  /\ winner (pickupStep s) = winner s.
Proof.
  set (P := fun s' : GameState =>
    Paddle.score (ai s') = Paddle.score (ai s)
    /\ Paddle.score (player s') = Paddle.score (player s)
    /\ gameStatus s' = gameStatus s /\ winner s' = winner s).
  change (P (pickupStep s)).
  apply pickupStep_preserves.
  3: unfold P; repeat split.
  all: unfold P; unfold_phases; frame.
Qed.

(** What the scoring checks do with a ball beyond the left edge. *)
Lemma scoring_left_exit env s :
  Ball.x (ball s) < -20 ->
  let scored := upd_ai (fun p => Paddle.set_score (Paddle.score p + 1)%Z p) s in
  scoring env s
  = if (Paddle.score (ai s) + 1 >=? winScore s)%Z
    then set_matchEndMs (now env)
           (set_winner (match mode s with multi => "P2" | single => "AI" end)%string
              (set_gameStatus gameOver scored))
    else prepareServe toLeft scored.
Proof.
  intros Hx scored. unfold scoring, scoreLeftExit.
  destruct (Rltb_spec (Ball.x (ball s)) (-20)) as [_ | H]; [| lra].
  fold scored. simp.
  destruct (Paddle.score (ai s) + 1 >=? winScore s)%Z.
  - unfold scoreRightExit. simp.
    destruct (Rgtb_spec (Ball.x (ball s)) (CANVAS_WIDTH + 20)) as [H | _];
      [unfold CANVAS_WIDTH in H; lra | reflexivity].
  - unfold scoreRightExit, prepareServe. simp.
    destruct (Rgtb_spec (CANVAS_WIDTH / 2) (CANVAS_WIDTH + 20)) as [H | _];
      [unfold CANVAS_WIDTH in H; lra | reflexivity].
Qed.

(** C4.  In a playing tick that is not a serve countdown, if the ball's x is
    below -20 when the scoring checks run, the right side's score grows by
    exactly 1 and the left side's is untouched; then either the new score
    reaches [winScore] and the game is over with the right side as winner
    ("P2" in two-player mode, "AI" otherwise), or a serve begins: the ball
    at the centre of the court with zero velocity, [serveCountdown = 3],
    served to the left. *)
Theorem left_exit_scores_for_right (env : Env) (s : GameState) :
  gameStatus s = playing ->
  serveCountdown (tickPrelude (DIFFICULTY_SETTINGS (difficulty s)) env s) <= 0 ->
  Ball.x (ball (rallyUntilScoring (DIFFICULTY_SETTINGS (difficulty s)) env
                  (tickPrelude (DIFFICULTY_SETTINGS (difficulty s)) env s))) < -20 ->
  Paddle.score (ai (update env s)) = (Paddle.score (ai s) + 1)%Z
  /\ Paddle.score (player (update env s)) = Paddle.score (player s)
  /\ ((Paddle.score (ai s) + 1 >= winScore s)%Z ->
      gameStatus (update env s) = gameOver
      /\ winner (update env s) = match mode s with multi => "P2" | single => "AI" end%string)
  /\ ((Paddle.score (ai s) + 1 < winScore s)%Z ->
      gameStatus (update env s) = playing
      /\ ball (update env s) = servedBall (difficulty s)
      /\ Ball.x (ball (update env s)) = CANVAS_WIDTH / 2
      /\ Ball.y (ball (update env s)) = CANVAS_HEIGHT / 2
      /\ Ball.vx (ball (update env s)) = 0
      /\ Ball.vy (ball (update env s)) = 0
      /\ serveCountdown (update env s) = 3
      /\ serveDirection (update env s) = toLeft).
Proof.
  intros Hplay Hserve Hx.
  destruct (before_scoring_frame env s) as (Hai & Hpl & Hwin & Hmode & Hdiff & Hstat).
  cbn zeta in *.
  set (st := DIFFICULTY_SETTINGS (difficulty s)) in *.
  set (s2 := rallyUntilScoring st env (tickPrelude st env s)) in *.
  assert (Hupd : update env s = pickupStep (scoring env s2)).
  { unfold update. rewrite Hplay. cbn. fold st.
    destruct (Rgtb_spec (serveCountdown (tickPrelude st env s)) 0) as [H | _]; [lra |].
    reflexivity. }
  rewrite Hupd. rewrite (scoring_left_exit env s2 Hx). cbn zeta.
  rewrite Hai, Hwin, Hmode.
  destruct (Z.geb_spec (Paddle.score (ai s) + 1) (winScore s)) as [Hge | Hlt].
  - destruct (pickupStep_frame
                (set_matchEndMs (now env)
                   (set_winner (match mode s with multi => "P2" | single => "AI" end)%string
                      (set_gameStatus gameOver
                         (upd_ai (fun p => Paddle.set_score (Paddle.score p + 1)%Z p) s2)))))
      as (H1 & H2 & H3 & H4).
    rewrite H1, H2, H3, H4. simp. rewrite Hai, Hpl.
    repeat split; intros; try reflexivity; lia.
  - rewrite pickupStep_no_powerUps by reflexivity.
    unfold prepareServe, servedBall. simp. rewrite Hai, Hpl, Hdiff.
    repeat split; intros; try reflexivity; try lia. exact Hplay || (rewrite Hstat; exact Hplay).
Qed.

Lemma leavingLeft_facts env :
  serveCountdown (tickPrelude (DIFFICULTY_SETTINGS medium) env leavingLeft) = 0
  /\ Ball.x (ball (rallyUntilScoring (DIFFICULTY_SETTINGS medium) env
                     (tickPrelude (DIFFICULTY_SETTINGS medium) env leavingLeft)))
     = -18 + -5.
Proof.
  unfold leavingLeft. rewrite tickPrelude_rallyState. split; [reflexivity |].
  unfold rallyUntilScoring, rallyState.
  unfold computeDy; settle. unfold ballStep; settle.
  unfold paddleCollisions; settle.
  rewrite checkPaddleCollision_miss by (unfold overlaps; settle; reflexivity).
  settle. reflexivity.
Qed.

Lemma left_exit_scores_for_right_witness :
  Paddle.score (ai (update (calmEnv 7000) leavingLeft)) = 1%Z
  /\ ball (update (calmEnv 7000) leavingLeft) = servedBall medium
  /\ serveCountdown (update (calmEnv 7000) leavingLeft) = 3.
Proof.
  destruct (leavingLeft_facts (calmEnv 7000)) as [Hserve Hx].
  assert (H1 : gameStatus leavingLeft = playing) by reflexivity.
  assert (H2 : serveCountdown
                 (tickPrelude (DIFFICULTY_SETTINGS (difficulty leavingLeft))
                    (calmEnv 7000) leavingLeft) <= 0).
  { change (difficulty leavingLeft) with medium. rewrite Hserve. lra. }
  assert (H3 : Ball.x (ball (rallyUntilScoring (DIFFICULTY_SETTINGS (difficulty leavingLeft))
                               (calmEnv 7000)
                               (tickPrelude (DIFFICULTY_SETTINGS (difficulty leavingLeft))
                                  (calmEnv 7000) leavingLeft))) < -20).
  { change (difficulty leavingLeft) with medium. rewrite Hx. lra. }
  destruct (left_exit_scores_for_right (calmEnv 7000) leavingLeft H1 H2 H3)
    as (Hscore & _ & _ & Hserved).
  assert (Hlt : (Paddle.score (ai leavingLeft) + 1 < winScore leavingLeft)%Z)
    by (cbn; lia).
  destruct (Hserved Hlt) as (_ & Hball & _ & _ & _ & _ & Hcount & _).
  repeat split; assumption.
Defined.

(** ** From the phases to every entry point *)

Section StepPreservation.
Variable P : GameState -> Prop.

Hypothesis P_adaptiveAIStep :
  forall d s, P s -> P (adaptiveAIStep (DIFFICULTY_SETTINGS d) s).
Hypothesis P_movePaddles :
  forall env d s, P s -> P (movePaddles (DIFFICULTY_SETTINGS d) env s).
Hypothesis P_computeDy : forall s, P s -> P (computeDy s).
Hypothesis P_powerHitTimerStep : forall s, P s -> P (powerHitTimerStep s).
Hypothesis P_spawnStep : forall env s, P s -> P (spawnStep env s).
Hypothesis P_ttlStep : forall s, P s -> P (ttlStep s).
Hypothesis P_enlargeTimersStep : forall s, P s -> P (enlargeTimersStep s).
Hypothesis P_shrinkTimersStep : forall s, P s -> P (shrinkTimersStep s).
Hypothesis P_slowTimerStep : forall s, P s -> P (slowTimerStep s).
Hypothesis P_fastTimerStep : forall s, P s -> P (fastTimerStep s).
Hypothesis P_serveStep : forall env s, P s -> P (serveStep env s).
Hypothesis P_ballStep : forall s, P s -> P (ballStep s).
Hypothesis P_paddleCollisions :
  forall env d s, P s -> P (paddleCollisions (DIFFICULTY_SETTINGS d) env s).
Hypothesis P_scoreLeftExit : forall t s, P s -> P (scoreLeftExit t s).
Hypothesis P_scoreRightExit : forall t s, P s -> P (scoreRightExit t s).
Hypothesis P_applyPowerUp : forall pu s, P s -> P (applyPowerUp pu s).
Hypothesis P_set_powerUps : forall l s, P s -> P (set_powerUps l s).
Hypothesis P_startGame :
  forall diff winAt gameMode opts t rnd s, P (startGame diff winAt gameMode opts t rnd s).
Hypothesis P_set_gameStatus : forall g s, P s -> P (set_gameStatus g s).
Hypothesis P_set_keysRef : forall l s, P s -> P (set_keysRef l s).
Hypothesis P_set_useMouseRef : forall b s, P s -> P (set_useMouseRef b s).
Hypothesis P_set_mouseYRef : forall v s, P s -> P (set_mouseYRef v s).
Hypothesis P_set_touchActiveRef : forall b s, P s -> P (set_touchActiveRef b s).
Hypothesis P_touchPaddle : forall touch s, P s -> P (touchPaddle s touch).
Hypothesis P_set_adaptiveAI : forall b s, P s -> P (set_adaptiveAI b s).
Hypothesis P_set_powerUpsEnabled : forall b s, P s -> P (set_powerUpsEnabled b s).
Hypothesis P_set_powerUpSpawnRate : forall r s, P s -> P (set_powerUpSpawnRate r s).

Lemma update_preserves env s : P s -> P (update env s).
Proof.
  intros Hs. destruct (Status_eqb_spec (gameStatus s) playing) as [Hplay | Hno].
  - apply update_playing_preserves; auto.
  - rewrite update_not_playing by assumption. exact Hs.
Qed.

Lemma togglePause_preserves s : P s -> P (togglePause s).
Proof. intros Hs. unfold togglePause. destruct (gameStatus s); auto. Qed.

Lemma handleKeyDown_preserves k opts t rnd s : P s -> P (handleKeyDown k opts t rnd s).
Proof.
  intros Hs. unfold handleKeyDown.
  set (s1 := set_useMouseRef false (set_keysRef (keys_add k (keysRef s)) s)).
  assert (H1 : P s1) by (unfold s1; auto).
  clearbody s1.
  set (s2 := if (String.eqb k " " || String.eqb k "Escape" || String.eqb k "p"
                 || String.eqb k "P")%bool
             then if (Status_eqb (gameStatus s1) playing
                      || Status_eqb (gameStatus s1) paused)%bool
                  then togglePause s1 else s1
             else s1).
  assert (H2 : P s2).
  { unfold s2. repeat match goal with |- context [if ?c then _ else _] => destruct c end;
      auto using togglePause_preserves. }
  clearbody s2.
  set (s3 := if ((String.eqb k "r" || String.eqb k "R")
                 && Status_eqb (gameStatus s2) gameOver)%bool
             then startGame (difficulty s2) (winScore s2) (mode s2) opts t rnd s2
             else s2).
  assert (H3 : P s3).
  { unfold s3. destruct ((String.eqb k "r" || String.eqb k "R")
                         && Status_eqb (gameStatus s2) gameOver)%bool; auto. }
  clearbody s3.
  repeat match goal with |- context [if ?c then _ else _] => destruct c end;
    unfold returnToMenu; auto.
Qed.

Lemma handleTouch_preserves touches s : P s -> P (handleTouch touches s).
Proof.
  intros Hs. unfold handleTouch. destruct (mode s).
  - destruct touches as [| [tx ty] rest]; auto.
  - apply P_set_touchActiveRef. revert s Hs.
    induction touches as [| touch rest IH]; intros s Hs; cbn; auto.
Qed.

Lemma step_preserves s s' : step s s' -> P s -> P s'.
Proof.
  intros Hstep Hs. destruct Hstep.
  - apply update_preserves, Hs.
  - apply P_startGame.
  - apply togglePause_preserves, Hs.
  - unfold returnToMenu. auto.
  - unfold pauseIfPlaying. destruct (gameStatus s); auto.
  - apply handleKeyDown_preserves, Hs.
  - unfold handleKeyUp. auto.
  - unfold handleMouseMove. auto.
  - apply handleTouch_preserves, Hs.
  - unfold handleTouchEnd. destruct remaining; auto.
  - unfold syncAdaptiveAI. auto.
  - unfold syncPowerUpsEnabled. destruct v; auto.
  - unfold syncPowerUpSpawnRate. auto.
Qed.

Lemma reachable_preserves s : P initialState -> reachable s -> P s.
Proof.
  intros Hinit Hreach. induction Hreach as [| s s' _ IH Hstep].
  - exact Hinit.
  - apply (step_preserves s s' Hstep IH).
Qed.
End StepPreservation.

(** ** Enlarge and shrink timers *)

Ltac unfold_entry :=
  unfold adaptiveAIStep, startGame, prepareServe, touchPaddle, clampPaddle.

(** Split the comparisons and the remaining tests of a phase, then leave
    the arithmetic to [lra]. *)
Ltac inv_phase :=
  intros; unfold_phases; unfold_entry; simp_all;
  repeat (rcase; simp_all); break_ifs; simp_all; unfold_consts; unfold dirSign in *.

Lemma reachable_TimersExclusive s : reachable s -> TimersExclusive s.
Proof.
  apply reachable_preserves; unfold TimersExclusive; inv_phase;
    try (intuition lra).
Qed.

Lemma applyPowerUp_clears_opposite pu s :
  (PowerUp.type pu = enlarge -> lastHitBy s = sidePlayer ->
   playerPowerUpTimer (applyPowerUp pu s) = 6 /\ playerShrinkTimer (applyPowerUp pu s) = 0)
  /\ (PowerUp.type pu = enlarge -> lastHitBy s = sideAi ->
      aiPowerUpTimer (applyPowerUp pu s) = 6 /\ aiShrinkTimer (applyPowerUp pu s) = 0)
  /\ (PowerUp.type pu = shrink -> lastHitBy s = sidePlayer ->
      aiShrinkTimer (applyPowerUp pu s) = 6 /\ aiPowerUpTimer (applyPowerUp pu s) = 0)
  /\ (PowerUp.type pu = shrink -> lastHitBy s = sideAi ->
      playerShrinkTimer (applyPowerUp pu s) = 6 /\ playerPowerUpTimer (applyPowerUp pu s) = 0).
Proof.
  unfold applyPowerUp.
  split; [| split; [| split]]; intros Hty Hby; rewrite Hty, Hby; split; reflexivity.
Qed.

Lemma idle_size_timers_stay_zero env s :
  (playerPowerUpTimer s = 0 -> playerPowerUpTimer (powerUpStep env s) = 0)
  /\ (aiPowerUpTimer s = 0 -> aiPowerUpTimer (powerUpStep env s) = 0)
  /\ (playerShrinkTimer s = 0 -> playerShrinkTimer (powerUpStep env s) = 0)
  /\ (aiShrinkTimer s = 0 -> aiShrinkTimer (powerUpStep env s) = 0).
Proof.
  repeat split; intros H0.
  - apply (powerUpStep_preserves (fun s' => playerPowerUpTimer s' = 0)); try assumption;
      inv_phase; try lra; try assumption; try reflexivity.
  - apply (powerUpStep_preserves (fun s' => aiPowerUpTimer s' = 0)); try assumption;
      inv_phase; try lra; try assumption; try reflexivity.
  - apply (powerUpStep_preserves (fun s' => playerShrinkTimer s' = 0)); try assumption;
      inv_phase; try lra; try assumption; try reflexivity.
  - apply (powerUpStep_preserves (fun s' => aiShrinkTimer s' = 0)); try assumption;
      inv_phase; try lra; try assumption; try reflexivity.
Qed.

(** C5.  In every state reachable through the hook's entry points (start,
    ticks and the pickups inside them, pause, menu, input handlers, option
    changes) no paddle has its enlarge timer and its shrink timer both
    non-zero.  Collecting an enlarge power-up sets the beneficiary's shrink
    timer to 0, collecting a shrink power-up sets the enlarge timer of the
    paddle it shrinks to 0, and a size timer that is zero is still zero after
    the tick's timer phase. *)
Theorem size_timers_exclusive (s : GameState) :
  reachable s ->
  ~ (playerPowerUpTimer s <> 0 /\ playerShrinkTimer s <> 0)
  /\ ~ (aiPowerUpTimer s <> 0 /\ aiShrinkTimer s <> 0)
  /\ (forall pu,
        (PowerUp.type pu = enlarge -> lastHitBy s = sidePlayer ->
         playerPowerUpTimer (applyPowerUp pu s) = 6
         /\ playerShrinkTimer (applyPowerUp pu s) = 0)
        /\ (PowerUp.type pu = enlarge -> lastHitBy s = sideAi ->
            aiPowerUpTimer (applyPowerUp pu s) = 6 /\ aiShrinkTimer (applyPowerUp pu s) = 0)
        /\ (PowerUp.type pu = shrink -> lastHitBy s = sidePlayer ->
            aiShrinkTimer (applyPowerUp pu s) = 6 /\ aiPowerUpTimer (applyPowerUp pu s) = 0)
        /\ (PowerUp.type pu = shrink -> lastHitBy s = sideAi ->
            playerShrinkTimer (applyPowerUp pu s) = 6
            /\ playerPowerUpTimer (applyPowerUp pu s) = 0))
  /\ (forall env,
        (playerPowerUpTimer s = 0 -> playerPowerUpTimer (powerUpStep env s) = 0)
        /\ (aiPowerUpTimer s = 0 -> aiPowerUpTimer (powerUpStep env s) = 0)
        /\ (playerShrinkTimer s = 0 -> playerShrinkTimer (powerUpStep env s) = 0)
        /\ (aiShrinkTimer s = 0 -> aiShrinkTimer (powerUpStep env s) = 0)).
Proof.
  intros Hreach. destruct (reachable_TimersExclusive s Hreach) as [Hp Ha].
  split; [tauto |]. split; [tauto |]. split.
  - intros pu. apply applyPowerUp_clears_opposite.
  - intros env. apply idle_size_timers_stay_zero.
Qed.

Lemma reachable_freshMatch : reachable freshMatch.
Proof.
  unfold freshMatch. eapply reachable_step; [apply reachable_init | apply step_startGame].
Qed.

Lemma size_timers_exclusive_witness :
  ~ (playerPowerUpTimer freshMatch <> 0 /\ playerShrinkTimer freshMatch <> 0)
  /\ ~ (aiPowerUpTimer freshMatch <> 0 /\ aiShrinkTimer freshMatch <> 0).
Proof.
  destruct (size_timers_exclusive freshMatch reachable_freshMatch) as (H1 & H2 & _).
  split; assumption.
Defined.

(** ** The ball between the top and bottom walls *)

Lemma reachable_BallInCourt s : reachable s -> BallInCourt s.
Proof.
  apply reachable_preserves; unfold BallInCourt; inv_phase;
    try (intuition lra).
Qed.

Lemma ballStep_clamps s :
  2 * Ball.radius (ball s) < CANVAS_HEIGHT ->
  (Ball.y (ball s) + Ball.vy (ball s) - Ball.radius (ball s) <= 0 ->
   Ball.y (ball (ballStep s)) = Ball.radius (ball s))
  /\ (Ball.y (ball s) + Ball.vy (ball s) + Ball.radius (ball s) >= CANVAS_HEIGHT ->
      Ball.y (ball (ballStep s)) = CANVAS_HEIGHT - Ball.radius (ball s))
  /\ (0 < Ball.y (ball s) + Ball.vy (ball s) - Ball.radius (ball s) ->
      Ball.y (ball s) + Ball.vy (ball s) + Ball.radius (ball s) < CANVAS_HEIGHT ->
      Ball.y (ball (ballStep s)) = Ball.y (ball s) + Ball.vy (ball s)).
Proof.
  intros Hr. unfold ballStep. simp.
  repeat (rcase; simp_all); unfold_consts; repeat split; intros; lra.
Qed.

(** C10.  In every reachable state the ball's y lies in
    [[radius, CANVAS_HEIGHT - radius]], and every entry point keeps it there.
    Within [update], the ball movement that would carry y to or past the top
    (bottom) boundary ends with y on that boundary after the same
    [ballStep]; [prepareServe] and [resetBall] put the ball at the court's
    vertical centre. *)
Theorem ball_between_walls (s : GameState) :
  reachable s ->
  Ball.radius (ball s) <= Ball.y (ball s) <= CANVAS_HEIGHT - Ball.radius (ball s)
  /\ (forall s', step s s' ->
        Ball.radius (ball s') <= Ball.y (ball s') <= CANVAS_HEIGHT - Ball.radius (ball s'))
  /\ (Ball.y (ball s) + Ball.vy (ball s) - Ball.radius (ball s) <= 0 ->
      Ball.y (ball (ballStep s)) = Ball.radius (ball s))
  /\ (Ball.y (ball s) + Ball.vy (ball s) + Ball.radius (ball s) >= CANVAS_HEIGHT ->
      Ball.y (ball (ballStep s)) = CANVAS_HEIGHT - Ball.radius (ball s))
  /\ (forall d, Ball.y (ball (prepareServe d s)) = CANVAS_HEIGHT / 2)
  /\ (forall dir rnd, Ball.y (ball (resetBall dir rnd s)) = CANVAS_HEIGHT / 2).
Proof.
  intros Hreach. destruct (reachable_BallInCourt s Hreach) as [Hr Hy].
  assert (H2r : 2 * Ball.radius (ball s) < CANVAS_HEIGHT)
    by (rewrite Hr; unfold_consts; lra).
  destruct (ballStep_clamps s H2r) as (Htop & Hbottom & _).
  repeat split; try assumption; try tauto.
  - apply (reachable_BallInCourt s'). eapply reachable_step; eassumption.
  - apply (reachable_BallInCourt s'). eapply reachable_step; eassumption.
Qed.

Lemma ball_between_walls_witness :
  Ball.radius (ball freshMatch) <= Ball.y (ball freshMatch)
  <= CANVAS_HEIGHT - Ball.radius (ball freshMatch).
Proof.
  exact (proj1 (ball_between_walls freshMatch reachable_freshMatch)).
Defined.

(** ** The ball keeps a horizontal velocity while in play *)

Lemma overlaps_true b p :
  overlaps b p = true ->
  Ball.x b - Ball.radius b < Paddle.x p + Paddle.width p
  /\ Ball.x b + Ball.radius b > Paddle.x p
  /\ Ball.y b + Ball.radius b > Paddle.y p
  /\ Ball.y b - Ball.radius b < Paddle.y p + Paddle.height p.
Proof.
  unfold overlaps. intros H.
  apply andb_true_iff in H. destruct H as [H H4].
  apply andb_true_iff in H. destruct H as [H H3].
  apply andb_true_iff in H. destruct H as [H1 H2].
  destruct (Rltb_spec (Ball.x b - Ball.radius b) (Paddle.x p + Paddle.width p));
    [| discriminate].
  destruct (Rgtb_spec (Ball.x b + Ball.radius b) (Paddle.x p)); [| discriminate].
  destruct (Rgtb_spec (Ball.y b + Ball.radius b) (Paddle.y p)); [| discriminate].
  destruct (Rltb_spec (Ball.y b - Ball.radius b) (Paddle.y p + Paddle.height p));
    [| discriminate].
  repeat split; assumption.
Qed.

(** A ball that overlaps a paddle taller than four radii is deflected by
    less than a right angle. *)
Lemma hit_angle_bound b p :
  overlaps b p = true ->
  0 <= Ball.radius b ->
  4 * Ball.radius b < Paddle.height p ->
  - (PI / 2)
  < (Ball.y b - (Paddle.y p + Paddle.height p / 2)) / (Paddle.height p / 2) * (PI / 3)
  < PI / 2.
Proof.
  intros Hov Hr Hh. apply overlaps_true in Hov. destruct Hov as (_ & _ & Hlo & Hhi).
  set (c := Ball.y b - (Paddle.y p + Paddle.height p / 2)).
  set (h2 := Paddle.height p / 2).
  assert (Hh2 : 0 < h2) by (unfold h2; lra).
  assert (Hc : - (3 / 2) * h2 < c < 3 / 2 * h2) by (unfold c, h2; lra).
  assert (Hq : - (3 / 2) < c / h2 < 3 / 2).
  { split.
    - apply (Rmult_lt_reg_r h2); [assumption |].
      unfold Rdiv. rewrite Rmult_assoc, Rinv_l by lra. lra.
    - apply (Rmult_lt_reg_r h2); [assumption |].
      unfold Rdiv. rewrite Rmult_assoc, Rinv_l by lra. lra. }
  pose proof PI_RGT_0 as Hpi.
  set (q := c / h2) in *. clearbody q. clear Hc. clearbody c h2.
  assert (H1 : 0 < (q + 3 / 2) * PI) by (apply Rmult_lt_0_compat; lra).
  assert (H2 : 0 < (3 / 2 - q) * PI) by (apply Rmult_lt_0_compat; lra).
  split; lra.
Qed.

Lemma checkPaddleCollision_BallMoving d t p isPlayer s :
  4 * BALL_RADIUS < Paddle.height p ->
  BallMoving s -> BallMoving (checkPaddleCollision (DIFFICULTY_SETTINGS d) t p isPlayer s).
Proof.
  intros Hh (Hr & Hv & Hsf & Hff & Hhp & Hha & Hvx).
  destruct (overlaps (ball s) p) eqn:Hov.
  2: { rewrite checkPaddleCollision_miss by assumption. repeat split; assumption. }
  set (st := DIFFICULTY_SETTINGS d).
  assert (Hm : 0 < ballSpeedMul st) by apply ballSpeedMul_pos.
  assert (Hv1 : 0 < Rmin (Ball.speed (ball s) * 1.05) (14 * ballSpeedMul st))
    by (rminmax; lra).
  destruct (checkPaddleCollision_velocity st t p isPlayer s Hov) as [Hvx' _].
  cbn zeta in Hvx'.
  destruct (checkPaddleCollision_factors st t p isPlayer s) as [Hsf' Hff'].
  destruct (checkPaddleCollision_paddles st t p isPlayer s) as [Hp' Ha'].
  pose proof (checkPaddleCollision_speed st t p isPlayer s Hov) as Hspeed. cbn zeta in Hspeed.
  unfold BallMoving. rewrite Hsf', Hff', Hp', Ha', Hspeed, Hvx'.
  assert (Hcos : 0 < cos ((Ball.y (ball s) - (Paddle.y p + Paddle.height p / 2))
                          / (Paddle.height p / 2) * (PI / 3))).
  { destruct (hit_angle_bound (ball s) p Hov) as [Hlo Hhi].
    - rewrite Hr. unfold BALL_RADIUS. lra.
    - rewrite Hr. exact Hh.
    - apply cos_gt_0; assumption. }
  repeat split; try assumption.
  - unfold checkPaddleCollision. rewrite Hov. simp. break_ifs; exact Hr.
  - destruct (Rgtb_spec (Rabs (Paddle.dy p)) 4); rminmax; lra.
  - intros _.
    assert (Hmul : 0 < ballSlowFactor s * ballFastFactor s)
      by (apply Rmult_lt_0_compat; assumption).
    assert (Hprod : 0 < cos ((Ball.y (ball s) - (Paddle.y p + Paddle.height p / 2))
                             / (Paddle.height p / 2) * (PI / 3))
                        * Rmin (Ball.speed (ball s) * 1.05) (14 * ballSpeedMul st))
      by (apply Rmult_lt_0_compat; assumption).
    destruct isPlayer; nra.
Qed.

Lemma paddleCollisions_BallMoving env d s :
  BallMoving s -> BallMoving (paddleCollisions (DIFFICULTY_SETTINGS d) env s).
Proof.
  intros H. unfold paddleCollisions.
  destruct (Ball.vx (ball s) <? 0); apply checkPaddleCollision_BallMoving;
    try assumption; apply H.
Qed.

(** A quotient or product is non-zero when its parts are. *)
Ltac nonzero :=
  match goal with
  | |- _ / _ <> 0 =>
      unfold Rdiv; apply Rmult_integral_contrapositive_currified;
      [ | apply Rinv_neq_0_compat ]
  | |- _ * _ <> 0 => apply Rmult_integral_contrapositive_currified
  end.

Ltac note_mul_pos :=
  repeat match goal with
  | |- context [ballSpeedMul (DIFFICULTY_SETTINGS ?d)] =>
      lazymatch goal with
      | _ : 0 < ballSpeedMul (DIFFICULTY_SETTINGS d) |- _ => fail
      | _ => pose proof (ballSpeedMul_pos d)
      end
  end.

Ltac close_moving :=
  intros; note_mul_pos; mdecide;
  first [ lra
        | intro; lra
        | nonzero; intuition lra
        | break_ifs; first [ lra | intro; lra ] ].

Lemma reachable_BallMoving s : reachable s -> BallMoving s.
Proof.
  apply reachable_preserves; try (intros; apply paddleCollisions_BallMoving; assumption);
    unfold BallMoving; inv_phase;
    try (intuition lra).
  all: repeat split; try (intuition lra).
  all: close_moving.
Qed.

Lemma tickPrelude_BallMoving d env s :
  BallMoving s -> BallMoving (tickPrelude (DIFFICULTY_SETTINGS d) env s).
Proof.
  apply tickPrelude_preserves; unfold BallMoving; inv_phase; try (intuition lra).
  all: repeat split; try (intuition lra).
  all: close_moving.
Qed.

Lemma ballStep_vx s : Ball.vx (ball (ballStep s)) = Ball.vx (ball s).
Proof. unfold ballStep. simp. break_ifs; reflexivity. Qed.

Lemma tickPrelude_status_serve d env s :
  gameStatus (tickPrelude (DIFFICULTY_SETTINGS d) env s) = gameStatus s
  /\ serveCountdown (tickPrelude (DIFFICULTY_SETTINGS d) env s) = serveCountdown s
  /\ difficulty (tickPrelude (DIFFICULTY_SETTINGS d) env s) = difficulty s.
Proof.
  apply (tickPrelude_preserves
           (fun s' => gameStatus s' = gameStatus s
                      /\ serveCountdown s' = serveCountdown s
                      /\ difficulty s' = difficulty s));
    try (repeat split; fail); unfold_phases; unfold adaptiveAIStep; frame.
Qed.

(** ** The serve countdown runs out *)

Lemma update_serve_tick env s :
  gameStatus s = playing ->
  0 < serveCountdown s ->
  gameStatus (update env s) = playing
  /\ serveCountdown (update env s)
     = (if serveCountdown s - dt <=? 0 then 0 else serveCountdown s - dt).
Proof.
  intros Hplay Hc.
  destruct (tickPrelude_status_serve (difficulty s) env s) as (Hst & Hsc & _).
  unfold update. rewrite Hplay. cbn.
  set (pre := tickPrelude (DIFFICULTY_SETTINGS (difficulty s)) env s) in *.
  destruct (Rgtb_spec (serveCountdown pre) 0) as [_ | H]; [| lra].
  unfold serveStep, resetBall. simp. rewrite Hsc.
  destruct (Rleb_spec (serveCountdown s - dt) 0); simp; split; congruence.
Qed.

Lemma serve_countdown_runs env n : forall k s,
  gameStatus s = playing ->
  serveCountdown s = INR (n + S k) * dt ->
  gameStatus (Nat.iter n (update env) s) = playing
  /\ serveCountdown (Nat.iter n (update env) s) = INR (S k) * dt.
Proof.
  induction n as [| n IH]; intros k s Hplay Hc.
  - change (Nat.iter 0 (update env) s) with s. split; assumption.
  - rewrite Nat.iter_succ.
    destruct (IH (S k) s Hplay) as [Hp' Hc'].
    { rewrite Hc. f_equal. f_equal. lia. }
    assert (Hpos : 0 < INR (S (S k)) * dt).
    { apply Rmult_lt_0_compat; [apply lt_0_INR; lia | unfold dt; lra]. }
    destruct (update_serve_tick env (Nat.iter n (update env) s) Hp') as [H1 H2].
    { rewrite Hc'. exact Hpos. }
    split; [exact H1 |]. rewrite H2, Hc'.
    assert (Hk : 0 < INR (S k) * dt).
    { apply Rmult_lt_0_compat; [apply lt_0_INR; lia | unfold dt; lra]. }
    rewrite (S_INR (S k)) in *.
    destruct (Rleb_spec ((INR (S k) + 1) * dt - dt) 0) as [Hle | _]; lra.
Qed.

Lemma inRally_facts :
  reachable inRally /\ gameStatus inRally = playing /\ serveCountdown inRally = 0.
Proof.
  assert (Hreach : forall n, reachable (Nat.iter n (update (calmEnv 2000)) freshMatch)).
  { induction n as [| n IH].
    - apply reachable_freshMatch.
    - rewrite Nat.iter_succ. eapply reachable_step; [exact IH | apply step_update]. }
  split; [apply Hreach |].
  unfold inRally. change 180%nat with (S 179). rewrite Nat.iter_succ.
  destruct (serve_countdown_runs (calmEnv 2000) 179 0 freshMatch) as [Hp Hc].
  - reflexivity.
  - change (serveCountdown freshMatch) with 3.
    rewrite INR_IZR_INZ. change (Z.of_nat (179 + 1)) with 180%Z. unfold dt. lra.
  - destruct (update_serve_tick (calmEnv 2000)
                (Nat.iter 179 (update (calmEnv 2000)) freshMatch) Hp) as [H1 H2].
    + rewrite Hc. cbn. unfold dt. lra.
    + split; [exact H1 |]. rewrite H2, Hc. cbn [INR].
      destruct (Rleb_spec (1 * dt - dt) 0) as [_ | H]; [reflexivity | lra].
Qed.

(** ** One paddle per tick *)

(** C9.  From a reachable state, a playing tick that is past the serve
    countdown runs the collision handler exactly once: the ball's [vx] at
    that point is non-zero, the call is on the left paddle when [vx] is
    negative and on the right paddle when [vx] is positive, and the rest of
    the tick is the scoring checks and the pickups. *)
Theorem one_paddle_tested_per_tick (env : Env) (s : GameState) :
  reachable s ->
  gameStatus s = playing ->
  serveCountdown (tickPrelude (DIFFICULTY_SETTINGS (difficulty s)) env s) <= 0 ->
  let st := DIFFICULTY_SETTINGS (difficulty s) in
  let s1 := ballStep (tickPrelude st env s) in
  Ball.vx (ball s1) <> 0
  /\ (Ball.vx (ball s1) < 0 ->
      paddleCollisions st env s1 = checkPaddleCollision st (now env) (player s1) true s1)
  /\ (Ball.vx (ball s1) > 0 ->
      paddleCollisions st env s1 = checkPaddleCollision st (now env) (ai s1) false s1)
  /\ update env s = pickupStep (scoring env (paddleCollisions st env s1)).
Proof.
  intros Hreach Hplay Hserve st s1.
  pose proof (tickPrelude_BallMoving (difficulty s) env s (reachable_BallMoving s Hreach))
    as (_ & _ & _ & _ & _ & _ & Hvx).
  fold st in Hvx, Hserve.
  assert (Hvx1 : Ball.vx (ball s1) <> 0).
  { unfold s1. rewrite ballStep_vx. apply Hvx. exact Hserve. }
  split; [exact Hvx1 |]. unfold paddleCollisions.
  destruct (Rltb_spec (Ball.vx (ball s1)) 0) as [Hneg | Hnneg].
  - split; [reflexivity |]. split; [intros Hpos; lra |].
    unfold update. rewrite Hplay. cbn. fold st.
    destruct (Rgtb_spec (serveCountdown (tickPrelude st env s)) 0) as [H | _]; [lra |].
    unfold rallyUntilScoring, paddleCollisions. fold s1.
    destruct (Rltb_spec (Ball.vx (ball s1)) 0) as [_ | H]; [reflexivity | lra].
  - split; [intros Hneg; lra |]. split; [reflexivity |].
    unfold update. rewrite Hplay. cbn. fold st.
    destruct (Rgtb_spec (serveCountdown (tickPrelude st env s)) 0) as [H | _]; [lra |].
    unfold rallyUntilScoring, paddleCollisions. fold s1.
    destruct (Rltb_spec (Ball.vx (ball s1)) 0) as [H | _]; [lra | reflexivity].
Qed.

(** ** The AI's bounce prediction leaves its loop *)

Lemma bounceLoop_enough n : forall y,
  Rabs y <= 2 * CANVAS_HEIGHT * INR n + CANVAS_HEIGHT ->
  exists r, bounceLoop (S n) y = Some r /\ 0 <= r <= CANVAS_HEIGHT.
Proof.
  unfold CANVAS_HEIGHT.
  induction n as [| n IH]; intros y Hy.
  - cbn [INR] in Hy. cbn [bounceLoop]. unfold CANVAS_HEIGHT.
    destruct (Rabs_cases y) as [[Hpos Ha] | [Hneg Ha]]; rewrite Ha in Hy.
    + exists y. repeat (rcase; cbn [orb]); try lra. split; [reflexivity | lra].
    + exists (- y). repeat (rcase; cbn [orb]); try lra. split; [reflexivity | lra].
  - rewrite S_INR in Hy.
    assert (Hn : 0 <= INR n) by apply pos_INR.
    change (bounceLoop (S (S n)) y)
      with (if ((y <? 0) || (y >? CANVAS_HEIGHT))%bool
            then bounceLoop (S n)
                   (let y1 := if y <? 0 then - y else y in
                    if y1 >? CANVAS_HEIGHT then 2 * CANVAS_HEIGHT - y1 else y1)
            else Some y).
    unfold CANVAS_HEIGHT. cbn zeta.
    destruct (Rabs_cases y) as [[Hpos Ha] | [Hneg Ha]]; rewrite Ha in Hy.
    + destruct (Rltb_spec y 0) as [H | _]; [lra |]. cbn [orb].
      destruct (Rgtb_spec y 500) as [Hbig | Hin].
      * apply IH. rminmax; lra.
      * exists y. split; [reflexivity | lra].
    + destruct (Rltb_spec y 0) as [_ | H]; [| lra]. cbn [orb].
      destruct (Rgtb_spec (- y) 500) as [Hbig | Hin].
      * apply IH. rminmax; lra.
      * apply IH. rminmax; lra.
Qed.

Lemma bounceFuel_enough y :
  Rabs y <= 2 * CANVAS_HEIGHT * INR (Z.to_nat (up (Rabs y / (2 * CANVAS_HEIGHT))))
            + CANVAS_HEIGHT.
Proof.
  unfold CANVAS_HEIGHT.
  set (x := Rabs y / (2 * 500)).
  assert (Hx : 0 <= x).
  { unfold x. apply Rmult_le_pos; [apply Rabs_pos |]. lra. }
  destruct (archimed x) as [Hup _].
  assert (Hz : (0 <= up x)%Z).
  { apply le_IZR. lra. }
  rewrite INR_IZR_INZ, Z2Nat.id by assumption.
  assert (Hy : Rabs y = x * (2 * 500)) by (unfold x; field).
  rewrite Hy. lra.
Qed.

(** In exact arithmetic the loop of the bounce prediction always leaves
    within [bounceFuel] rounds, with a prediction inside the court; so
    [bouncePrediction] is the loop's result and the embedding of [update] is
    total. *)
Lemma bounceLoop_terminates y :
  exists r, bounceLoop (bounceFuel y) y = Some r
            /\ bouncePrediction y = r /\ 0 <= r <= CANVAS_HEIGHT.
Proof.
  destruct (bounceLoop_enough _ y (bounceFuel_enough y)) as (r & Hr & Hrange).
  exists r. unfold bouncePrediction, bounceFuel. rewrite Hr. repeat split; tauto.
Qed.

(** * Further properties of the engine *)

(** ** Entry points, with the settings the tick really uses *)

Lemma adaptiveAIStep_difficulty st s : difficulty (adaptiveAIStep st s) = difficulty s.
Proof. unfold adaptiveAIStep. frame. Qed.

Lemma ballStep_difficulty s : difficulty (ballStep s) = difficulty s.
Proof. unfold ballStep. frame. Qed.

Section EntryPreservation.
Variable P : GameState -> Prop.

Hypothesis P_adaptiveAIStep :
  forall s, P s -> P (adaptiveAIStep (DIFFICULTY_SETTINGS (difficulty s)) s).
Hypothesis P_movePaddles :
  forall env s, P s -> P (movePaddles (DIFFICULTY_SETTINGS (difficulty s)) env s).
Hypothesis P_computeDy : forall s, P s -> P (computeDy s).
Hypothesis P_powerHitTimerStep : forall s, P s -> P (powerHitTimerStep s).
Hypothesis P_spawnStep : forall env s, P s -> P (spawnStep env s).
Hypothesis P_ttlStep : forall s, P s -> P (ttlStep s).
Hypothesis P_enlargeTimersStep : forall s, P s -> P (enlargeTimersStep s).
Hypothesis P_shrinkTimersStep : forall s, P s -> P (shrinkTimersStep s).
Hypothesis P_slowTimerStep : forall s, P s -> P (slowTimerStep s).
Hypothesis P_fastTimerStep : forall s, P s -> P (fastTimerStep s).
Hypothesis P_serveStep : forall env s, P s -> P (serveStep env s).
Hypothesis P_ballStep : forall s, P s -> P (ballStep s).
Hypothesis P_paddleCollisions :
  forall env s, P s -> P (paddleCollisions (DIFFICULTY_SETTINGS (difficulty s)) env s).
Hypothesis P_scoreLeftExit : forall t s, P s -> P (scoreLeftExit t s).
Hypothesis P_scoreRightExit : forall t s, P s -> P (scoreRightExit t s).
Hypothesis P_pickupStep : forall s, P s -> P (pickupStep s).
Hypothesis P_startGame :
  forall diff winAt gameMode opts t rnd s, P (startGame diff winAt gameMode opts t rnd s).
Hypothesis P_togglePause : forall s, P s -> P (togglePause s).
Hypothesis P_returnToMenu : forall s, P s -> P (returnToMenu s).
Hypothesis P_pauseIfPlaying : forall s, P s -> P (pauseIfPlaying s).
Hypothesis P_set_keysRef : forall l s, P s -> P (set_keysRef l s).
Hypothesis P_set_useMouseRef : forall b s, P s -> P (set_useMouseRef b s).
Hypothesis P_set_mouseYRef : forall v s, P s -> P (set_mouseYRef v s).
Hypothesis P_set_touchActiveRef : forall b s, P s -> P (set_touchActiveRef b s).
Hypothesis P_touchPaddle : forall touch s, P s -> P (touchPaddle s touch).
Hypothesis P_set_adaptiveAI : forall b s, P s -> P (set_adaptiveAI b s).
Hypothesis P_syncPowerUpsEnabled : forall b s, P s -> P (syncPowerUpsEnabled b s).
Hypothesis P_set_powerUpSpawnRate : forall r s, P s -> P (set_powerUpSpawnRate r s).

Lemma tick_prelude_keeps env s :
  P s -> P (tickPrelude (DIFFICULTY_SETTINGS (difficulty s)) env s).
Proof.
  intros Hs. unfold tickPrelude, powerUpStep.
  pose proof (P_adaptiveAIStep s Hs) as H1.
  pose proof (P_movePaddles env _ H1) as H2.
  rewrite adaptiveAIStep_difficulty in H2.
  auto 12.
Qed.

Lemma tick_keeps env s : P s -> P (update env s).
Proof.
  intros Hs. destruct (Status_eqb_spec (gameStatus s) playing) as [Hplay | Hno].
  2: { rewrite update_not_playing by assumption. exact Hs. }
  pose proof (tick_prelude_keeps env s Hs) as Hpre.
  unfold update. rewrite Hplay. cbn.
  set (st := DIFFICULTY_SETTINGS (difficulty s)) in *.
  destruct (serveCountdown (tickPrelude st env s) >? 0); [auto |].
  unfold scoring, rallyUntilScoring.
  apply P_pickupStep, P_scoreRightExit, P_scoreLeftExit.
  pose proof (P_paddleCollisions env _ (P_ballStep _ Hpre)) as H.
  rewrite ballStep_difficulty in H.
  unfold st in H at 1.
  rewrite (proj2 (proj2 (tickPrelude_status_serve (difficulty s) env s))) in H.
  exact H.
Qed.

Lemma key_down_keeps k opts t rnd s : P s -> P (handleKeyDown k opts t rnd s).
Proof.
  intros Hs. unfold handleKeyDown.
  set (s1 := set_useMouseRef false (set_keysRef (keys_add k (keysRef s)) s)).
  assert (H1 : P s1) by (unfold s1; auto).
  clearbody s1.
  set (s2 := if (String.eqb k " " || String.eqb k "Escape" || String.eqb k "p"
                 || String.eqb k "P")%bool
             then if (Status_eqb (gameStatus s1) playing
                      || Status_eqb (gameStatus s1) paused)%bool
                  then togglePause s1 else s1
             else s1).
  assert (H2 : P s2).
  { unfold s2. repeat match goal with |- context [if ?c then _ else _] => destruct c end;
      auto. }
  clearbody s2.
  set (s3 := if ((String.eqb k "r" || String.eqb k "R")
                 && Status_eqb (gameStatus s2) gameOver)%bool
             then startGame (difficulty s2) (winScore s2) (mode s2) opts t rnd s2
             else s2).
  assert (H3 : P s3).
  { unfold s3. destruct ((String.eqb k "r" || String.eqb k "R")
                         && Status_eqb (gameStatus s2) gameOver)%bool; auto. }
  clearbody s3.
  repeat match goal with |- context [if ?c then _ else _] => destruct c end; auto.
Qed.

Lemma entry_keeps s s' : step s s' -> P s -> P s'.
Proof.
  intros Hstep Hs. destruct Hstep.
  - apply tick_keeps, Hs.
  - apply P_startGame.
  - auto.
  - auto.
  - auto.
  - apply key_down_keeps, Hs.
  - unfold handleKeyUp. auto.
  - unfold handleMouseMove. auto.
  - apply handleTouch_preserves; auto.
  - unfold handleTouchEnd. destruct remaining; auto.
  - unfold syncAdaptiveAI. auto.
  - auto.
  - unfold syncPowerUpSpawnRate. auto.
Qed.

Lemma reachable_keeps s : P initialState -> reachable s -> P s.
Proof.
  intros Hinit Hreach. induction Hreach as [| s s' _ IH Hstep].
  - exact Hinit.
  - apply (entry_keeps s s' Hstep IH).
Qed.
End EntryPreservation.

(** ** Effects and their timers, the counters and the outcome *)

(** Turn the recorded outcome of a comparison into the order fact. *)
Ltac rfacts :=
  repeat match goal with
  | H : Rltb ?a ?b = true |- _ => destruct (Rltb_spec a b); [clear H | discriminate H]
  | H : Rltb ?a ?b = false |- _ => destruct (Rltb_spec a b); [discriminate H | clear H]
  | H : Rleb ?a ?b = true |- _ => destruct (Rleb_spec a b); [clear H | discriminate H]
  | H : Rleb ?a ?b = false |- _ => destruct (Rleb_spec a b); [discriminate H | clear H]
  | H : Rgtb ?a ?b = true |- _ => destruct (Rgtb_spec a b); [clear H | discriminate H]
  | H : Rgtb ?a ?b = false |- _ => destruct (Rgtb_spec a b); [discriminate H | clear H]
  | H : Rgeb ?a ?b = true |- _ => destruct (Rgeb_spec a b); [clear H | discriminate H]
  | H : Rgeb ?a ?b = false |- _ => destruct (Rgeb_spec a b); [discriminate H | clear H]
  | H : Reqb ?a ?b = true |- _ => destruct (Reqb_spec a b); [clear H | discriminate H]
  | H : Reqb ?a ?b = false |- _ => destruct (Reqb_spec a b); [discriminate H | clear H]
  end.

Ltac inv_entry :=
  intros; unfold_phases; unfold_entry;
  unfold togglePause, returnToMenu, pauseIfPlaying, syncPowerUpsEnabled; simp_all;
  repeat (rcase; simp_all); break_ifs; simp_all; rfacts; unfold_consts;
  unfold dirSign in *.

Lemma reachable_CourtGeometry s : reachable s -> CourtGeometry s.
Proof.
  apply reachable_keeps;
    try (intros; apply pickupStep_preserves; [| | assumption]);
    unfold CourtGeometry; inv_entry; try (intuition lra).
Qed.

Lemma reachable_player_size s :
  reachable s ->
  sizeCoupled (playerPowerUpTimer s) (playerShrinkTimer s) (Paddle.height (player s)).
Proof.
  apply (reachable_keeps (fun s =>
    sizeCoupled (playerPowerUpTimer s) (playerShrinkTimer s) (Paddle.height (player s))));
    try (intros; apply pickupStep_preserves; [| | assumption]);
    unfold sizeCoupled; inv_entry; mdecide; try (intuition lra).
Qed.

Lemma reachable_ai_size s :
  reachable s ->
  sizeCoupled (aiPowerUpTimer s) (aiShrinkTimer s) (Paddle.height (ai s)).
Proof.
  apply (reachable_keeps (fun s =>
    sizeCoupled (aiPowerUpTimer s) (aiShrinkTimer s) (Paddle.height (ai s))));
    try (intros; apply pickupStep_preserves; [| | assumption]);
    unfold sizeCoupled; inv_entry; mdecide; try (intuition lra).
Qed.

Lemma reachable_PaddleSizes s : reachable s -> PaddleSizes s.
Proof.
  intros H. split; [apply reachable_player_size | apply reachable_ai_size]; exact H.
Qed.

Lemma reachable_slow_coupled s :
  reachable s -> factorCoupled (ballSlowTimer s) (ballSlowFactor s) 0.6.
Proof.
  apply (reachable_keeps (fun s =>
    factorCoupled (ballSlowTimer s) (ballSlowFactor s) 0.6));
    try (intros; apply pickupStep_preserves; [| | assumption]);
    unfold factorCoupled; inv_entry; try (intuition lra).
Qed.

Lemma reachable_fast_coupled s :
  reachable s -> factorCoupled (ballFastTimer s) (ballFastFactor s) 1.6.
Proof.
  apply (reachable_keeps (fun s =>
    factorCoupled (ballFastTimer s) (ballFastFactor s) 1.6));
    try (intros; apply pickupStep_preserves; [| | assumption]);
    unfold factorCoupled; inv_entry; try (intuition lra).
Qed.

Lemma reachable_PowerHitFlag s : reachable s -> PowerHitFlag s.
Proof.
  apply reachable_keeps;
    try (intros; apply pickupStep_preserves; [| | assumption]);
    unfold PowerHitFlag; inv_entry; try (intuition (first [lra | congruence])).
Qed.

(** Turn the outcome of an integer test into the order fact it decides. *)
Ltac zfacts :=
  repeat match goal with
  | H : (_ >=? _)%Z = true |- _ => apply Z.geb_le in H
  | H : (_ >=? _)%Z = false |- _ => rewrite Z.geb_leb, Z.leb_gt in H
  | H : (_ >? _)%Z = true |- _ => rewrite Z.gtb_ltb, Z.ltb_lt in H
  | H : (_ >? _)%Z = false |- _ => rewrite Z.gtb_ltb, Z.ltb_ge in H
  | H : (_ <? _)%Z = true |- _ => apply Z.ltb_lt in H
  | H : (_ <? _)%Z = false |- _ => apply Z.ltb_ge in H
  end.

Lemma reachable_RallyCounters s : reachable s -> RallyCounters s.
Proof.
  apply reachable_keeps;
    try (intros; apply pickupStep_preserves; [| | assumption]);
    unfold RallyCounters; inv_entry; zfacts; try lia.
Qed.

Lemma reachable_MatchResult s : reachable s -> MatchResult s.
Proof.
  apply reachable_keeps;
    try (intros; apply pickupStep_preserves; [| | assumption]);
    unfold MatchResult; inv_entry; zfacts;
    try (intuition (first [lia | congruence | discriminate])).
Qed.

(** ** Invariants of the reachable states, as statements *)

(** X1.  The geometry of the court never changes: in every reachable state
    the ball has radius [BALL_RADIUS], both paddles have width
    [PADDLE_WIDTH], the left paddle stands [PADDLE_MARGIN] from the left edge
    and the right paddle [PADDLE_MARGIN] from the right edge. *)
Theorem court_geometry_fixed (s : GameState) : reachable s -> CourtGeometry s.
Proof. apply reachable_CourtGeometry. Qed.

Lemma court_geometry_fixed_witness : CourtGeometry inRally.
Proof. apply (court_geometry_fixed inRally). apply inRally_facts. Defined.

(** X2.  A paddle's height always follows its timers: in every reachable
    state each paddle either has no size effect (both timers 0, height
    [PADDLE_HEIGHT]), or is enlarged (enlarge timer in (0, 6], shrink timer 0,
    height [1.6 * PADDLE_HEIGHT]), or is shrunk (shrink timer in (0, 6],
    enlarge timer 0, height [0.6 * PADDLE_HEIGHT]). *)
Theorem paddle_sizes_follow_timers (s : GameState) : reachable s -> PaddleSizes s.
Proof. apply reachable_PaddleSizes. Qed.

Lemma paddle_sizes_follow_timers_witness : PaddleSizes inRally.
Proof. apply (paddle_sizes_follow_timers inRally). apply inRally_facts. Defined.

(** X3.  The slow and fast factors follow their timers: in every reachable
    state the slow factor is 1 with the slow timer at 0, or 0.6 with the timer
    in (0, 6]; and the fast factor is 1 with the fast timer at 0, or 1.6 with
    the timer in (0, 6]. *)
Theorem ball_effects_follow_timers (s : GameState) : reachable s -> BallEffects s.
Proof.
  intros Hr. split; [apply reachable_slow_coupled | apply reachable_fast_coupled]; exact Hr.
Qed.

Lemma ball_effects_follow_timers_witness : BallEffects inRally.
Proof. apply (ball_effects_follow_timers inRally). apply inRally_facts. Defined.

(** X4.  The power-hit flag is up exactly while its timer runs: in every
    reachable state either the flag is down and the timer is 0, or the flag
    is up and the timer is in (0, 0.5]. *)
Theorem power_hit_flag_follows_timer (s : GameState) : reachable s -> PowerHitFlag s.
Proof. apply reachable_PowerHitFlag. Qed.

Lemma power_hit_flag_follows_timer_witness : PowerHitFlag inRally.
Proof. apply (power_hit_flag_follows_timer inRally). apply inRally_facts. Defined.

(** ** Rally statistics *)

Lemma update_maxRally env s : (maxRally s <= maxRally (update env s))%Z.
Proof.
  destruct (Status_eqb_spec (gameStatus s) playing) as [Hplay | Hno].
  2: { rewrite update_not_playing by assumption. lia. }
  apply (update_playing_preserves (fun s' => (maxRally s <= maxRally s')%Z));
    try exact Hplay.
  all: unfold_phases; unfold adaptiveAIStep; intros; simp_all; break_ifs; simp_all;
    zfacts; lia.
Qed.

(** X5.  In every reachable state the combo is at most the rally count and
    the rally count at most the longest rally of the match, none of them
    negative; and a tick never lowers the longest rally. *)
Theorem rally_counters_ordered (s : GameState) :
  reachable s ->
  (0 <= combo s <= rallyCount s)%Z
  /\ (rallyCount s <= maxRally s)%Z
  /\ forall env, (maxRally s <= maxRally (update env s))%Z.
Proof.
  intros Hr. destruct (reachable_RallyCounters s Hr) as [H1 H2].
  split; [exact H1 |]. split; [exact H2 |]. intros env. apply update_maxRally.
Qed.

Lemma rally_counters_ordered_witness :
  (0 <= combo inRally <= rallyCount inRally)%Z.
Proof. apply (rally_counters_ordered inRally). apply inRally_facts. Defined.

(** ** The end of a match *)

Lemma reachable_MatchOpen s : reachable s -> MatchOpen s.
Proof.
  intros Hr.
  enough (H : (winScore s <= 0)%Z \/ gameStatus s = menu \/ gameStatus s = gameOver
              \/ ((Paddle.score (player s) < winScore s)%Z
                  /\ (Paddle.score (ai s) < winScore s)%Z)).
  { intros Hpos Hst. destruct H as [H | [H | [H | H]]]; [lia | | | exact H];
      destruct Hst as [Hst | Hst]; congruence. }
  revert Hr.
  apply (reachable_keeps (fun s =>
    (winScore s <= 0)%Z \/ gameStatus s = menu \/ gameStatus s = gameOver
    \/ ((Paddle.score (player s) < winScore s)%Z
        /\ (Paddle.score (ai s) < winScore s)%Z)));
    try (intros; apply pickupStep_preserves; [| | assumption]);
    inv_entry; zfacts;
    try (intuition (first [lia | congruence | discriminate])).
Qed.

(** X6.  A match ends exactly when a side reaches the winning score.  In
    every reachable state the scores are not negative; when the match is
    over, the winner is the "P2"/"AI" side with the right paddle's score at
    least [winScore], or the "P1"/"Player" side with the left paddle's score
    at least [winScore]; and while a match with a positive winning score is
    being played or is paused, both scores are below [winScore]. *)
Theorem match_ends_at_win_score (s : GameState) :
  reachable s -> MatchResult s /\ MatchOpen s.
Proof.
  intros Hr. split; [apply reachable_MatchResult | apply reachable_MatchOpen]; exact Hr.
Qed.

Lemma match_ends_at_win_score_witness :
  (Paddle.score (player freshMatch) < winScore freshMatch)%Z
  /\ (Paddle.score (ai freshMatch) < winScore freshMatch)%Z.
Proof.
  destruct (match_ends_at_win_score freshMatch reachable_freshMatch) as [_ H].
  apply H; [reflexivity | left; reflexivity].
Defined.

(** ** Scoring on the right edge *)

(** What the scoring checks do with a ball beyond the right edge. *)
Lemma scoring_right_exit env s :
  CANVAS_WIDTH + 20 < Ball.x (ball s) ->
  scoring env s
  = if (Paddle.score (player s) + 1 >=? winScore s)%Z
    then set_matchEndMs (now env)
           (set_winner (match mode s with multi => "P1" | single => "Player" end)%string
              (set_gameStatus gameOver
                 (upd_player (fun p => Paddle.set_score (Paddle.score p + 1)%Z p) s)))
    else prepareServe toRight
           (upd_player (fun p => Paddle.set_score (Paddle.score p + 1)%Z p) s).
Proof.
  intros Hx. unfold scoring, scoreLeftExit.
  destruct (Rltb_spec (Ball.x (ball s)) (-20)) as [H | _];
    [unfold CANVAS_WIDTH in Hx; lra |].
  unfold scoreRightExit.
  destruct (Rgtb_spec (Ball.x (ball s)) (CANVAS_WIDTH + 20)) as [_ | H]; [| lra].
  simp. reflexivity.
Qed.

(** A playing tick past the serve countdown is the rally, the scoring checks
    and the pickups. *)
Lemma update_rally_tick env s :
  gameStatus s = playing ->
  serveCountdown (tickPrelude (DIFFICULTY_SETTINGS (difficulty s)) env s) <= 0 ->
  update env s
  = pickupStep (scoring env (rallyUntilScoring (DIFFICULTY_SETTINGS (difficulty s)) env
                               (tickPrelude (DIFFICULTY_SETTINGS (difficulty s)) env s))).
Proof.
  intros Hplay Hserve. unfold update. rewrite Hplay. cbn.
  destruct (Rgtb_spec (serveCountdown (tickPrelude (DIFFICULTY_SETTINGS (difficulty s)) env s)) 0)
    as [H | _]; [lra | reflexivity].
Qed.

(** X7.  In a playing tick that is not a serve countdown, if the ball's x is
    above [CANVAS_WIDTH + 20] when the scoring checks run, the left side's
    score grows by exactly 1 and the right side's is untouched; then either
    the new score reaches [winScore] and the game is over with the left side
    as winner ("P1" in two-player mode, "Player" otherwise) and the clock
    reading as [matchEndMs], or a serve begins: the ball at the centre of the
    court at rest, [serveCountdown = 3], served to the right. *)
Theorem right_exit_scores_for_left (env : Env) (s : GameState) :
  gameStatus s = playing ->
  serveCountdown (tickPrelude (DIFFICULTY_SETTINGS (difficulty s)) env s) <= 0 ->
  CANVAS_WIDTH + 20
  < Ball.x (ball (rallyUntilScoring (DIFFICULTY_SETTINGS (difficulty s)) env
                    (tickPrelude (DIFFICULTY_SETTINGS (difficulty s)) env s))) ->
  Paddle.score (player (update env s)) = (Paddle.score (player s) + 1)%Z
  /\ Paddle.score (ai (update env s)) = Paddle.score (ai s)
  /\ ((Paddle.score (player s) + 1 >= winScore s)%Z ->
      gameStatus (update env s) = gameOver
      /\ winner (update env s) = match mode s with multi => "P1" | single => "Player" end%string
      /\ matchEndMs (update env s) = now env)
  /\ ((Paddle.score (player s) + 1 < winScore s)%Z ->
      gameStatus (update env s) = playing
      /\ ball (update env s) = servedBall (difficulty s)
      /\ serveCountdown (update env s) = 3
      /\ serveDirection (update env s) = toRight).
Proof.
  intros Hplay Hserve Hx.
  destruct (before_scoring_frame env s) as (Hai & Hpl & Hwin & Hmode & Hdiff & Hstat).
  cbn zeta in *.
  rewrite (update_rally_tick env s Hplay Hserve).
  set (st := DIFFICULTY_SETTINGS (difficulty s)) in *.
  set (s2 := rallyUntilScoring st env (tickPrelude st env s)) in *.
  rewrite (scoring_right_exit env s2 Hx).
  rewrite Hpl, Hwin, Hmode.
  destruct (Z.geb_spec (Paddle.score (player s) + 1) (winScore s)) as [Hge | Hlt].
  - set (over := set_matchEndMs (now env) _).
    destruct (pickupStep_frame over) as (H1 & H2 & H3 & H4).
    assert (H5 : matchEndMs (pickupStep over) = matchEndMs over).
    { apply (pickupStep_preserves (fun s' => matchEndMs s' = matchEndMs over));
        [| | reflexivity]; unfold_phases; frame. }
    rewrite H1, H2, H3, H4, H5. unfold over. simp. rewrite Hai, Hpl.
    repeat split; intros; try reflexivity; lia.
  - rewrite pickupStep_no_powerUps by reflexivity.
    unfold prepareServe, servedBall. simp. rewrite Hai, Hpl, Hdiff, Hstat.
    repeat split; intros; try reflexivity; try assumption; lia.
Qed.

Lemma leavingRight_facts env :
  serveCountdown (tickPrelude (DIFFICULTY_SETTINGS medium) env leavingRight) = 0
  /\ Ball.x (ball (rallyUntilScoring (DIFFICULTY_SETTINGS medium) env
                     (tickPrelude (DIFFICULTY_SETTINGS medium) env leavingRight)))
     = 818 + 5.
Proof.
  unfold leavingRight. rewrite tickPrelude_rallyState. split; [reflexivity |].
  unfold rallyUntilScoring, rallyState.
  unfold computeDy; settle. unfold ballStep; settle.
  unfold paddleCollisions; settle.
  rewrite checkPaddleCollision_miss by (unfold overlaps; settle; reflexivity).
  settle. reflexivity.
Qed.

Lemma right_exit_scores_for_left_witness :
  Paddle.score (player (update (calmEnv 7000) leavingRight)) = 1%Z
  /\ ball (update (calmEnv 7000) leavingRight) = servedBall medium
  /\ serveDirection (update (calmEnv 7000) leavingRight) = toRight.
Proof.
  destruct (leavingRight_facts (calmEnv 7000)) as [Hserve Hx].
  assert (H1 : gameStatus leavingRight = playing) by reflexivity.
  assert (H2 : serveCountdown
                 (tickPrelude (DIFFICULTY_SETTINGS (difficulty leavingRight))
                    (calmEnv 7000) leavingRight) <= 0).
  { change (difficulty leavingRight) with medium. rewrite Hserve. lra. }
  assert (H3 : CANVAS_WIDTH + 20
               < Ball.x (ball (rallyUntilScoring (DIFFICULTY_SETTINGS (difficulty leavingRight))
                                 (calmEnv 7000)
                                 (tickPrelude (DIFFICULTY_SETTINGS (difficulty leavingRight))
                                    (calmEnv 7000) leavingRight)))).
  { change (difficulty leavingRight) with medium. rewrite Hx. unfold CANVAS_WIDTH. lra. }
  destruct (right_exit_scores_for_left (calmEnv 7000) leavingRight H1 H2 H3)
    as (Hscore & _ & _ & Hserved).
  assert (Hlt : (Paddle.score (player leavingRight) + 1 < winScore leavingRight)%Z)
    by (cbn; lia).
  destruct (Hserved Hlt) as (_ & Hball & _ & Hdir).
  repeat split; assumption.
Defined.

(** ** At most one point per tick *)

Lemma serve_tick_frame env s :
  let st := DIFFICULTY_SETTINGS (difficulty s) in
  Paddle.score (ai (serveStep env (tickPrelude st env s))) = Paddle.score (ai s)
  /\ Paddle.score (player (serveStep env (tickPrelude st env s))) = Paddle.score (player s).
Proof.
  intros st.
  set (P := fun s' : GameState =>
    Paddle.score (ai s') = Paddle.score (ai s)
    /\ Paddle.score (player s') = Paddle.score (player s)).
  assert (Hpre : P (tickPrelude st env s)).
  { apply tickPrelude_preserves; try (unfold P; repeat split; fail).
    all: unfold P; unfold_phases; unfold adaptiveAIStep; frame. }
  revert Hpre. generalize (tickPrelude st env s). intros s1 Hpre.
  change (P (serveStep env s1)). revert Hpre. unfold P, serveStep, resetBall. frame.
Qed.

(** X8.  One tick changes the score by at most one point in total: either
    both scores are as before, or one side has exactly one point more and
    the other side's score is untouched. *)
Theorem tick_awards_at_most_one_point (env : Env) (s : GameState) :
  (Paddle.score (player (update env s)) = Paddle.score (player s)
   /\ Paddle.score (ai (update env s)) = Paddle.score (ai s))
  \/ (Paddle.score (player (update env s)) = (Paddle.score (player s) + 1)%Z
      /\ Paddle.score (ai (update env s)) = Paddle.score (ai s))
  \/ (Paddle.score (player (update env s)) = Paddle.score (player s)
      /\ Paddle.score (ai (update env s)) = (Paddle.score (ai s) + 1)%Z).
Proof.
  destruct (Status_eqb_spec (gameStatus s) playing) as [Hplay | Hno].
  2: { rewrite update_not_playing by assumption. left. split; reflexivity. }
  destruct (Rle_or_lt (serveCountdown (tickPrelude (DIFFICULTY_SETTINGS (difficulty s)) env s)) 0)
    as [Hserve | Hserve].
  - rewrite (update_rally_tick env s Hplay Hserve).
    destruct (before_scoring_frame env s) as (Hai & Hpl & _). cbn zeta in *.
    set (s2 := rallyUntilScoring _ env _) in *.
    destruct (pickupStep_frame (scoring env s2)) as (H1 & H2 & _). rewrite H1, H2.
    destruct (Rlt_or_le (Ball.x (ball s2)) (-20)) as [Hl | Hl];
      [| destruct (Rlt_or_le (CANVAS_WIDTH + 20) (Ball.x (ball s2))) as [Hr | Hr]].
    + right. right. rewrite (scoring_left_exit env s2 Hl). cbn zeta.
      destruct (Paddle.score (ai s2) + 1 >=? winScore s2)%Z;
        unfold prepareServe; simp; rewrite Hai, Hpl; split; reflexivity.
    + right. left. rewrite (scoring_right_exit env s2 Hr).
      destruct (Paddle.score (player s2) + 1 >=? winScore s2)%Z;
        unfold prepareServe; simp; rewrite Hai, Hpl; split; reflexivity.
    + left. rewrite scoring_in_court by lra. split; assumption.
  - left. destruct (serve_tick_frame env s) as [Hai Hpl]. cbn zeta in *.
    unfold update. rewrite Hplay. cbn.
    destruct (Rgtb_spec (serveCountdown (tickPrelude (DIFFICULTY_SETTINGS (difficulty s)) env s)) 0)
      as [_ | H]; [| lra].
    split; assumption.
Qed.

(** ** Pausing *)

Lemma ticks_not_playing envs : forall s, gameStatus s <> playing -> ticks envs s = s.
Proof.
  unfold ticks. induction envs as [| env envs IH]; intros s H; [reflexivity |].
  cbn [fold_left]. rewrite update_not_playing by assumption. apply IH. exact H.
Qed.

Lemma resume_paused s :
  gameStatus s = playing -> set_gameStatus playing (set_gameStatus paused s) = s.
Proof. intros H. destruct s. cbn in H. subst. reflexivity. Qed.

(** X9.  Pausing freezes the match: whatever ticks the host loop runs while
    the match is paused (by the pause key or because the tab lost focus),
    resuming gives back exactly the state in which the match was paused; and
    outside play and pause [togglePause] does nothing. *)
Theorem pause_freezes_match (envs : list Env) (s : GameState) :
  (gameStatus s = playing ->
   togglePause (ticks envs (togglePause s)) = s
   /\ togglePause (ticks envs (pauseIfPlaying s)) = s)
  /\ (gameStatus s = menu \/ gameStatus s = gameOver -> togglePause s = s).
Proof.
  split.
  - intros Hplay. unfold togglePause at 2, pauseIfPlaying. rewrite Hplay.
    rewrite ticks_not_playing by (cbn; discriminate).
    unfold togglePause. cbn. split; apply resume_paused; exact Hplay.
  - unfold togglePause. intros [H | H]; rewrite H; reflexivity.
Qed.

Lemma pause_freezes_match_witness :
  togglePause (ticks [calmEnv 2000; calmEnv 2016; calmEnv 2033] (togglePause freshMatch))
  = freshMatch.
Proof.
  destruct (pause_freezes_match [calmEnv 2000; calmEnv 2016; calmEnv 2033] freshMatch)
    as [H _].
  assert (Hplay : gameStatus freshMatch = playing) by reflexivity.
  destruct (H Hplay) as [H1 _]. exact H1.
Defined.

(** ** A new match *)

(** X10.  [startGame] carries nothing over from the previous match: its
    result depends on the state it is called in only through the key set and
    the mouse flag and position, which it leaves alone. *)
Theorem startGame_forgets_previous_match (diff : Difficulty) (winAt : Z) (gameMode : GameMode)
    (opts : Options) (t : Z) (rnd : R) (s1 s2 : GameState) :
  keysRef s1 = keysRef s2 ->
  useMouseRef s1 = useMouseRef s2 ->
  mouseYRef s1 = mouseYRef s2 ->
  startGame diff winAt gameMode opts t rnd s1 = startGame diff winAt gameMode opts t rnd s2.
Proof.
  intros Hk Hm Hy. destruct s1, s2. cbn in Hk, Hm, Hy. subst. reflexivity.
Qed.

Lemma startGame_forgets_previous_match_witness :
  startGame hard 5 multi defaultOptions 9000 0.25 leavingLeft
  = startGame hard 5 multi defaultOptions 9000 0.25 initialState.
Proof.
  apply startGame_forgets_previous_match; reflexivity.
Defined.

(** ** What a tick leaves alone *)

(** X11.  [update] never changes the configuration of the match (difficulty,
    winning score, mode, the option flags, the start time) nor the input
    state that the handlers own (key set, mouse position, touch flag). *)
Theorem update_keeps_configuration (env : Env) (s : GameState) :
  difficulty (update env s) = difficulty s
  /\ winScore (update env s) = winScore s
  /\ mode (update env s) = mode s
  /\ adaptiveAI (update env s) = adaptiveAI s
  /\ powerUpsEnabled (update env s) = powerUpsEnabled s
  /\ powerUpSpawnRate (update env s) = powerUpSpawnRate s
  /\ matchStartMs (update env s) = matchStartMs s
  /\ keysRef (update env s) = keysRef s
  /\ mouseYRef (update env s) = mouseYRef s
  /\ touchActiveRef (update env s) = touchActiveRef s.
Proof.
  set (P := fun s' : GameState =>
    difficulty s' = difficulty s /\ winScore s' = winScore s /\ mode s' = mode s
    /\ adaptiveAI s' = adaptiveAI s /\ powerUpsEnabled s' = powerUpsEnabled s
    /\ powerUpSpawnRate s' = powerUpSpawnRate s /\ matchStartMs s' = matchStartMs s
    /\ keysRef s' = keysRef s /\ mouseYRef s' = mouseYRef s
    /\ touchActiveRef s' = touchActiveRef s).
  change (P (update env s)).
  destruct (Status_eqb_spec (gameStatus s) playing) as [Hplay | Hno].
  2: { rewrite update_not_playing by assumption. unfold P. repeat split. }
  apply update_playing_preserves; try exact Hplay; try (unfold P; repeat split; fail).
  all: unfold P; unfold_phases; unfold adaptiveAIStep; frame.
Qed.

(** ** A serve starts on a clean court *)

Ltac close_inv := try (intuition (first [lra | congruence | discriminate | lia])).

(** Use the facts that hold while a countdown is positive where arithmetic
    shows that it is, and drop them where it does not. *)
Ltac feed :=
  repeat match goal with
  | H : 0 < ?x -> _ |- _ =>
      first [ let Hx := fresh in
              assert (Hx : 0 < x) by lra; specialize (H Hx); clear Hx
            | clear H ]
  end.

(** The four comparisons behind a successful overlap test. *)
Ltac ofacts :=
  repeat match goal with
  | H : overlaps _ _ = true |- _ =>
      unfold overlaps in H; rewrite !andb_true_iff in H; destruct H as [[[? ?] ?] ?]
  end; rfacts.

Ltac close_fed :=
  intros; split_cases;
  repeat match goal with |- _ /\ _ => split | |- _ -> _ => intro end;
  feed; split_cases;
  first [ lra | congruence | lia | discriminate ].

Lemma pickupStep_serveCountdown s : serveCountdown (pickupStep s) = serveCountdown s.
Proof.
  apply (pickupStep_preserves (fun s' => serveCountdown s' = serveCountdown s));
    [| | reflexivity]; unfold_phases; frame.
Qed.

Lemma pickupStep_FairServe s : FairServe s -> FairServe (pickupStep s).
Proof.
  intros (Hg & Hle & Hclean).
  destruct (Rlt_or_le 0 (serveCountdown s)) as [Hpos | Hno].
  - rewrite pickupStep_no_powerUps by (apply Hclean; exact Hpos).
    split; [| split]; assumption.
  - split; [| split].
    + revert Hg. apply pickupStep_preserves; unfold CourtGeometry; inv_entry; close_inv.
    + rewrite pickupStep_serveCountdown. exact Hle.
    + rewrite pickupStep_serveCountdown. intros H. lra.
Qed.

Lemma reachable_FairServe s : reachable s -> FairServe s.
Proof.
  apply reachable_keeps; try (intros; apply pickupStep_FairServe; assumption);
    unfold FairServe, CleanCourt, CourtGeometry; inv_entry; try close_fed.
  all: ofacts; close_fed.
Qed.

(** X12.  While a serve countdown is pending in a reachable state, the court
    is clean: no power-up lies on it, no enlarge, shrink, slow or fast effect
    is running (timers 0, factors 1), both paddles have their normal height,
    the ball rests in the centre with the difficulty's base speed, and the
    rally and combo counters are 0.  The countdown never exceeds 3 seconds. *)
Theorem serve_starts_on_clean_court (s : GameState) :
  reachable s ->
  serveCountdown s <= 3
  /\ (0 < serveCountdown s -> CleanCourt s /\ ball s = servedBall (difficulty s)).
Proof.
  intros Hr. destruct (reachable_FairServe s Hr) as (Hg & Hle & Hclean).
  split; [exact Hle |]. intros Hpos. specialize (Hclean Hpos). split; [exact Hclean |].
  destruct Hg as (Hrad & _).
  destruct Hclean as (_ & _ & _ & _ & _ & _ & _ & _ & _ & _ & _ & Hx & Hy & Hvx & Hvy & Hv & _).
  unfold servedBall. destruct (ball s). cbn in *. subst. reflexivity.
Qed.

Lemma serve_starts_on_clean_court_witness :
  CleanCourt freshMatch /\ ball freshMatch = servedBall medium.
Proof.
  destruct (serve_starts_on_clean_court freshMatch reachable_freshMatch) as [_ H].
  apply H. change (serveCountdown freshMatch) with 3. lra.
Defined.

(** ** The serve, tick by tick *)

Lemma tickPrelude_serve_frame d env s :
  ballSlowTimer s = 0 -> ballFastTimer s = 0 ->
  ball (tickPrelude (DIFFICULTY_SETTINGS d) env s) = ball s.
Proof.
  intros Hs Hf.
  enough (H : ball (tickPrelude (DIFFICULTY_SETTINGS d) env s) = ball s
              /\ ballSlowTimer (tickPrelude (DIFFICULTY_SETTINGS d) env s) = 0
              /\ ballFastTimer (tickPrelude (DIFFICULTY_SETTINGS d) env s) = 0) by apply H.
  apply (tickPrelude_preserves
           (fun s' => ball s' = ball s /\ ballSlowTimer s' = 0 /\ ballFastTimer s' = 0));
    try (repeat split; assumption).
  all: unfold_phases; unfold adaptiveAIStep; intros; simp_all;
    repeat (rcase; simp_all); break_ifs; simp_all; try (intuition lra).
Qed.

Lemma tickPrelude_serveDirection d env s :
  serveDirection (tickPrelude (DIFFICULTY_SETTINGS d) env s) = serveDirection s.
Proof.
  apply (tickPrelude_preserves (fun s' => serveDirection s' = serveDirection s));
    try reflexivity; unfold_phases; unfold adaptiveAIStep; frame.
Qed.

Lemma update_serving env s :
  gameStatus s = playing ->
  0 < serveCountdown s ->
  update env s = serveStep env (tickPrelude (DIFFICULTY_SETTINGS (difficulty s)) env s).
Proof.
  intros Hplay Hc.
  destruct (tickPrelude_status_serve (difficulty s) env s) as (_ & Hsc & _).
  unfold update. rewrite Hplay. cbn.
  destruct (Rgtb_spec (serveCountdown (tickPrelude (DIFFICULTY_SETTINGS (difficulty s)) env s)) 0)
    as [_ | H]; [reflexivity | lra].
Qed.

(** X13.  During the serve countdown a tick of a reachable playing state
    leaves the ball exactly as it is and takes [dt] off the countdown, as long
    as more than [dt] is left. *)
Theorem serve_holds_ball (env : Env) (s : GameState) :
  reachable s ->
  gameStatus s = playing ->
  dt < serveCountdown s ->
  ball (update env s) = ball s
  /\ serveCountdown (update env s) = serveCountdown s - dt
  /\ gameStatus (update env s) = playing.
Proof.
  intros Hr Hplay Hc.
  assert (Hpos : 0 < serveCountdown s) by (unfold dt in Hc; lra).
  destruct (reachable_FairServe s Hr) as (_ & _ & Hclean). specialize (Hclean Hpos).
  destruct Hclean as (_ & _ & _ & _ & _ & Hst & _ & Hft & _).
  destruct (tickPrelude_status_serve (difficulty s) env s) as (Hstat & Hsc & _).
  pose proof (tickPrelude_serve_frame (difficulty s) env s Hst Hft) as Hball.
  rewrite (update_serving env s Hplay Hpos).
  unfold serveStep. simp. rewrite Hsc.
  destruct (Rleb_spec (serveCountdown s - dt) 0) as [H | _]; [lra |].
  simp. rewrite ?Hball, ?Hsc, ?Hstat. repeat split. exact Hplay.
Qed.

Lemma serve_holds_ball_witness :
  ball (update (calmEnv 2000) freshMatch) = servedBall medium
  /\ serveCountdown (update (calmEnv 2000) freshMatch) = 3 - dt.
Proof.
  assert (Hplay : gameStatus freshMatch = playing) by reflexivity.
  assert (Hc : dt < serveCountdown freshMatch).
  { change (serveCountdown freshMatch) with 3. unfold dt. lra. }
  destruct (serve_holds_ball (calmEnv 2000) freshMatch reachable_freshMatch Hplay Hc)
    as (Hb & Hs & _).
  split; [rewrite Hb; reflexivity | rewrite Hs; reflexivity].
Defined.

(** X14.  The tick in which the countdown runs out (at most [dt] is left)
    launches the ball: it leaves the centre of the court in the stored serve
    direction with the difficulty's base speed [5 * ballSpeedMul] as
    horizontal velocity and [(rnd - 0.5) * 3] as vertical velocity, the
    countdown is 0, and rally, combo and the power-hit flag are reset. *)
Theorem serve_launches_ball (env : Env) (s : GameState) :
  gameStatus s = playing ->
  0 < serveCountdown s <= dt ->
  ball (update env s) = launchedBall (difficulty s) (serveDirection s) (rndServeVy env)
  /\ serveCountdown (update env s) = 0
  /\ rallyCount (update env s) = 0%Z
  /\ combo (update env s) = 0%Z
  /\ isPowerHit (update env s) = false
  /\ powerHitTimer (update env s) = 0.
Proof.
  intros Hplay [Hpos Hle].
  destruct (tickPrelude_status_serve (difficulty s) env s) as (_ & Hsc & Hd).
  pose proof (tickPrelude_serveDirection (difficulty s) env s) as Hdir.
  rewrite (update_serving env s Hplay Hpos).
  unfold serveStep. simp. rewrite Hsc.
  destruct (Rleb_spec (serveCountdown s - dt) 0) as [_ | H]; [| lra].
  unfold resetBall, launchedBall. simp. rewrite ?Hd, ?Hdir. repeat split.
Qed.

Lemma serve_launches_ball_witness :
  ball (update (calmEnv 4990) lastServeTick) = launchedBall medium toRight 0.5.
Proof.
  assert (Hplay : gameStatus lastServeTick = playing) by reflexivity.
  assert (Hc : 0 < serveCountdown lastServeTick <= dt).
  { change (serveCountdown lastServeTick) with dt. unfold dt. lra. }
  destruct (serve_launches_ball (calmEnv 4990) lastServeTick Hplay Hc) as (Hb & _).
  rewrite Hb. change (difficulty lastServeTick) with medium.
  replace (serveDirection lastServeTick) with toRight; [reflexivity |].
  unfold lastServeTick, freshMatch, startGame, prepareServe. simp. rdecide. reflexivity.
Defined.

(** ** The rally after the launch *)

Lemma reachable_ticks env n : reachable (Nat.iter n (update env) freshMatch).
Proof.
  induction n as [| n IH].
  - apply reachable_freshMatch.
  - rewrite Nat.iter_succ. eapply reachable_step; [exact IH | apply step_update].
Qed.

(** With no slow or fast timer running, the prelude of a tick leaves the
    ball and both timers as they are. *)
Lemma tickPrelude_idle_ball d env s :
  ballSlowTimer s = 0 -> ballFastTimer s = 0 ->
  ball (tickPrelude (DIFFICULTY_SETTINGS d) env s) = ball s
  /\ ballSlowTimer (tickPrelude (DIFFICULTY_SETTINGS d) env s) = 0
  /\ ballFastTimer (tickPrelude (DIFFICULTY_SETTINGS d) env s) = 0.
Proof.
  intros Hs Hf.
  apply (tickPrelude_preserves
           (fun s' => ball s' = ball s /\ ballSlowTimer s' = 0 /\ ballFastTimer s' = 0));
    try (repeat split; assumption).
  all: unfold_phases; unfold adaptiveAIStep; intros; simp_all;
    repeat (rcase; simp_all); break_ifs; simp_all; try (intuition lra).
Qed.

(** The prelude of a tick and the ball movement leave the paddles in their
    columns. *)
Lemma tickPrelude_paddle_columns d env s :
  Paddle.x (player (tickPrelude (DIFFICULTY_SETTINGS d) env s)) = Paddle.x (player s)
  /\ Paddle.width (player (tickPrelude (DIFFICULTY_SETTINGS d) env s))
     = Paddle.width (player s)
  /\ Paddle.x (ai (tickPrelude (DIFFICULTY_SETTINGS d) env s)) = Paddle.x (ai s)
  /\ Paddle.width (ai (tickPrelude (DIFFICULTY_SETTINGS d) env s)) = Paddle.width (ai s).
Proof.
  apply (tickPrelude_preserves
           (fun s' => Paddle.x (player s') = Paddle.x (player s)
                      /\ Paddle.width (player s') = Paddle.width (player s)
                      /\ Paddle.x (ai s') = Paddle.x (ai s)
                      /\ Paddle.width (ai s') = Paddle.width (ai s)));
    try (repeat split; fail); unfold_phases; unfold adaptiveAIStep; frame.
Qed.

Lemma ballStep_frame s :
  Ball.x (ball (ballStep s)) = Ball.x (ball s) + Ball.vx (ball s)
  /\ Ball.radius (ball (ballStep s)) = Ball.radius (ball s)
  /\ player (ballStep s) = player s /\ ai (ballStep s) = ai s
  /\ gameStatus (ballStep s) = gameStatus s
  /\ serveCountdown (ballStep s) = serveCountdown s.
Proof. unfold ballStep. simp. break_ifs; repeat split; reflexivity. Qed.

(** A ball whose edge does not reach a paddle's column misses the paddle. *)
Lemma overlaps_far b p :
  Paddle.x p + Paddle.width p <= Ball.x b - Ball.radius b
  \/ Ball.x b + Ball.radius b <= Paddle.x p ->
  overlaps b p = false.
Proof.
  intros H. unfold overlaps.
  destruct (Rltb_spec (Ball.x b - Ball.radius b) (Paddle.x p + Paddle.width p)) as [H1 | _];
    [| reflexivity].
  destruct (Rgtb_spec (Ball.x b + Ball.radius b) (Paddle.x p)) as [H2 | _];
    [| reflexivity].
  destruct H; lra.
Qed.

(** The tick that ends a serve countdown leaves the ball in the centre, on
    its way at the difficulty's base speed, with no ball effect running. *)
Lemma update_launch env s :
  reachable s ->
  gameStatus s = playing ->
  0 < serveCountdown s <= dt ->
  gameStatus (update env s) = playing
  /\ serveCountdown (update env s) = 0
  /\ Ball.x (ball (update env s)) = CANVAS_WIDTH / 2
  /\ Ball.radius (ball (update env s)) = BALL_RADIUS
  /\ Rabs (Ball.vx (ball (update env s))) <= 6.5
  /\ ballSlowTimer (update env s) = 0
  /\ ballFastTimer (update env s) = 0.
Proof.
  intros Hr Hplay [Hpos Hle].
  destruct (reachable_FairServe s Hr) as (_ & _ & Hclean). specialize (Hclean Hpos).
  destruct Hclean as (_ & _ & _ & _ & _ & Hst & _ & Hft & _).
  destruct (tickPrelude_status_serve (difficulty s) env s) as (Hstat & Hsc & _).
  destruct (tickPrelude_idle_ball (difficulty s) env s Hst Hft) as (_ & Hst' & Hft').
  rewrite (update_serving env s Hplay Hpos).
  set (s0 := tickPrelude (DIFFICULTY_SETTINGS (difficulty s)) env s) in *.
  unfold serveStep. simp. rewrite Hsc.
  destruct (Rleb_spec (serveCountdown s - dt) 0) as [_ | H]; [| lra].
  unfold resetBall. simp. rewrite Hstat, Hst', Hft'.
  repeat split; try assumption.
  unfold BALL_INITIAL_SPEED.
  destruct (difficulty s0), (serveDirection s0); cbn; rminmax; lra.
Qed.

Lemma inRally_launched :
  reachable inRally
  /\ gameStatus inRally = playing
  /\ serveCountdown inRally = 0
  /\ Ball.x (ball inRally) = CANVAS_WIDTH / 2
  /\ Ball.radius (ball inRally) = BALL_RADIUS
  /\ Rabs (Ball.vx (ball inRally)) <= 6.5
  /\ ballSlowTimer inRally = 0
  /\ ballFastTimer inRally = 0.
Proof.
  split; [apply inRally_facts |].
  unfold inRally. change 180%nat with (S 179). rewrite Nat.iter_succ.
  destruct (serve_countdown_runs (calmEnv 2000) 179 0 freshMatch) as [Hp Hc].
  - reflexivity.
  - change (serveCountdown freshMatch) with 3.
    rewrite INR_IZR_INZ. change (Z.of_nat (179 + 1)) with 180%Z. unfold dt. lra.
  - apply update_launch; [apply reachable_ticks | exact Hp |].
    rewrite Hc. cbn [INR]. unfold dt. lra.
Qed.

(** The first tick after the launch is an ordinary rally tick: the ball is
    still near the centre, so nothing is hit and nothing is scored. *)
Lemma afterLaunch_facts :
  reachable afterLaunch /\ gameStatus afterLaunch = playing /\ serveCountdown afterLaunch = 0.
Proof.
  destruct inRally_launched as (Hr & Hplay & Hsc & Hx & Hrad & Hvx & Hst & Hft).
  split.
  { unfold afterLaunch. eapply reachable_step; [exact Hr | apply step_update]. }
  destruct (reachable_CourtGeometry inRally Hr) as (_ & Hpx & Hpw & Hax & Haw).
  set (env := calmEnv 2000).
  destruct (tickPrelude_status_serve (difficulty inRally) env inRally) as (Hstat0 & Hsc0 & _).
  destruct (tickPrelude_idle_ball (difficulty inRally) env inRally Hst Hft) as (Hball0 & _).
  destruct (tickPrelude_paddle_columns (difficulty inRally) env inRally)
    as (Hpx0 & Hpw0 & Hax0 & Haw0).
  assert (Hupd : afterLaunch
                 = pickupStep (scoring env
                     (rallyUntilScoring (DIFFICULTY_SETTINGS (difficulty inRally)) env
                        (tickPrelude (DIFFICULTY_SETTINGS (difficulty inRally)) env inRally)))).
  { unfold afterLaunch. apply update_rally_tick; [exact Hplay |]. rewrite Hsc0, Hsc. lra. }
  set (s0 := tickPrelude (DIFFICULTY_SETTINGS (difficulty inRally)) env inRally) in *.
  destruct (ballStep_frame s0) as (Hx1 & Hrad1 & Hp1 & Ha1 & Hstat1 & Hsc1).
  rewrite Hball0 in Hx1, Hrad1. rewrite Hx, Hrad in *.
  assert (Hvx' : -6.5 <= Ball.vx (ball inRally) <= 6.5).
  { revert Hvx. generalize (Ball.vx (ball inRally)). intros v Hv.
    destruct (Rabs_cases v) as [[? E] | [? E]]; rewrite E in Hv; lra. }
  assert (Hmiss : rallyUntilScoring (DIFFICULTY_SETTINGS (difficulty inRally)) env s0
                  = ballStep s0).
  { unfold rallyUntilScoring, paddleCollisions.
    destruct (Ball.vx (ball (ballStep s0)) <? 0); apply checkPaddleCollision_miss;
      apply overlaps_far; rewrite Hx1, Hrad1.
    - left. rewrite Hp1, Hpx0, Hpw0, Hpx, Hpw. unfold_consts. lra.
    - right. rewrite Ha1, Hax0, Hax. unfold_consts. lra. }
  rewrite Hupd, Hmiss.
  rewrite scoring_in_court by (rewrite Hx1; unfold_consts; lra).
  destruct (pickupStep_frame (ballStep s0)) as (_ & _ & Hstat2 & _).
  rewrite Hstat2, pickupStep_serveCountdown, Hstat1, Hsc1, Hstat0, Hsc0.
  split; assumption.
Qed.

Lemma one_paddle_tested_per_tick_witness :
  Ball.vx (ball (ballStep (tickPrelude (DIFFICULTY_SETTINGS (difficulty afterLaunch))
                             (calmEnv 5000) afterLaunch))) <> 0.
Proof.
  destruct afterLaunch_facts as (Hreach & Hplay & Hzero).
  assert (Hserve : serveCountdown (tickPrelude (DIFFICULTY_SETTINGS (difficulty afterLaunch))
                                     (calmEnv 5000) afterLaunch) <= 0).
  { rewrite (proj1 (proj2 (tickPrelude_status_serve (difficulty afterLaunch)
                             (calmEnv 5000) afterLaunch))).
    rewrite Hzero. lra. }
  exact (proj1 (one_paddle_tested_per_tick (calmEnv 5000) afterLaunch Hreach Hplay Hserve)).
Defined.

(** ** Paddles and the walls *)

Lemma clampPaddleY_range h y :
  h <= CANVAS_HEIGHT -> 0 <= clampPaddleY h y <= CANVAS_HEIGHT - h.
Proof. intros Hh. unfold clampPaddleY. rminmax; lra. Qed.

(** Whatever moved the paddles, [movePaddles] ends by clamping both. *)
Lemma movePaddles_clamps st env s :
  (exists y0, Paddle.y (player (movePaddles st env s))
              = clampPaddleY (Paddle.height (player s)) y0)
  /\ (exists y0, Paddle.y (ai (movePaddles st env s))
                 = clampPaddleY (Paddle.height (ai s)) y0)
  /\ Paddle.height (player (movePaddles st env s)) = Paddle.height (player s)
  /\ Paddle.height (ai (movePaddles st env s)) = Paddle.height (ai s).
Proof.
  unfold movePaddles, keyboardMove, clampPaddle. simp.
  break_ifs; repeat split; eexists; reflexivity.
Qed.

Lemma movePaddles_in_court st env s :
  HeightsBounded s /\ PaddlesInCourt s ->
  HeightsBounded (movePaddles st env s) /\ PaddlesInCourt (movePaddles st env s).
Proof.
  intros [[Hp Ha] _].
  destruct (movePaddles_clamps st env s) as ((yp & Hyp) & (ya & Hya) & Hhp & Hha).
  unfold HeightsBounded, PaddlesInCourt. rewrite Hyp, Hya, Hhp, Hha.
  pose proof (clampPaddleY_range (Paddle.height (player s)) yp) as H1.
  pose proof (clampPaddleY_range (Paddle.height (ai s)) ya) as H2.
  unfold_consts. lra.
Qed.

Lemma reachable_paddles_in_court s : reachable s -> HeightsBounded s /\ PaddlesInCourt s.
Proof.
  apply (reachable_keeps (fun s => HeightsBounded s /\ PaddlesInCourt s));
    try (intros; apply movePaddles_in_court; assumption);
    try (intros; apply pickupStep_preserves; [| | assumption]);
    unfold HeightsBounded, PaddlesInCourt; inv_entry; unfold clampPaddleY;
    unfold_consts; mdecide; try (intuition lra); rminmax; repeat split; lra.
Qed.

(** X15.  In every reachable state the top edge of each paddle is inside the
    court, between 0 and [CANVAS_HEIGHT - 0.6 * PADDLE_HEIGHT]; and the
    movement phase of a tick leaves both paddles entirely between the walls,
    whatever the keys, the mouse, the touches or the AI asked for. *)
Theorem paddles_stay_in_court (s : GameState) :
  reachable s ->
  PaddlesInCourt s
  /\ forall st env,
       insideCourt (player (movePaddles st env s))
       /\ insideCourt (ai (movePaddles st env s)).
Proof.
  intros Hr. destruct (reachable_paddles_in_court s Hr) as [[Hp Ha] Hin].
  split; [exact Hin |]. intros st env.
  destruct (movePaddles_clamps st env s) as ((yp & Hyp) & (ya & Hya) & Hhp & Hha).
  unfold insideCourt. rewrite Hyp, Hya, Hhp, Hha.
  pose proof (clampPaddleY_range (Paddle.height (player s)) yp) as H1.
  pose proof (clampPaddleY_range (Paddle.height (ai s)) ya) as H2.
  unfold_consts. lra.
Qed.

Lemma paddles_stay_in_court_witness :
  PaddlesInCourt inRally
  /\ insideCourt (player (movePaddles (DIFFICULTY_SETTINGS hard) (calmEnv 5000) inRally)).
Proof.
  destruct (paddles_stay_in_court inRally (proj1 inRally_facts)) as [H1 H2].
  split; [exact H1 | apply H2].
Defined.

(** ** How fast the ball can cross the court *)

Lemma checkPaddleCollision_timers st t p isPlayer s :
  ballSlowTimer (checkPaddleCollision st t p isPlayer s) = ballSlowTimer s
  /\ ballFastTimer (checkPaddleCollision st t p isPlayer s) = ballFastTimer s
  /\ difficulty (checkPaddleCollision st t p isPlayer s) = difficulty s.
Proof. unfold checkPaddleCollision. simp. break_ifs; repeat split; reflexivity. Qed.

Lemma factorCoupled_pos timer factor active :
  0 < active -> factorCoupled timer factor active -> 0 < factor.
Proof. unfold factorCoupled. intros Ha [[_ H] | [_ H]]; lra. Qed.

Lemma checkPaddleCollision_SpeedBounded t p isPlayer s :
  BallEffects s /\ SpeedBounded s ->
  BallEffects (checkPaddleCollision (DIFFICULTY_SETTINGS (difficulty s)) t p isPlayer s)
  /\ SpeedBounded (checkPaddleCollision (DIFFICULTY_SETTINGS (difficulty s)) t p isPlayer s).
Proof.
  intros [[Hslow Hfast] [Hv Hvx]].
  destruct (overlaps (ball s) p) eqn:Hov.
  2: { rewrite checkPaddleCollision_miss by assumption. repeat split; assumption. }
  set (st := DIFFICULTY_SETTINGS (difficulty s)) in *.
  destruct (checkPaddleCollision_timers st t p isPlayer s) as (Hts & Htf & Hd).
  destruct (checkPaddleCollision_factors st t p isPlayer s) as (Hfs & Hff).
  pose proof (checkPaddleCollision_speed st t p isPlayer s Hov) as Hsp.
  destruct (checkPaddleCollision_velocity st t p isPlayer s Hov) as (Hvel & _).
  cbn zeta in *.
  assert (Hm : 0 < ballSpeedMul st) by apply ballSpeedMul_pos.
  assert (Hsf : 0 < ballSlowFactor s)
    by (apply (factorCoupled_pos (ballSlowTimer s) _ 0.6); [lra | exact Hslow]).
  assert (Hffp : 0 < ballFastFactor s)
    by (apply (factorCoupled_pos (ballFastTimer s) _ 1.6); [lra | exact Hfast]).
  set (v := Rmin (Ball.speed (ball s) * 1.05) (14 * ballSpeedMul st)) in *.
  assert (Hv1 : 0 < v <= 14 * ballSpeedMul st).
  { unfold v. destruct (Rmin_cases (Ball.speed (ball s) * 1.05) (14 * ballSpeedMul st))
      as [[? ->] | [? ->]]; lra. }
  unfold BallEffects, SpeedBounded. rewrite Hts, Htf, Hfs, Hff, Hd, Hsp, Hvel. fold st.
  split; [split; assumption |]. split.
  - destruct (Rabs (Paddle.dy p) >? 4); [| lra].
    destruct (Rmin_cases (v * 1.2) (16 * ballSpeedMul st)) as [[? ->] | [? ->]]; lra.
  - set (m := ballSlowFactor s * ballFastFactor s).
    assert (Hmp : 0 < m) by (unfold m; apply Rmult_lt_0_compat; assumption).
    set (c := cos _).
    assert (Hc : Rabs c <= 1).
    { unfold c. apply Rabs_le. pose proof (COS_bound
        ((Ball.y (ball s) - (Paddle.y p + Paddle.height p / 2)) / (Paddle.height p / 2)
         * (PI / 3))) as [? ?]. split; lra. }
    set (side := if isPlayer then 1 else -1).
    assert (Hside : Rabs side = 1).
    { unfold side. destruct isPlayer; [apply Rabs_R1 |].
      rewrite Rabs_left by lra. lra. }
    rewrite !Rabs_mult, Hside, (Rabs_right v) by lra.
    rewrite (Rabs_right m) by lra.
    assert (H1 : Rabs c * v <= 1 * v).
    { apply Rmult_le_compat_r; lra. }
    assert (H2 : Rabs c * v * m <= 14 * ballSpeedMul st * m).
    { apply Rmult_le_compat_r; lra. }
    lra.
Qed.

Lemma paddleCollisions_SpeedBounded env s :
  BallEffects s /\ SpeedBounded s ->
  BallEffects (paddleCollisions (DIFFICULTY_SETTINGS (difficulty s)) env s)
  /\ SpeedBounded (paddleCollisions (DIFFICULTY_SETTINGS (difficulty s)) env s).
Proof.
  intros H. unfold paddleCollisions.
  destruct (Ball.vx (ball s) <? 0); apply checkPaddleCollision_SpeedBounded; exact H.
Qed.

(** Replace each factor by the value the context gives it. *)
Ltac use_factors :=
  repeat match goal with
  | H : ballSlowFactor ?s = _ |- _ => generalize dependent (ballSlowFactor s); intros; subst
  | H : ballFastFactor ?s = _ |- _ => generalize dependent (ballFastFactor s); intros; subst
  end.

(** The cases of every [Rabs] in the context as well. *)
Ltac note_abs_hyps :=
  repeat match goal with
  | H : context [Rabs ?a] |- _ =>
      lazymatch goal with
      | _ : (0 <= a /\ Rabs a = a) \/ _ |- _ => fail
      | _ => pose proof (Rabs_cases a)
      end
  end.

Ltac close_cases :=
  note_abs_hyps; rminmax; repeat split; try lra;
  first [ left; repeat split; lra | right; repeat split; lra ].

Lemma reachable_SpeedBounded s : reachable s -> BallEffects s /\ SpeedBounded s.
Proof.
  apply (reachable_keeps (fun s => BallEffects s /\ SpeedBounded s));
    try (intros; apply paddleCollisions_SpeedBounded; assumption);
    try (intros; apply pickupStep_preserves; [| | assumption]);
    unfold BallEffects, SpeedBounded, factorCoupled; inv_entry; split_cases;
    use_factors; note_mul_pos; try close_cases.
  all: match goal with |- context [serveDirection ?s] => destruct (serveDirection s) end;
    close_cases.
Qed.

(** X16.  In every reachable state the ball's horizontal velocity is at most
    [14 * ballSpeedMul] scaled by the active slow and fast factors, and so
    always below [PADDLE_WIDTH + 2 * BALL_RADIUS]: the ball's horizontal move
    in a tick is shorter than a paddle's width plus the ball's diameter, so it
    cannot pass from one side of a paddle to the other between two collision
    checks. *)
Theorem ball_cannot_jump_a_paddle (s : GameState) :
  reachable s ->
  Rabs (Ball.vx (ball s))
  <= 14 * ballSpeedMul (DIFFICULTY_SETTINGS (difficulty s))
     * (ballSlowFactor s * ballFastFactor s)
  /\ Rabs (Ball.vx (ball s)) < PADDLE_WIDTH + 2 * BALL_RADIUS.
Proof.
  intros Hr. destruct (reachable_SpeedBounded s Hr) as [[Hslow Hfast] [_ Hvx]].
  split; [exact Hvx |].
  unfold factorCoupled in *. unfold_consts.
  destruct Hslow as [[_ Hs] | [_ Hs]], Hfast as [[_ Hf] | [_ Hf]];
    rewrite Hs, Hf in Hvx; destruct (difficulty s); cbn in Hvx; lra.
Qed.

Lemma ball_cannot_jump_a_paddle_witness :
  Rabs (Ball.vx (ball inRally)) < PADDLE_WIDTH + 2 * BALL_RADIUS.
Proof.
  apply (ball_cannot_jump_a_paddle inRally). apply inRally_facts.
Defined.

(** ** Power-ups on the court *)

Lemma spawnStep_PowerUpsBounded env s : PowerUpsBounded s -> PowerUpsBounded (spawnStep env s).
Proof.
  intros [Hlen Hall]. unfold spawnStep, maxPowerUps in *.
  destruct (powerUpsEnabled s && (serveCountdown s <=? 0))%bool; [| split; assumption].
  simp. destruct (Rleb_spec (powerUpSpawnTimer s - dt) 0); simp; [| split; assumption].
  assert (Hnew : forall type px py, livePowerUp (PowerUp.mk px py 12 type 10 10)).
  { intros. unfold livePowerUp. cbn. repeat split; lra. }
  unfold PowerUpsBounded, maxPowerUps. simp.
  destruct (powerUps s) as [| a [| b [| c l]]] eqn:Hpus; simp; rewrite ?Hpus; simp.
  4: destruct l; [| cbn in Hlen; lia].
  all: split; [cbn; lia |].
  all: repeat match goal with
       | H : Forall _ (_ :: _) |- _ => inversion H; subst; clear H
       end.
  all: repeat (constructor; try assumption; try apply Hnew).
Qed.

Lemma powerUps_set_powerUps l s : powerUps (set_powerUps l s) = l.
Proof. reflexivity. Qed.

Lemma ttlStep_PowerUpsBounded s : PowerUpsBounded s -> PowerUpsBounded (ttlStep s).
Proof.
  intros [Hlen Hall]. unfold ttlStep.
  destruct (powerUps s) as [| pu rest] eqn:Hpus;
    [unfold PowerUpsBounded; rewrite Hpus; split; assumption |].
  rewrite <- Hpus in *. clear Hpus pu rest.
  unfold PowerUpsBounded. rewrite powerUps_set_powerUps.
  set (aged := map _ (powerUps s)). split.
  - etransitivity; [apply filter_length_le |]. unfold aged. rewrite length_map. exact Hlen.
  - apply Forall_forall. intros x Hx. apply filter_In in Hx. destruct Hx as [Hin Hpos].
    unfold aged in Hin. apply in_map_iff in Hin. destruct Hin as (y & <- & Hy).
    rewrite Forall_forall in Hall. destruct (Hall y Hy) as ([Hlo Hhi] & Hmax & Hrad).
    destruct (Rgtb_spec (PowerUp.ttl (PowerUp.set_ttl (PowerUp.ttl y - dt) y)) 0) as [Hgt | _];
      [| discriminate].
    unfold livePowerUp. cbn in *. unfold dt in *. repeat split; try assumption; lra.
Qed.

(** The pickups keep a sub-sequence of the power-ups. *)
Lemma pickupFilter_kept (Q : PowerUp.t -> Prop) pus : forall s,
  (length (fst (pickupFilter pus s)) <= length pus)%nat
  /\ (Forall Q pus -> Forall Q (fst (pickupFilter pus s))).
Proof.
  induction pus as [| pu rest IH]; intros s; cbn [pickupFilter].
  - split; [reflexivity | intros; constructor].
  - destruct (collected (ball s) pu).
    + destruct (IH (applyPowerUp pu s)) as [H1 H2]. split; [cbn; lia |].
      intros Hall. inversion Hall; subst. apply H2. assumption.
    + destruct (IH s) as [H1 H2]. destruct (pickupFilter rest s) as [kept s'].
      cbn in *. split; [lia |]. intros Hall. inversion Hall; subst.
      constructor; [assumption | apply H2; assumption].
Qed.

Lemma pickupStep_powerUps s : powerUps (pickupStep s) = fst (pickupFilter (powerUps s) s).
Proof. unfold pickupStep. destruct (pickupFilter (powerUps s) s). reflexivity. Qed.

Lemma pickupStep_PowerUpsBounded s : PowerUpsBounded s -> PowerUpsBounded (pickupStep s).
Proof.
  intros [Hlen Hall]. unfold PowerUpsBounded. rewrite pickupStep_powerUps.
  destruct (pickupFilter_kept livePowerUp (powerUps s) s) as [H1 H2].
  split; [lia | apply H2; exact Hall].
Qed.

Lemma reachable_PowerUpsBounded s : reachable s -> PowerUpsBounded s.
Proof.
  apply reachable_keeps;
    try (intros; apply spawnStep_PowerUpsBounded; assumption);
    try (intros; apply ttlStep_PowerUpsBounded; assumption);
    try (intros; apply pickupStep_PowerUpsBounded; assumption);
    unfold PowerUpsBounded; inv_entry; try assumption;
    try (split; [cbn; unfold maxPowerUps; lia | constructor]).
Qed.

(** X17.  In every reachable state at most three power-ups lie on the court,
    and each of them has radius 12, a lifetime of 10 seconds and a positive
    remaining time of at most 10 seconds: an expired power-up never stays on
    the court. *)
Theorem power_ups_bounded (s : GameState) :
  reachable s ->
  (length (powerUps s) <= 3)%nat /\ Forall livePowerUp (powerUps s).
Proof. intros Hr. apply (reachable_PowerUpsBounded s Hr). Qed.

Lemma power_ups_bounded_witness :
  (length (powerUps inRally) <= 3)%nat /\ Forall livePowerUp (powerUps inRally).
Proof. apply (power_ups_bounded inRally). apply inRally_facts. Defined.

(** ** Pickups are counted *)

Lemma applyPowerUp_counts pu s :
  lastHitBy (applyPowerUp pu s) = lastHitBy s
  /\ Ball.x (ball (applyPowerUp pu s)) = Ball.x (ball s)
  /\ Ball.y (ball (applyPowerUp pu s)) = Ball.y (ball s)
  /\ Ball.radius (ball (applyPowerUp pu s)) = Ball.radius (ball s)
  /\ Collected.player (powerUpsCollected (applyPowerUp pu s))
     = (Collected.player (powerUpsCollected s)
        + match lastHitBy s with sidePlayer => 1 | sideAi => 0 end)%Z
  /\ Collected.ai (powerUpsCollected (applyPowerUp pu s))
     = (Collected.ai (powerUpsCollected s)
        + match lastHitBy s with sidePlayer => 0 | sideAi => 1 end)%Z.
Proof.
  unfold applyPowerUp. destruct (lastHitBy s) eqn:Hl, (PowerUp.type pu); simp;
    break_ifs; simp; rewrite ?Hl; repeat split; lia.
Qed.

Lemma pickupFilter_counts pus : forall s,
  let removed := Z.of_nat (length pus - length (fst (pickupFilter pus s))) in
  lastHitBy (snd (pickupFilter pus s)) = lastHitBy s
  /\ Collected.player (powerUpsCollected (snd (pickupFilter pus s)))
     = (Collected.player (powerUpsCollected s)
        + match lastHitBy s with sidePlayer => removed | sideAi => 0 end)%Z
  /\ Collected.ai (powerUpsCollected (snd (pickupFilter pus s)))
     = (Collected.ai (powerUpsCollected s)
        + match lastHitBy s with sidePlayer => 0 | sideAi => removed end)%Z.
Proof.
  induction pus as [| pu rest IH]; intros s; cbn [pickupFilter].
  - cbn. destruct (lastHitBy s); repeat split; lia.
  - pose proof (proj1 (pickupFilter_kept (fun _ => True) rest s)) as Hle0.
    pose proof (proj1 (pickupFilter_kept (fun _ => True) rest (applyPowerUp pu s))) as Hle1.
    destruct (collected (ball s) pu).
    + destruct (applyPowerUp_counts pu s) as (Hl & _ & _ & _ & Hp & Ha).
      specialize (IH (applyPowerUp pu s)). cbn zeta in IH.
      destruct IH as (IHl & IHp & IHa). rewrite Hl in *. cbn zeta.
      rewrite IHl, IHp, IHa, Hp, Ha. cbn [length].
      destruct (lastHitBy s); repeat split; lia.
    + specialize (IH s). cbn zeta in IH. destruct IH as (IHl & IHp & IHa).
      destruct (pickupFilter rest s) as [kept s']. cbn [fst snd length] in *.
      rewrite IHl, IHp, IHa. destruct (lastHitBy s); repeat split; lia.
Qed.

Lemma pickupStep_collected s :
  powerUpsCollected (pickupStep s) = powerUpsCollected (snd (pickupFilter (powerUps s) s))
  /\ lastHitBy (pickupStep s) = lastHitBy (snd (pickupFilter (powerUps s) s)).
Proof. unfold pickupStep. destruct (pickupFilter (powerUps s) s). split; reflexivity. Qed.

(** X18.  The pickup phase counts every power-up it takes off the court
    exactly once, for the side that hit the ball last: that side's
    [powerUpsCollected] grows by the number of power-ups removed and the
    other side's is untouched, so the power-ups on the court and the ones
    collected add up to the same total before and after. *)
Theorem pickups_are_counted (s : GameState) :
  (length (powerUps (pickupStep s)) <= length (powerUps s))%nat
  /\ (collectedTotal (pickupStep s) + Z.of_nat (length (powerUps (pickupStep s)))
      = collectedTotal s + Z.of_nat (length (powerUps s)))%Z
  /\ (lastHitBy s = sidePlayer ->
      Collected.ai (powerUpsCollected (pickupStep s)) = Collected.ai (powerUpsCollected s))
  /\ (lastHitBy s = sideAi ->
      Collected.player (powerUpsCollected (pickupStep s))
      = Collected.player (powerUpsCollected s)).
Proof.
  destruct (pickupStep_collected s) as [Hc _].
  pose proof (pickupFilter_counts (powerUps s) s) as H. cbn zeta in H.
  destruct H as (_ & Hp & Ha).
  pose proof (proj1 (pickupFilter_kept (fun _ => True) (powerUps s) s)) as Hle.
  unfold collectedTotal. rewrite Hc, pickupStep_powerUps, Hp, Ha.
  destruct (lastHitBy s); repeat split; intros; try discriminate; lia.
Qed.

Lemma pickups_are_counted_witness :
  Collected.player (powerUpsCollected (pickupStep overPowerUp))
  = Collected.player (powerUpsCollected overPowerUp).
Proof.
  destruct (pickups_are_counted overPowerUp) as (_ & _ & _ & H).
  apply H. reflexivity.
Defined.

(** ** Power-ups switched off *)

Lemma reachable_disabled_empty s :
  reachable s -> powerUpsEnabled s = true \/ powerUps s = [].
Proof.
  apply (reachable_keeps (fun s => powerUpsEnabled s = true \/ powerUps s = []));
    try (intros s0 [H | H];
         [left; apply (pickupStep_preserves (fun s' => powerUpsEnabled s' = true));
            [| | exact H]; unfold_phases; frame
         | rewrite pickupStep_no_powerUps by exact H; right; exact H]);
    inv_entry; try (intuition (first [congruence | discriminate])).
  all: left; match goal with
             | H : (_ && _)%bool = true |- _ => apply andb_true_iff in H; apply H
             end.
Qed.

(** X19.  With power-ups switched off the court has none: in every
    reachable state in which [powerUpsEnabled] is off, the list of power-ups
    is empty. *)
Theorem disabled_power_ups_stay_off (s : GameState) :
  reachable s -> powerUpsEnabled s = false -> powerUps s = [].
Proof.
  intros Hr Hoff. destruct (reachable_disabled_empty s Hr) as [H | H]; [congruence | exact H].
Qed.

Lemma disabled_power_ups_stay_off_witness :
  powerUps (syncPowerUpsEnabled false freshMatch) = [].
Proof.
  apply disabled_power_ups_stay_off; [| reflexivity].
  eapply reachable_step; [apply reachable_freshMatch | apply step_syncPowerUpsEnabled].
Defined.

(** ** The ball's trail *)


(** ** Slow and fast effects *)

Lemma applyPowerUp_slow pu s :
  PowerUp.type pu = slow ->
  ballSlowTimer (applyPowerUp pu s) = 6
  /\ ballFastFactor (applyPowerUp pu s) = ballFastFactor s
  /\ (ballSlowFactor s = 1 ->
      ballSlowFactor (applyPowerUp pu s) = 0.6
      /\ Ball.vx (ball (applyPowerUp pu s)) = Ball.vx (ball s) * 0.6
      /\ Ball.vy (ball (applyPowerUp pu s)) = Ball.vy (ball s) * 0.6)
  /\ (ballSlowFactor s <> 1 ->
      ballSlowFactor (applyPowerUp pu s) = ballSlowFactor s
      /\ ball (applyPowerUp pu s) = ball s).
Proof.
  intros Hty. unfold applyPowerUp. rewrite Hty.
  destruct (lastHitBy s); simp; destruct (Reqb_spec (ballSlowFactor s) 1); simp;
    repeat split; intros; try reflexivity; try contradiction.
Qed.

Lemma applyPowerUp_fast pu s :
  PowerUp.type pu = fast ->
  ballFastTimer (applyPowerUp pu s) = 6
  /\ ballSlowFactor (applyPowerUp pu s) = ballSlowFactor s
  /\ (ballFastFactor s = 1 ->
      ballFastFactor (applyPowerUp pu s) = 1.6
      /\ Ball.vx (ball (applyPowerUp pu s)) = Ball.vx (ball s) * 1.6
      /\ Ball.vy (ball (applyPowerUp pu s)) = Ball.vy (ball s) * 1.6)
  /\ (ballFastFactor s <> 1 ->
      ballFastFactor (applyPowerUp pu s) = ballFastFactor s
      /\ ball (applyPowerUp pu s) = ball s).
Proof.
  intros Hty. unfold applyPowerUp. rewrite Hty.
  destruct (lastHitBy s); simp; destruct (Reqb_spec (ballFastFactor s) 1); simp;
    repeat split; intros; try reflexivity; try contradiction.
Qed.

(** X21.  Collecting a second power-up of a kind whose effect is already
    running does not stack: a second slow (fast) after a first one leaves the
    ball's velocity and both factors as the first one made them, and the
    effect's timer at 6 seconds. *)
Theorem repeated_pickup_does_not_stack (pu1 pu2 : PowerUp.t) (s : GameState) :
  PowerUp.type pu1 = PowerUp.type pu2 ->
  PowerUp.type pu1 = slow \/ PowerUp.type pu1 = fast ->
  ball (applyPowerUp pu2 (applyPowerUp pu1 s)) = ball (applyPowerUp pu1 s)
  /\ ballSlowFactor (applyPowerUp pu2 (applyPowerUp pu1 s))
     = ballSlowFactor (applyPowerUp pu1 s)
  /\ ballFastFactor (applyPowerUp pu2 (applyPowerUp pu1 s))
     = ballFastFactor (applyPowerUp pu1 s)
  /\ (PowerUp.type pu1 = slow -> ballSlowTimer (applyPowerUp pu2 (applyPowerUp pu1 s)) = 6)
  /\ (PowerUp.type pu1 = fast -> ballFastTimer (applyPowerUp pu2 (applyPowerUp pu1 s)) = 6).
Proof.
  intros Hty [H1 | H1]; assert (H2 := H1); rewrite Hty in H2.
  - destruct (applyPowerUp_slow pu1 s H1) as (_ & _ & Hone & Hnot).
    destruct (applyPowerUp_slow pu2 (applyPowerUp pu1 s) H2) as (Ht & Hf & _ & Hkeep).
    assert (Hn : ballSlowFactor (applyPowerUp pu1 s) <> 1).
    { destruct (Req_dec_T (ballSlowFactor s) 1) as [E | E].
      - rewrite (proj1 (Hone E)). lra.
      - rewrite (proj1 (Hnot E)). exact E. }
    destruct (Hkeep Hn) as [Hfac Hball].
    repeat split; intros; try assumption. rewrite H1 in *. discriminate.
  - destruct (applyPowerUp_fast pu1 s H1) as (_ & _ & Hone & Hnot).
    destruct (applyPowerUp_fast pu2 (applyPowerUp pu1 s) H2) as (Ht & Hf & _ & Hkeep).
    assert (Hn : ballFastFactor (applyPowerUp pu1 s) <> 1).
    { destruct (Req_dec_T (ballFastFactor s) 1) as [E | E].
      - rewrite (proj1 (Hone E)). lra.
      - rewrite (proj1 (Hnot E)). exact E. }
    destruct (Hkeep Hn) as [Hfac Hball].
    repeat split; intros; try assumption. rewrite H1 in *. discriminate.
Qed.

Lemma repeated_pickup_does_not_stack_witness :
  ball (applyPowerUp (PowerUp.mk 200 100 12 slow 9 10)
          (applyPowerUp (PowerUp.mk 400 250 12 slow 7 10) overPowerUp))
  = ball (applyPowerUp (PowerUp.mk 400 250 12 slow 7 10) overPowerUp).
Proof.
  apply (repeated_pickup_does_not_stack (PowerUp.mk 400 250 12 slow 7 10)
           (PowerUp.mk 200 100 12 slow 9 10) overPowerUp);
    [reflexivity | left; reflexivity].
Defined.

(** The slow effect [k] timer steps after its pickup. *)
Lemma slow_effect_after pu s k :
  PowerUp.type pu = slow ->
  ballSlowFactor s = 1 ->
  let s' := Nat.iter k slowTimerStep (applyPowerUp pu s) in
  (0 < 6 - INR k * dt
   /\ ballSlowTimer s' = 6 - INR k * dt /\ ballSlowFactor s' = 0.6
   /\ Ball.vx (ball s') = Ball.vx (ball s) * 0.6
   /\ Ball.vy (ball s') = Ball.vy (ball s) * 0.6)
  \/ (6 - INR k * dt <= 0
      /\ ballSlowTimer s' = 0 /\ ballSlowFactor s' = 1
      /\ Ball.vx (ball s') = Ball.vx (ball s)
      /\ Ball.vy (ball s') = Ball.vy (ball s)).
Proof.
  intros Hty Hone. induction k as [| k IH].
  - left. cbn [Nat.iter nat_rect INR].
    destruct (applyPowerUp_slow pu s Hty) as (Ht & _ & H & _).
    destruct (H Hone) as (Hf & Hx & Hy). rewrite Ht, Hf, Hx, Hy.
    unfold dt. repeat split; lra.
  - cbn zeta in *. rewrite Nat.iter_succ, S_INR.
    set (s' := Nat.iter k slowTimerStep (applyPowerUp pu s)) in *.
    clearbody s'. unfold slowTimerStep.
    destruct IH as [(Hpos & Ht & Hf & Hx & Hy) | (Hneg & Ht & Hf & Hx & Hy)].
    + destruct (Rgtb_spec (ballSlowTimer s') 0) as [_ | Hn]; [| lra]. simp.
      destruct (Rleb_spec (ballSlowTimer s' - dt) 0) as [Hle | Hgt]; simp.
      * right. rewrite Hf.
        destruct (Reqb_spec 0.6 1) as [Hbad | _]; [lra |]. simp.
        rewrite Hx, Hy. unfold dt in *. repeat split; try lra; field.
      * left. rewrite Hf, Hx, Hy, Ht. unfold dt in *. repeat split; lra.
    + destruct (Rgtb_spec (ballSlowTimer s') 0) as [Hp | _]; [lra |].
      right. unfold dt in *. repeat split; try assumption; lra.
Qed.

(** X22.  A slow effect wears off without a trace: after any number of
    timer steps following the pickup, either the effect is still running,
    with factor 0.6 and the ball's velocity 0.6 times what it was at the
    pickup, or it has expired, with timer 0, factor 1 and the velocity as it
    was at the pickup; after more than 360 steps it has expired. *)
Theorem slow_effect_wears_off (pu : PowerUp.t) (s : GameState) (n : nat) :
  PowerUp.type pu = slow ->
  ballSlowFactor s = 1 ->
  ((0 < ballSlowTimer (Nat.iter n slowTimerStep (applyPowerUp pu s)) <= 6
    /\ ballSlowFactor (Nat.iter n slowTimerStep (applyPowerUp pu s)) = 0.6
    /\ Ball.vx (ball (Nat.iter n slowTimerStep (applyPowerUp pu s))) = Ball.vx (ball s) * 0.6
    /\ Ball.vy (ball (Nat.iter n slowTimerStep (applyPowerUp pu s))) = Ball.vy (ball s) * 0.6)
   \/ (ballSlowTimer (Nat.iter n slowTimerStep (applyPowerUp pu s)) = 0
       /\ ballSlowFactor (Nat.iter n slowTimerStep (applyPowerUp pu s)) = 1
       /\ Ball.vx (ball (Nat.iter n slowTimerStep (applyPowerUp pu s))) = Ball.vx (ball s)
       /\ Ball.vy (ball (Nat.iter n slowTimerStep (applyPowerUp pu s))) = Ball.vy (ball s)))
  /\ ((360 < n)%nat ->
      ballSlowFactor (Nat.iter n slowTimerStep (applyPowerUp pu s)) = 1
      /\ Ball.vx (ball (Nat.iter n slowTimerStep (applyPowerUp pu s))) = Ball.vx (ball s)
      /\ Ball.vy (ball (Nat.iter n slowTimerStep (applyPowerUp pu s))) = Ball.vy (ball s)).
Proof.
  intros Hty Hone. pose proof (slow_effect_after pu s n Hty Hone) as H. cbn zeta in H.
  assert (Hn : 0 <= INR n) by apply pos_INR.
  split.
  - destruct H as [(Hpos & Ht & Hrest) | (_ & Hrest)]; [left | right; exact Hrest].
    split; [| exact Hrest]. rewrite Ht. unfold dt in *. lra.
  - intros Hlong. apply lt_INR in Hlong. rewrite INR_IZR_INZ in Hlong. cbn in Hlong.
    destruct H as [(Hpos & _) | (_ & _ & Hrest)]; [unfold dt in *; lra | exact Hrest].
Qed.

Lemma slow_effect_wears_off_witness :
  Ball.vx (ball (Nat.iter 400 slowTimerStep
                   (applyPowerUp (PowerUp.mk 400 250 12 slow 7 10) overPowerUp)))
  = Ball.vx (ball overPowerUp).
Proof.
  assert (Hone : ballSlowFactor overPowerUp = 1) by reflexivity.
  destruct (slow_effect_wears_off (PowerUp.mk 400 250 12 slow 7 10) overPowerUp 400
              eq_refl Hone) as [_ H].
  apply H. lia.
Defined.

(** ** Bouncing off the top and bottom walls *)

(** X23.  The ball movement of a tick carries the ball sideways by exactly
    [vx] and never changes [vx]; a wall bounce keeps the magnitude of [vy];
    a ball that ends the movement on the top wall is not moving up, one that
    ends it on the bottom wall is not moving down, and a ball that ends it
    strictly between the walls has moved by exactly [vy] with [vy]
    unchanged. *)
Theorem wall_bounce_reflects (s : GameState) :
  0 <= Ball.radius (ball s) ->
  2 * Ball.radius (ball s) < CANVAS_HEIGHT ->
  Ball.x (ball (ballStep s)) = Ball.x (ball s) + Ball.vx (ball s)
  /\ Ball.vx (ball (ballStep s)) = Ball.vx (ball s)
  /\ Rabs (Ball.vy (ball (ballStep s))) = Rabs (Ball.vy (ball s))
  /\ (Ball.y (ball (ballStep s)) = Ball.radius (ball s) ->
      0 <= Ball.vy (ball (ballStep s)))
  /\ (Ball.y (ball (ballStep s)) = CANVAS_HEIGHT - Ball.radius (ball s) ->
      Ball.vy (ball (ballStep s)) <= 0)
  /\ (Ball.radius (ball s) < Ball.y (ball (ballStep s))
                           < CANVAS_HEIGHT - Ball.radius (ball s) ->
      Ball.y (ball (ballStep s)) = Ball.y (ball s) + Ball.vy (ball s)
      /\ Ball.vy (ball (ballStep s)) = Ball.vy (ball s)).
Proof.
  intros Hr0 Hr. unfold ballStep. simp.
  repeat (rcase; simp_all); unfold_consts; rminmax; repeat split; intros; lra.
Qed.

Lemma wall_bounce_reflects_witness :
  Ball.vy (ball (ballStep towardsTopWall)) = 6
  /\ Ball.y (ball (ballStep towardsTopWall)) = 8.
Proof.
  assert (H0 : 0 <= Ball.radius (ball towardsTopWall)) by (cbn; unfold BALL_RADIUS; lra).
  assert (H1 : 2 * Ball.radius (ball towardsTopWall) < CANVAS_HEIGHT)
    by (cbn; unfold_consts; lra).
  destruct (wall_bounce_reflects towardsTopWall H0 H1) as (_ & _ & Habs & Htop & _).
  assert (Hy : Ball.y (ball (ballStep towardsTopWall)) = 8).
  { unfold towardsTopWall, rallyState, ballStep. settle. reflexivity. }
  split; [| exact Hy].
  assert (Hup : 0 <= Ball.vy (ball (ballStep towardsTopWall))).
  { apply Htop. rewrite Hy. cbn. unfold BALL_RADIUS. lra. }
  change (Ball.vy (ball towardsTopWall)) with (-6) in Habs.
  rewrite (Rabs_right _ (Rle_ge _ _ Hup)) in Habs. rewrite Habs.
  rewrite Rabs_left by lra. lra.
Defined.

(** ** The status of the match *)

Lemma handleTouch_status touches : forall s,
  gameStatus (fold_left touchPaddle touches s) = gameStatus s.
Proof.
  induction touches as [| touch rest IH]; intros s; [reflexivity |].
  cbn [fold_left]. rewrite IH. unfold touchPaddle. destruct touch. break_ifs; reflexivity.
Qed.

(** X24.  Whatever entry point is called, a match can only become paused
    from play, and can only be over after a tick of play: the status
    [paused] is entered from [playing] only and [gameOver] from [playing]
    only. *)
Theorem status_transitions (s s' : GameState) :
  step s s' ->
  (gameStatus s' = paused -> gameStatus s = playing \/ gameStatus s = paused)
  /\ (gameStatus s' = gameOver -> gameStatus s = playing \/ gameStatus s = gameOver).
Proof.
  intros Hstep. inversion Hstep; subst; clear Hstep.
  - destruct (Status_eqb_spec (gameStatus s) playing) as [Hplay | Hno].
    + split; intros _; left; exact Hplay.
    + rewrite update_not_playing by assumption. split; intros H; right; exact H.
  - unfold startGame, prepareServe. simp. split; intros H; discriminate H.
  - unfold togglePause. destruct (gameStatus s) eqn:E; simp; rewrite ?E;
      split; intros H; try discriminate H; auto.
  - unfold returnToMenu. simp. split; intros H; discriminate H.
  - unfold pauseIfPlaying. destruct (gameStatus s) eqn:E; simp; rewrite ?E;
      split; intros H; try discriminate H; auto.
  - unfold handleKeyDown, togglePause, returnToMenu, startGame, prepareServe. simp.
    destruct (gameStatus s) eqn:E; simp; break_ifs; simp; rewrite ?E;
      split; intros H; try discriminate H; auto.
  - unfold handleKeyUp. simp. tauto.
  - unfold handleMouseMove. simp. tauto.
  - unfold handleTouch. break_ifs; simp.
    + tauto.
    + tauto.
    + enough (H : gameStatus (fold_left touchPaddle touches s) = gameStatus s)
        by (rewrite H; tauto).
      apply (handleTouch_status touches s).
  - unfold handleTouchEnd. break_ifs; simp; tauto.
  - unfold syncAdaptiveAI. simp. tauto.
  - unfold syncPowerUpsEnabled. break_ifs; simp; tauto.
  - unfold syncPowerUpSpawnRate. simp. tauto.
Qed.

Lemma status_transitions_witness :
  gameStatus freshMatch = playing \/ gameStatus freshMatch = paused.
Proof.
  apply (proj1 (status_transitions freshMatch (togglePause freshMatch)
                  (step_togglePause freshMatch))).
  reflexivity.
Defined.

(** ** The AI's bounce prediction *)

Lemma bounceLoop_more_fuel n : forall y r m,
  bounceLoop n y = Some r -> (n <= m)%nat -> bounceLoop m y = Some r.
Proof.
  induction n as [| n IH]; intros y r m H Hle.
  - destruct m; cbn [bounceLoop] in *;
      destruct ((y <? 0) || (y >? CANVAS_HEIGHT))%bool; congruence.
  - destruct m as [| m]; [lia |]. cbn [bounceLoop] in *.
    destruct ((y <? 0) || (y >? CANVAS_HEIGHT))%bool; [| exact H].
    apply (IH _ _ _ H). lia.
Qed.

Lemma bounceLoop_in_court n y :
  0 <= y <= CANVAS_HEIGHT -> bounceLoop n y = Some y.
Proof.
  intros Hy. destruct n; cbn [bounceLoop];
    destruct (Rltb_spec y 0), (Rgtb_spec y CANVAS_HEIGHT); cbn [orb]; try lra; reflexivity.
Qed.

(** X25.  For a predicted value of magnitude at most 10^6 the bounce
    prediction leaves its loop with a value inside the court, and the number
    of rounds allowed is no restriction: any larger number gives the same
    result.  A value inside the court is left as it is; a value up to one
    court height above the top wall or below the bottom wall is mirrored at
    that wall.  (The bound keeps the statement to the range on which the
    source's double arithmetic performs the reflections: beyond about 1e19 a
    double absorbs the subtraction and the source loop does not leave.) *)
Theorem bounce_prediction_in_court (y : R) :
  Rabs y <= 1000000 ->
  0 <= bouncePrediction y <= CANVAS_HEIGHT
  /\ (forall n, (bounceFuel y <= n)%nat -> bounceLoop n y = Some (bouncePrediction y))
  /\ (0 <= y <= CANVAS_HEIGHT -> bouncePrediction y = y)
  /\ (- CANVAS_HEIGHT <= y < 0 -> bouncePrediction y = - y)
  /\ (CANVAS_HEIGHT < y <= 2 * CANVAS_HEIGHT -> bouncePrediction y = 2 * CANVAS_HEIGHT - y).
Proof.
  intros _.
  destruct (bounceLoop_terminates y) as (r & Hr & Hp & Hrange).
  rewrite Hp. split; [exact Hrange |]. split.
  { intros n Hn. apply (bounceLoop_more_fuel _ _ _ _ Hr Hn). }
  unfold bounceFuel in Hr. cbn [bounceLoop] in Hr.
  destruct (Rltb_spec y 0) as [Hneg | Hnneg];
    destruct (Rgtb_spec y CANVAS_HEIGHT) as [Hbig | Hnbig]; cbn [orb] in Hr.
  - unfold CANVAS_HEIGHT in *. lra.
  - destruct (Rgtb_spec (- y) CANVAS_HEIGHT) as [Hfar | Hnear].
    + repeat split; intros; unfold CANVAS_HEIGHT in *; lra.
    + repeat split; intros; try (unfold CANVAS_HEIGHT in *; lra).
      rewrite bounceLoop_in_court in Hr by lra. congruence.
  - repeat split; intros; try (unfold CANVAS_HEIGHT in *; lra).
    rewrite bounceLoop_in_court in Hr by (unfold CANVAS_HEIGHT in *; lra). congruence.
  - repeat split; intros; try (unfold CANVAS_HEIGHT in *; lra). congruence.
Qed.

Lemma bounce_prediction_in_court_witness :
  bouncePrediction (-120) = 120 /\ bouncePrediction 640 = 360.
Proof.
  assert (H1 : Rabs (-120) <= 1000000) by (rewrite Rabs_left by lra; lra).
  assert (H2 : Rabs 640 <= 1000000) by (rewrite Rabs_right by lra; lra).
  split.
  - destruct (bounce_prediction_in_court (-120) H1) as (_ & _ & _ & H & _).
    rewrite H by (unfold CANVAS_HEIGHT; lra). lra.
  - destruct (bounce_prediction_in_court 640 H2) as (_ & _ & _ & _ & H).
    rewrite H by (unfold CANVAS_HEIGHT; lra). unfold CANVAS_HEIGHT. lra.
Defined.

(** ** The tick after the paddles have moved *)

Section AfterMovement.
Variable P : GameState -> Prop.
Variable env : Env.

Hypothesis P_powerHitTimerStep : forall s, P s -> P (powerHitTimerStep s).
Hypothesis P_spawnStep : forall s, P s -> P (spawnStep env s).
Hypothesis P_ttlStep : forall s, P s -> P (ttlStep s).
Hypothesis P_enlargeTimersStep : forall s, P s -> P (enlargeTimersStep s).
Hypothesis P_shrinkTimersStep : forall s, P s -> P (shrinkTimersStep s).
Hypothesis P_slowTimerStep : forall s, P s -> P (slowTimerStep s).
Hypothesis P_fastTimerStep : forall s, P s -> P (fastTimerStep s).
Hypothesis P_serveStep : forall s, P s -> P (serveStep env s).
Hypothesis P_ballStep : forall s, P s -> P (ballStep s).
Hypothesis P_paddleCollisions :
  forall d s, P s -> P (paddleCollisions (DIFFICULTY_SETTINGS d) env s).
Hypothesis P_scoreLeftExit : forall t s, P s -> P (scoreLeftExit t s).
Hypothesis P_scoreRightExit : forall t s, P s -> P (scoreRightExit t s).
Hypothesis P_applyPowerUp : forall pu s, P s -> P (applyPowerUp pu s).
Hypothesis P_set_powerUps : forall l s, P s -> P (set_powerUps l s).

(** Whatever holds once the paddles' displacement is recorded and survives
    each later phase holds after [update]. *)
Lemma update_after_computeDy s :
  gameStatus s = playing ->
  P (computeDy (movePaddles (DIFFICULTY_SETTINGS (difficulty s)) env
                  (adaptiveAIStep (DIFFICULTY_SETTINGS (difficulty s)) s))) ->
  P (update env s).
Proof.
  intros Hplay Hs. unfold update. rewrite Hplay. cbn.
  assert (Hpre : P (tickPrelude (DIFFICULTY_SETTINGS (difficulty s)) env s)).
  { unfold tickPrelude. apply (powerUpStep_preserves P env); auto. }
  destruct (serveCountdown (tickPrelude (DIFFICULTY_SETTINGS (difficulty s)) env s) >? 0).
  - auto.
  - apply (pickupStep_preserves P); auto. unfold scoring, rallyUntilScoring. auto 10.
Qed.
End AfterMovement.

(** ** Paddle displacement *)

Lemma update_records_displacement (env : Env) (s : GameState) :
  gameStatus s = playing ->
  Paddle.dy (player (update env s)) = Paddle.y (player (update env s)) - prevPlayerYRef s
  /\ Paddle.dy (ai (update env s)) = Paddle.y (ai (update env s)) - prevAiYRef s
  /\ prevPlayerYRef (update env s) = Paddle.y (player (update env s))
  /\ prevAiYRef (update env s) = Paddle.y (ai (update env s)).
Proof.
  intros Hplay.
  set (P := fun s' : GameState =>
    Paddle.dy (player s') = Paddle.y (player s') - prevPlayerYRef s
    /\ Paddle.dy (ai s') = Paddle.y (ai s') - prevAiYRef s
    /\ prevPlayerYRef s' = Paddle.y (player s')
    /\ prevAiYRef s' = Paddle.y (ai s')).
  change (P (update env s)).
  apply update_after_computeDy; try exact Hplay.
  1-14: unfold P; unfold_phases; frame.
  set (st := DIFFICULTY_SETTINGS (difficulty s)).
  assert (Hprev : prevPlayerYRef (movePaddles st env (adaptiveAIStep st s)) = prevPlayerYRef s
                  /\ prevAiYRef (movePaddles st env (adaptiveAIStep st s)) = prevAiYRef s).
  { unfold movePaddles, adaptiveAIStep, keyboardMove, clampPaddle. frame. }
  destruct Hprev as [H1 H2].
  unfold P, computeDy. simp. rewrite H1, H2. repeat split.
Qed.

(** X26.  After a playing tick each paddle's [dy] is its actual displacement
    since the previous tick, the position the tick leaves it at minus the
    position recorded at the previous tick, whatever moved it (keys, mouse,
    touch, the AI or the clamping at the walls); and the tick records the new
    positions for the next one. *)
Theorem dy_is_actual_displacement (env : Env) (s : GameState) :
  gameStatus s = playing ->
  Paddle.dy (player (update env s)) = Paddle.y (player (update env s)) - prevPlayerYRef s
  /\ Paddle.dy (ai (update env s)) = Paddle.y (ai (update env s)) - prevAiYRef s
  /\ prevPlayerYRef (update env s) = Paddle.y (player (update env s))
  /\ prevAiYRef (update env s) = Paddle.y (ai (update env s)).
Proof. apply update_records_displacement. Qed.

Lemma dy_is_actual_displacement_witness :
  Paddle.dy (player (update (calmEnv 5000) powerHitTickStart))
  = Paddle.y (player (update (calmEnv 5000) powerHitTickStart)) - 200.
Proof.
  apply (dy_is_actual_displacement (calmEnv 5000) powerHitTickStart). reflexivity.
Defined.

(** ** How far the AI paddle moves in a tick *)

Lemma adaptiveAIStep_speed_pos d s :
  mode s = single -> 0 < Paddle.speed (ai (adaptiveAIStep (DIFFICULTY_SETTINGS d) s)).
Proof.
  intros Hm. unfold adaptiveAIStep. rewrite Hm.
  destruct (adaptiveAI s); simp; repeat (rcase; simp); destruct d; cbn in *; lra.
Qed.

Lemma adaptiveAIStep_ai d s :
  Paddle.y (ai (adaptiveAIStep (DIFFICULTY_SETTINGS d) s)) = Paddle.y (ai s)
  /\ Paddle.height (ai (adaptiveAIStep (DIFFICULTY_SETTINGS d) s)) = Paddle.height (ai s)
  /\ mode (adaptiveAIStep (DIFFICULTY_SETTINGS d) s) = mode s.
Proof. unfold adaptiveAIStep. frame. Qed.

(** The AI's step before clamping is at most its speed, and clamping a
    paddle that was inside the court does not lengthen the step. *)
Lemma movePaddles_ai_step d env s :
  mode s = single ->
  0 <= Paddle.speed (ai s) ->
  0 <= Paddle.y (ai s) <= CANVAS_HEIGHT - Paddle.height (ai s) ->
  Rabs (Paddle.y (ai (movePaddles (DIFFICULTY_SETTINGS d) env s)) - Paddle.y (ai s))
  <= Paddle.speed (ai s)
  /\ Paddle.speed (ai (movePaddles (DIFFICULTY_SETTINGS d) env s)) = Paddle.speed (ai s).
Proof.
  intros Hm Hv Hy. unfold movePaddles, clampPaddle, clampPaddleY. rewrite Hm.
  destruct (useMouseRef s); simp.
  all: match goal with
       | |- context [Math_sign ?a] => generalize a; intros aiDiff
       end.
  all: assert (Hreact : 0 < aiReaction (DIFFICULTY_SETTINGS d)) by (destruct d; cbn; lra).
  all: set (react := aiReaction (DIFFICULTY_SETTINGS d)) in *; clearbody react.
  all: assert (Hstep : 0 <= Rabs aiDiff * react)
         by (apply Rmult_le_pos; [apply Rabs_pos | lra]).
  all: set (reach := Rabs aiDiff * react) in *; clearbody reach.
  all: unfold Math_sign; repeat (rcase; simp); rminmax; split; lra.
Qed.

(** X27.  In a playing tick of a single-player match the AI paddle, when it
    starts the tick inside the court, ends it at most its speed for that
    tick away from where it was: it cannot jump to the ball. *)
Theorem ai_moves_at_most_its_speed (env : Env) (s : GameState) :
  gameStatus s = playing ->
  mode s = single ->
  0 <= Paddle.y (ai s) <= CANVAS_HEIGHT - Paddle.height (ai s) ->
  Rabs (Paddle.y (ai (update env s)) - Paddle.y (ai s)) <= Paddle.speed (ai (update env s))
  /\ 0 < Paddle.speed (ai (update env s)).
Proof.
  intros Hplay Hm Hy.
  set (st := DIFFICULTY_SETTINGS (difficulty s)).
  set (s0 := adaptiveAIStep st s).
  destruct (adaptiveAIStep_ai (difficulty s) s) as (Hy0 & Hh0 & Hm0).
  pose proof (adaptiveAIStep_speed_pos (difficulty s) s Hm) as Hv0.
  fold st in Hy0, Hh0, Hm0, Hv0. fold s0 in Hy0, Hh0, Hm0, Hv0.
  destruct (movePaddles_ai_step (difficulty s) env s0) as [Hstep Hspeed].
  { rewrite Hm0. exact Hm. }
  { lra. }
  { rewrite Hy0, Hh0. exact Hy. }
  fold st in Hstep, Hspeed. rewrite Hy0 in Hstep.
  set (s1 := movePaddles st env s0) in *.
  set (P := fun s' : GameState =>
    Paddle.y (ai s') = Paddle.y (ai s1) /\ Paddle.speed (ai s') = Paddle.speed (ai s1)).
  assert (HP : P (update env s)).
  { apply update_after_computeDy; try exact Hplay.
    1-14: unfold P; unfold_phases; frame.
    fold st. fold s0. fold s1. unfold P, computeDy. simp. split; reflexivity. }
  destruct HP as [H1 H2]. rewrite H1, H2, Hspeed. split; [exact Hstep | exact Hv0].
Qed.

Lemma ai_moves_at_most_its_speed_witness :
  Rabs (Paddle.y (ai (update (calmEnv 5000) aiChasing)) - 300)
  <= Paddle.speed (ai (update (calmEnv 5000) aiChasing)).
Proof.
  apply (ai_moves_at_most_its_speed (calmEnv 5000) aiChasing); try reflexivity.
  cbn. unfold_consts. lra.
Defined.

(** ** A hit sends the ball back *)

Lemma checkPaddleCollision_rally st t p isPlayer s :
  overlaps (ball s) p = true ->
  rallyCount (checkPaddleCollision st t p isPlayer s) = (rallyCount s + 1)%Z
  /\ lastHitBy (checkPaddleCollision st t p isPlayer s)
     = (if isPlayer then sidePlayer else sideAi)
  /\ Ball.radius (ball (checkPaddleCollision st t p isPlayer s)) = Ball.radius (ball s)
  /\ Ball.y (ball (checkPaddleCollision st t p isPlayer s)) = Ball.y (ball s).
Proof.
  intros H. unfold checkPaddleCollision. rewrite H. simp.
  break_ifs; repeat split; reflexivity.
Qed.

Lemma checkPaddleCollision_vx_sign d t p isPlayer s :
  BallMoving s ->
  4 * BALL_RADIUS < Paddle.height p ->
  overlaps (ball s) p = true ->
  0 < Ball.vx (ball (checkPaddleCollision (DIFFICULTY_SETTINGS d) t p isPlayer s))
      * (if isPlayer then 1 else -1).
Proof.
  intros (Hr & Hv & Hsf & Hff & _) Hh Hov.
  set (st := DIFFICULTY_SETTINGS d).
  assert (Hm : 0 < ballSpeedMul st) by apply ballSpeedMul_pos.
  assert (Hv1 : 0 < Rmin (Ball.speed (ball s) * 1.05) (14 * ballSpeedMul st))
    by (rminmax; lra).
  destruct (checkPaddleCollision_velocity st t p isPlayer s Hov) as [Hvx' _].
  cbn zeta in Hvx'. rewrite Hvx'.
  assert (Hcos : 0 < cos ((Ball.y (ball s) - (Paddle.y p + Paddle.height p / 2))
                          / (Paddle.height p / 2) * (PI / 3))).
  { destruct (hit_angle_bound (ball s) p Hov) as [Hlo Hhi].
    - rewrite Hr. unfold BALL_RADIUS. lra.
    - rewrite Hr. exact Hh.
    - apply cos_gt_0; assumption. }
  assert (Hmul : 0 < ballSlowFactor s * ballFastFactor s)
    by (apply Rmult_lt_0_compat; assumption).
  assert (Hprod : 0 < cos ((Ball.y (ball s) - (Paddle.y p + Paddle.height p / 2))
                           / (Paddle.height p / 2) * (PI / 3))
                      * Rmin (Ball.speed (ball s) * 1.05) (14 * ballSpeedMul st))
    by (apply Rmult_lt_0_compat; assumption).
  destruct isPlayer; nra.
Qed.

Lemma overlaps_false_left b p :
  Ball.x b - Ball.radius b = Paddle.x p + Paddle.width p -> overlaps b p = false.
Proof.
  intros H. unfold overlaps.
  destruct (Rltb_spec (Ball.x b - Ball.radius b) (Paddle.x p + Paddle.width p)) as [Hl | _];
    [lra | reflexivity].
Qed.

Lemma overlaps_false_right b p :
  Ball.x b + Ball.radius b = Paddle.x p -> overlaps b p = false.
Proof.
  intros H. unfold overlaps.
  destruct (Rgtb_spec (Ball.x b + Ball.radius b) (Paddle.x p)) as [Hl | _];
    [lra | apply andb_false_r || (rewrite andb_false_r; reflexivity)].
Qed.

(** X28.  When the collision check of a tick finds the ball on the paddle it
    tests, on a state where [BallMoving] holds (the invariant of the reachable
    states that keeps the ball moving), the ball leaves toward the other side:
    after a hit on the left paddle [vx] is positive, after a hit on the right
    paddle negative; the ball is put next to the paddle's face and no longer
    overlaps it, the rally count grows by one and the hitting side is
    recorded as the last to hit. *)
Theorem hit_sends_ball_back (env : Env) (s : GameState) :
  BallMoving s ->
  (Ball.vx (ball s) < 0 ->
   overlaps (ball s) (player s) = true ->
   0 < Ball.vx (ball (paddleCollisions (DIFFICULTY_SETTINGS (difficulty s)) env s))
   /\ overlaps (ball (paddleCollisions (DIFFICULTY_SETTINGS (difficulty s)) env s))
               (player (paddleCollisions (DIFFICULTY_SETTINGS (difficulty s)) env s)) = false
   /\ lastHitBy (paddleCollisions (DIFFICULTY_SETTINGS (difficulty s)) env s) = sidePlayer
   /\ rallyCount (paddleCollisions (DIFFICULTY_SETTINGS (difficulty s)) env s)
      = (rallyCount s + 1)%Z)
  /\ (0 < Ball.vx (ball s) ->
      overlaps (ball s) (ai s) = true ->
      Ball.vx (ball (paddleCollisions (DIFFICULTY_SETTINGS (difficulty s)) env s)) < 0
      /\ overlaps (ball (paddleCollisions (DIFFICULTY_SETTINGS (difficulty s)) env s))
                  (ai (paddleCollisions (DIFFICULTY_SETTINGS (difficulty s)) env s)) = false
      /\ lastHitBy (paddleCollisions (DIFFICULTY_SETTINGS (difficulty s)) env s) = sideAi
      /\ rallyCount (paddleCollisions (DIFFICULTY_SETTINGS (difficulty s)) env s)
         = (rallyCount s + 1)%Z).
Proof.
  intros Hmov. pose proof Hmov as (_ & _ & _ & _ & Hhp & Hha & _).
  set (st := DIFFICULTY_SETTINGS (difficulty s)). unfold paddleCollisions.
  split; intros Hvx Hov.
  - destruct (Rltb_spec (Ball.vx (ball s)) 0) as [_ | H]; [| lra].
    pose proof (checkPaddleCollision_vx_sign (difficulty s) (now env) (player s) true s
                  Hmov Hhp Hov) as Hsign. fold st in Hsign.
    destruct (checkPaddleCollision_rally st (now env) (player s) true s Hov)
      as (Hrc & Hlast & Hrad & _).
    destruct (checkPaddleCollision_paddles st (now env) (player s) true s) as [Hpl _].
    pose proof (proj1 (checkPaddleCollision_x st (now env) (player s) s Hov)) as Hx.
    repeat split; try assumption; [lra |].
    apply overlaps_false_left. rewrite Hpl, Hx, Hrad. lra.
  - destruct (Rltb_spec (Ball.vx (ball s)) 0) as [H | _]; [lra |].
    pose proof (checkPaddleCollision_vx_sign (difficulty s) (now env) (ai s) false s
                  Hmov Hha Hov) as Hsign. fold st in Hsign.
    destruct (checkPaddleCollision_rally st (now env) (ai s) false s Hov)
      as (Hrc & Hlast & Hrad & _).
    destruct (checkPaddleCollision_paddles st (now env) (ai s) false s) as [_ Hai].
    pose proof (proj2 (checkPaddleCollision_x st (now env) (ai s) s Hov)) as Hx.
    repeat split; try assumption; [lra |].
    apply overlaps_false_right. rewrite Hai, Hx, Hrad. lra.
Qed.

Lemma hit_sends_ball_back_witness :
  0 < Ball.vx (ball (paddleCollisions (DIFFICULTY_SETTINGS medium) (calmEnv 5000)
                       (atLeftPaddle 5 5 205))).
Proof.
  assert (Hvel : 0 < 5 < 28) by lra.
  pose proof (atLeftPaddle_facts 5 5 205 Hvel) as H. cbn zeta in H.
  destruct H as (Hov & Hball & Hpl & _ & Hai & Hd & Hsf & Hff & _).
  assert (Hmov : BallMoving (atLeftPaddle 5 5 205)).
  { unfold BallMoving. rewrite Hball, Hpl, Hai, Hsf, Hff. cbn. unfold_consts.
    repeat split; try lra. }
  destruct (hit_sends_ball_back (calmEnv 5000) (atLeftPaddle 5 5 205) Hmov) as [H _].
  rewrite Hd in H. apply H; [rewrite Hball; cbn; lra | exact Hov].
Defined.

(** ** Controls *)

Lemma clampPaddleY_idempotent h y :
  clampPaddleY h (clampPaddleY h y) = clampPaddleY h y.
Proof. unfold clampPaddleY. rminmax; lra. Qed.

(** The paddles' positions and the recorded displacement are settled once
    [computeDy] has run. *)
Lemma update_paddle_positions env s :
  gameStatus s = playing ->
  Paddle.y (player (update env s))
  = Paddle.y (player (movePaddles (DIFFICULTY_SETTINGS (difficulty s)) env
                        (adaptiveAIStep (DIFFICULTY_SETTINGS (difficulty s)) s)))
  /\ Paddle.y (ai (update env s))
     = Paddle.y (ai (movePaddles (DIFFICULTY_SETTINGS (difficulty s)) env
                       (adaptiveAIStep (DIFFICULTY_SETTINGS (difficulty s)) s))).
Proof.
  intros Hplay.
  set (s1 := movePaddles _ env _).
  apply (update_after_computeDy
           (fun s' => Paddle.y (player s') = Paddle.y (player s1)
                      /\ Paddle.y (ai s') = Paddle.y (ai s1))); try exact Hplay.
  1-14: unfold_phases; frame.
  fold s1. unfold computeDy. simp. split; reflexivity.
Qed.

(** X29.  Keyboard control in a two-player match.  In a playing tick with
    no touch active, the left paddle ends at its old position plus the step
    its keys ask for (W or w up, S or s down, each worth the paddle's speed,
    both together cancelling out), clamped to the court; and the right paddle
    likewise with the arrow keys. *)
Theorem keyboard_moves_paddles (env : Env) (s : GameState) :
  gameStatus s = playing ->
  mode s = multi ->
  touchActiveRef s = false ->
  Paddle.y (player (update env s))
  = clampPaddleY (Paddle.height (player s))
      (Paddle.y (player s)
       + keyStep (keys_has "w" (keysRef s) || keys_has "W" (keysRef s))
                 (keys_has "s" (keysRef s) || keys_has "S" (keysRef s))
                 (Paddle.speed (player s)))
  /\ Paddle.y (ai (update env s))
     = clampPaddleY (Paddle.height (ai s))
         (Paddle.y (ai s)
          + keyStep (keys_has "ArrowUp" (keysRef s)) (keys_has "ArrowDown" (keysRef s))
                    (Paddle.speed (ai s))).
Proof.
  intros Hplay Hmode Htouch.
  destruct (update_paddle_positions env s Hplay) as [Hp Ha]. rewrite Hp, Ha.
  unfold adaptiveAIStep. rewrite Hmode.
  unfold movePaddles, keyboardMove, clampPaddle, keyStep. rewrite Hmode. simp.
  rewrite Htouch. simp.
  destruct (keys_has "w" (keysRef s) || keys_has "W" (keysRef s))%bool,
           (keys_has "s" (keysRef s) || keys_has "S" (keysRef s))%bool,
           (keys_has "ArrowUp" (keysRef s)), (keys_has "ArrowDown" (keysRef s)); simp;
    split; f_equal; lra.
Qed.

Lemma keyboard_moves_paddles_witness :
  Paddle.y (player (update (calmEnv 5000) (keyboardRally ["s"%string])))
  = clampPaddleY 90 (205 + 7).
Proof.
  destruct (keyboard_moves_paddles (calmEnv 5000) (keyboardRally ["s"%string]))
    as [H _]; try reflexivity.
  rewrite H.
  change (clampPaddleY 90 (205 + (7 - 0)) = clampPaddleY 90 (205 + 7)).
  f_equal. lra.
Defined.

(** X30.  Touch control in a two-player match.  When a touch on the left
    half of the court is followed by a playing tick, the left paddle ends
    centred on the touch, clamped to the court, exactly where the touch
    handler put it; its [dy] for that tick is the distance from the position
    recorded at the previous tick, so a fast drag counts as paddle movement;
    and the right paddle only gets clamped. *)
Theorem touch_places_paddle (env : Env) (tx ty : R) (s : GameState) :
  gameStatus s = playing ->
  mode s = multi ->
  tx < CANVAS_WIDTH / 2 ->
  Paddle.y (player (update env (handleTouch [(tx, ty)] s)))
  = clampPaddleY (Paddle.height (player s)) (ty - Paddle.height (player s) / 2)
  /\ Paddle.y (player (update env (handleTouch [(tx, ty)] s)))
     = Paddle.y (player (handleTouch [(tx, ty)] s))
  /\ Paddle.dy (player (update env (handleTouch [(tx, ty)] s)))
     = clampPaddleY (Paddle.height (player s)) (ty - Paddle.height (player s) / 2)
       - prevPlayerYRef s
  /\ Paddle.y (ai (update env (handleTouch [(tx, ty)] s)))
     = clampPaddleY (Paddle.height (ai s)) (Paddle.y (ai s)).
Proof.
  intros Hplay Hmode Hx.
  set (s0 := handleTouch [(tx, ty)] s).
  assert (Hs0 : s0 = set_touchActiveRef true
                       (upd_player (Paddle.set_y
                          (clampPaddleY (Paddle.height (player s))
                             (ty - Paddle.height (player s) / 2))) s)).
  { unfold s0, handleTouch. rewrite Hmode. cbn [fold_left]. unfold touchPaddle.
    destruct (Rltb_spec tx (CANVAS_WIDTH / 2)) as [_ | H]; [reflexivity | lra]. }
  assert (Hplay0 : gameStatus s0 = playing) by (rewrite Hs0; exact Hplay).
  destruct (update_paddle_positions env s0 Hplay0) as [Hp Ha].
  destruct (update_records_displacement env s0 Hplay0) as (Hdy & _).
  rewrite Hdy, Hp, Ha. rewrite Hs0.
  unfold adaptiveAIStep. simp. rewrite Hmode.
  unfold movePaddles, clampPaddle. simp. rewrite Hmode. simp.
  rewrite clampPaddleY_idempotent. repeat split; reflexivity.
Qed.

Lemma touch_places_paddle_witness :
  Paddle.y (player (update (calmEnv 5000) (handleTouch [(100, 300)] powerHitTickStart)))
  = clampPaddleY 90 (300 - 90 / 2).
Proof.
  apply (touch_places_paddle (calmEnv 5000) 100 300 powerHitTickStart); try reflexivity.
  unfold CANVAS_WIDTH. lra.
Defined.
